(** * universal-sync: the sync-adapter core

    A shallow embedding of the TypeScript sources
    - [src/interfaces/SyncAdapter.ts]      (status and event types),
    - [src/adapters/BaseSyncAdapter.ts]    (listener registry, status update),
    - [src/adapters/RemoteStorageAdapter.ts] (explicit two-way reconciliation),
    - [src/adapters/WebDAVAdapter.ts]      (replication-handle driven adapter),
    - [calculateProgress] of the WebDAV and Google Drive adapters,
    - [SyncAdapterFactory]                 (the registry of adapter types),
    - [src/utils/remoteStorageDiscovery.ts] (WebFinger discovery),
    followed by the properties of the specification that were checked
    against them.

    Conventions of the embedding.
    - A JavaScript [number] is an IEEE 754 binary64 value: Rocq's primitive
      [float].  [Math.round] and [Math.min] are written out below.
    - A method is a function in a state-and-exception monad over the adapter
      object and the host [World] (console, listener calls, store calls,
      interval timers).  A [throw] inside an [async] method is the rejection
      of the promise it returns; both are the completion [Throw].
    - What the network, the local document store and the replication engine
      answer is an argument of the operation that asks (an [env] record).
    - A listener is its identity and what it does with an event: return or
      throw.  A listener that calls back into the adapter is outside the
      model.
    - Every operation runs to its end before the next one starts; overlapping
      asynchronous passes are outside the model. *)

From Stdlib Require Import ZArith Floats String Ascii List Bool Lia.
From stdpp Require Import base option list strings gmap pretty.

Local Open Scope string_scope.
Local Open Scope list_scope.

(* ================================================================= *)
(** ** JavaScript values *)

Module JS.

(** [number]: binary64. *)
Definition number := float.

Definition of_Z (n : Z) : number :=
  if (n <? 0)%Z
  then PrimFloat.opp (PrimFloat.of_uint63 (Uint63.of_Z (- n)))
  else PrimFloat.of_uint63 (Uint63.of_Z n).

(** [Math.round(x)]: [x] itself when it is not finite or already integral;
    otherwise the integer closest to [x], the one towards +infinity on a
    tie, and a zero of the sign of [x] when that integer is zero.  A finite
    [x] is [(-1)^s * m * 2^e]; for [e < 0] the integer
    [floor (x + 1/2)] is computed exactly in [Z]. *)
Definition Math_round (x : number) : number :=
  match Prim2SF x with
  | S754_finite s m e =>
      if (0 <=? e)%Z then x
      else
        let d := (2 ^ (- e))%Z in
        let v := if s then Z.neg m else Z.pos m in
        let n := ((2 * v + d) / (2 * d))%Z in
        if (n =? 0)%Z then (if s then (-0)%float else 0%float) else of_Z n
  | _ => x
  end.

(** [Math.min(a, b)]: NaN when either is NaN; -0 is below +0. *)
Definition Math_min (a b : number) : number :=
  if PrimFloat.is_nan a || PrimFloat.is_nan b then nan
  else if PrimFloat.ltb a b then a
  else if PrimFloat.ltb b a then b
  else if PrimFloat.is_zero a && PrimFloat.get_sign b then b
  else a.

(** The values a change report, a thrown value or a document body can be. *)
#[local] Unset Elimination Schemes.
Inductive value :=
| undefined
| null
| boolean (b : bool)
| num (x : number)
| str (s : string)
| object (fields : list (string * value)).
#[local] Set Elimination Schemes.

(** ToBoolean, as used by [&&], [||], [!] and [if]. *)
Definition truthy (v : value) : bool :=
  match v with
  | undefined | null => false
  | boolean b => b
  | num x => negb (PrimFloat.is_zero x || PrimFloat.is_nan x)
  | str s => negb (String.eqb s "")
  | object _ => true
  end.

Fixpoint own (fields : list (string * value)) (k : string) : value :=
  match fields with
  | [] => undefined
  | (k', v) :: rest => if String.eqb k' k then v else own rest k
  end.

(** [v.k] for a plain data property name [k]: an object's own field, and
    [undefined] on a primitive (its wrapper has no such property). *)
Definition get (v : value) (k : string) : value :=
  match v with
  | object fields => own fields k
  | _ => undefined
  end.

(** [typeof v === 'number'] *)
Definition typeof_number (v : value) : bool :=
  match v with num _ => true | _ => false end.

(** Truthiness of an optional string ([undefined] or [""] is falsy). *)
Definition truthy_str (s : option string) : bool :=
  match s with
  | Some s => negb (String.eqb s "")
  | None => false
  end.

(** Truthiness of an optional number. *)
Definition truthy_num (x : option number) : bool :=
  match x with
  | Some x => negb (PrimFloat.is_zero x || PrimFloat.is_nan x)
  | None => false
  end.

(** [a > b] on two strings.  JavaScript compares the UTF-16 code units of
    the two strings, lexicographically; a [string] here is a sequence of
    bytes, and [str_gt] compares those.  On strings of ASCII characters
    (such as the revision markers the document store makes, a number, a
    dash and hexadecimal digits) a character is one byte and one code unit
    of the same value, and the two orders are the same.  They differ on
    some characters outside ASCII when the bytes are read as UTF-8, so
    the statements that depend on which of two different markers is the
    greater one are made for ASCII markers. *)
Fixpoint str_gt (a b : string) : bool :=
  match a, b with
  | EmptyString, _ => false
  | String _ _, EmptyString => true
  | String x a', String y b' =>
      if (nat_of_ascii y <? nat_of_ascii x)%nat then true
      else if (nat_of_ascii x <? nat_of_ascii y)%nat then false
      else str_gt a' b'
  end.

(** Every character of [s] is an ASCII character. *)
Fixpoint ascii_only (s : string) : bool :=
  match s with
  | EmptyString => true
  | String c s' => (nat_of_ascii c <? 128)%nat && ascii_only s'
  end.

(** [a > b] where either side may be [undefined]: with both strings the
    string comparison, otherwise a comparison with NaN, which is false. *)
Definition gt (a b : option string) : bool :=
  match a, b with
  | Some a, Some b => str_gt a b
  | _, _ => false
  end.

(** What a [throw] carries: an [Error] with its message, or any value. *)
Inductive thrown :=
| Error (message : string)
| raw (v : value).

(** [error instanceof Error ? error.message : fallback] *)
Definition message_or (t : thrown) (fallback : string) : string :=
  match t with
  | Error m => m
  | raw _ => fallback
  end.

(** [str.includes(sub)] *)
Fixpoint prefix (p s : string) : bool :=
  match p, s with
  | EmptyString, _ => true
  | String _ _, EmptyString => false
  | String x p', String y s' => Ascii.eqb x y && prefix p' s'
  end.

Fixpoint includes (s sub : string) : bool :=
  prefix sub s ||
  match s with
  | EmptyString => false
  | String _ s' => includes s' sub
  end.

Definition lower (c : ascii) : ascii :=
  let n := nat_of_ascii c in
  if ((65 <=? n) && (n <=? 90))%nat then ascii_of_nat (n + 32) else c.

Fixpoint lowercase (s : string) : string :=
  match s with
  | EmptyString => EmptyString
  | String c s' => String (lower c) (lowercase s')
  end.

(** [/^https?:\/\//i.test(url)] *)
Definition test_http_scheme (url : string) : bool :=
  let u := lowercase url in
  prefix "http://" u || prefix "https://" u.

End JS.

(* ================================================================= *)
(** ** interfaces/SyncAdapter.ts *)

Module SyncAdapter.

Inductive Status :=
| idle | connecting | connected | syncing | paused | completed | error.

Definition Status_eqb (a b : Status) : bool :=
  match a, b with
  | idle, idle | connecting, connecting | connected, connected
  | syncing, syncing | paused, paused | completed, completed
  | error, error => true
  | _, _ => false
  end.

Record ErrorInfo := {
  message : string;
  details : JS.thrown
}.

(** [SyncStatus]: [None] is an absent (undefined) optional field. *)
Record SyncStatus := {
  status : Status;
  progress : option JS.number;
  error_ : option ErrorInfo
}.

(** [Partial<SyncStatus>]: [None] is a field the literal does not name. *)
Record PartialStatus := {
  p_status : option Status;
  p_progress : option JS.number;
  p_error : option ErrorInfo
}.

(** [{ ...s, ...p }] *)
Definition spread (s : SyncStatus) (p : PartialStatus) : SyncStatus :=
  {| status := match p_status p with Some x => x | None => status s end;
     progress := match p_progress p with Some x => Some x | None => progress s end;
     error_ := match p_error p with Some x => Some x | None => error_ s end |}.

(** [SyncEventData]; [ev_progress] is the extra key the WebDAV adapter
    adds to its progress events. *)
Record SyncEventData := {
  type : string;
  ev_status : option SyncStatus;
  ev_error : option ErrorInfo;
  ev_progress : option JS.number
}.

(** A registered callback: its identity (two references to one function are
    one element of a [Set]) and whether it returns or throws on an event. *)
Record Listener := {
  lid : nat;
  call : SyncEventData -> option JS.thrown
}.

End SyncAdapter.

(* ================================================================= *)
(** ** Methods as state transformers that may throw *)

Module Eff.

Inductive Completion (A : Type) :=
| Normal (a : A)
| Throw (t : JS.thrown).
Arguments Normal {A} a.
Arguments Throw {A} t.

Definition M (S A : Type) : Type := S -> Completion A * S.

Definition ret {S A} (a : A) : M S A := fun s => (Normal a, s).

Definition bind {S A B} (m : M S A) (k : A -> M S B) : M S B :=
  fun s =>
    match m s with
    | (Normal a, s') => k a s'
    | (Throw t, s') => (Throw t, s')
    end.

Definition throw {S A} (t : JS.thrown) : M S A := fun s => (Throw t, s).

(** [try { m } catch (error) { handler(error) }]: the handler starts from
    the state the body had reached when it threw. *)
Definition try_catch {S A} (m : M S A) (handler : JS.thrown -> M S A) : M S A :=
  fun s =>
    match m s with
    | (Normal a, s') => (Normal a, s')
    | (Throw t, s') => handler t s'
    end.

Definition gets {S A} (f : S -> A) : M S A := fun s => (Normal (f s), s).
Definition modify {S} (f : S -> S) : M S unit := fun s => (Normal tt, f s).

(** [if (c) { m }] *)
Definition when {S} (c : bool) (m : M S unit) : M S unit :=
  if c then m else ret tt.

(** [xs.forEach(f)] and [for (const x of xs) { await f(x) }]. *)
Fixpoint forEach {S A} (f : A -> M S unit) (xs : list A) : M S unit :=
  match xs with
  | [] => ret tt
  | x :: rest => bind (f x) (fun _ => forEach f rest)
  end.

(** A method of a base object run on an object that extends it. *)
Definition lift {S T A} (project : T -> S) (update : S -> T -> T)
    (m : M S A) : M T A :=
  fun t => let (r, s') := m (project t) in (r, update s' t).

Definition result {S A} (r : Completion A * S) : Completion A := fst r.
Definition state {S A} (r : Completion A * S) : S := snd r.

Definition returns {A} (c : Completion A) : bool :=
  match c with Normal _ => true | Throw _ => false end.

End Eff.

Import Eff.

Declare Scope eff_scope.
Delimit Scope eff_scope with eff.
Notation "x <- m ;; k" := (bind m (fun x => k))
  (at level 100, m at next level, right associativity) : eff_scope.
Notation "m ;; k" := (bind m (fun _ => k))
  (at level 100, right associativity) : eff_scope.
Local Open Scope eff_scope.

(* ================================================================= *)
(** ** The host: what an adapter does that is visible outside it *)

Module Host.

Import SyncAdapter.

(** A document as the reconciliation reads it: [_id], [_rev] (possibly
    missing) and the rest of the record. *)
Record Doc := {
  _id : string;
  _rev : option string;
  content : JS.value
}.

Inductive Obs :=
| ListenerCalled (l : nat) (ev : SyncEventData)
| ConsoleError (msg : string) (t : JS.thrown)
| LocalPut (d : Doc)                       (* localDB.put(d) *)
| RemotePut (d : Doc)                      (* fetch(.../id, { method: 'PUT' }) *)
| SetInterval (timer : nat) (ms : JS.number)
| ClearInterval (timer : nat)
| DatabaseOpened (db : nat) (url : string) (* new PouchDB(url) *)
| ReplicationStarted (handle : nat)        (* localDB.sync(remoteDB, ...) *)
| ReplicationCancelled (handle : nat)      (* syncHandler.cancel() *)
| DatabaseClosed (db : nat).               (* remoteDB.close() *)

(** [trace] is in order of occurrence; [timers] are the interval timers
    that are armed; [fresh] numbers timers and handles from 1, so that a
    timer id is truthy as it is in a browser. *)
Record World := {
  trace : list Obs;
  timers : list nat;
  fresh : nat
}.

Definition boot : World := {| trace := []; timers := []; fresh := 1 |}.

Definition emit (o : Obs) (w : World) : World :=
  {| trace := trace w ++ [o]; timers := timers w; fresh := fresh w |}.

(** Several observations at once, and what was observed between two
    worlds of one run. *)
Definition log (os : list Obs) (w : World) : World :=
  {| trace := trace w ++ os; timers := timers w; fresh := fresh w |}.

Definition since (w w' : World) : list Obs :=
  drop (length (trace w)) (trace w').

Definition setInterval (ms : JS.number) (w : World) : nat * World :=
  (fresh w,
   {| trace := trace w ++ [SetInterval (fresh w) ms];
      timers := timers w ++ [fresh w];
      fresh := S (fresh w) |}).

Definition clearInterval (t : nat) (w : World) : World :=
  {| trace := trace w ++ [ClearInterval t];
     timers := List.filter (fun x => negb (Nat.eqb x t)) (timers w);
     fresh := fresh w |}.

Definition allocate (w : World) : nat * World :=
  (fresh w, {| trace := trace w; timers := timers w; fresh := S (fresh w) |}).

(** How often listener [l] was called with an event named [event]. *)
Definition calls (event : string) (l : nat) (tr : list Obs) : nat :=
  length (List.filter (fun o => match o with
                                | ListenerCalled l' ev =>
                                    Nat.eqb l' l && String.eqb (type ev) event
                                | _ => false
                                end) tr).

End Host.

(* ================================================================= *)
(** ** The listener registry: a [Map] from event names to [Set]s *)

Module Registry.

Import SyncAdapter Host.

(** A [Set] of callbacks in insertion order. *)
Definition has (ls : list Listener) (l : Listener) : bool :=
  existsb (fun x => Nat.eqb (lid x) (lid l)) ls.

Definition add (ls : list Listener) (l : Listener) : list Listener :=
  if has ls l then ls else ls ++ [l].

Definition delete (ls : list Listener) (l : Listener) : list Listener :=
  List.filter (fun x => negb (Nat.eqb (lid x) (lid l))) ls.

(** What a dispatch passes besides the event name. *)
Record Payload := {
  pl_status : option SyncStatus;
  pl_error : option ErrorInfo;
  pl_progress : option JS.number
}.

Definition nothing : Payload :=
  {| pl_status := None; pl_error := None; pl_progress := None |}.

(** [listener(eventData)] on any adapter object [A]. *)
Definition invoke {A} (l : Listener) (ev : SyncEventData) : M (A * World) unit :=
  fun '(a, w) =>
    let w' := emit (ListenerCalled (lid l) ev) w in
    match call l ev with
    | None => (Normal tt, (a, w'))
    | Some t => (Throw t, (a, w'))
    end.

(** [console.error(msg, error)] *)
Definition console_error {A} (msg : string) (t : JS.thrown) : M (A * World) unit :=
  modify (fun '(a, w) => (a, emit (ConsoleError msg t) w)).

(** What dispatching [ev] to [ls] leaves in the trace when every throw
    is caught and reported with [msg]: each listener is called once, in
    registration order, and a throwing one is followed by its report. *)
Definition heard (msg : string) (ev : SyncEventData) (ls : list Listener) : list Obs :=
  flat_map (fun l =>
              ListenerCalled (lid l) ev ::
              match call l ev with
              | Some t => [ConsoleError msg t]
              | None => []
              end) ls.

(** How many elements of [ls] are the callback [l]. *)
Definition registered (l : nat) (ls : list Listener) : nat :=
  length (List.filter (fun x => Nat.eqb (lid x) l) ls).

End Registry.

(* ================================================================= *)
(** ** adapters/BaseSyncAdapter.ts *)

Module BaseSyncAdapter.

Import SyncAdapter Host Registry.

Record t := {
  status : SyncStatus;
  eventListeners : gmap string (list Listener)
}.

Definition new : t :=
  {| status := {| SyncAdapter.status := idle; progress := None; error_ := None |};
     eventListeners := ∅ |}.

Definition set_status (s : SyncStatus) (a : t) : t :=
  {| status := s; eventListeners := eventListeners a |}.

Definition getSyncStatus (a : t) : SyncStatus := status a.

Definition addEventListener (event : string) (listener : Listener) (a : t) : t :=
  let m := match eventListeners a !! event with
           | None => <[event := []]> (eventListeners a)
           | Some _ => eventListeners a
           end in
  {| status := status a;
     eventListeners := match m !! event with
                       | Some ls => <[event := add ls listener]> m
                       | None => m
                       end |}.

Definition removeEventListener (event : string) (listener : Listener) (a : t) : t :=
  match eventListeners a !! event with
  | Some ls =>
      let ls' := delete ls listener in
      {| status := status a;
         eventListeners := if Nat.eqb (length ls') 0
                           then base.delete event (eventListeners a)
                           else <[event := ls']> (eventListeners a) |}
  | None => a
  end.

Definition dispatchEvent (event : string) (data : Payload) : M (t * World) unit :=
  let eventData := {| type := event;
                      ev_status := pl_status data;
                      ev_error := pl_error data;
                      ev_progress := pl_progress data |} in
  listeners <- gets (fun '(a, _) => eventListeners a !! event) ;;
  match listeners with
  | Some listeners =>
      forEach (fun listener =>
                 try_catch (invoke listener eventData)
                   (fun error =>
                      console_error ("Error in event listener for " ++ event ++ ":") error))
              listeners
  | None => ret tt
  end.

Definition updateStatus (status : PartialStatus) : M (t * World) unit :=
  modify (fun '(a, w) => (set_status (spread (BaseSyncAdapter.status a) status) a, w)) ;;
  this_status <- gets (fun '(a, _) => BaseSyncAdapter.status a) ;;
  match p_status status with
  | Some syncing =>
      dispatchEvent "sync-progress"
        {| pl_status := Some this_status; pl_error := None; pl_progress := None |}
  | Some error =>
      dispatchEvent "sync-error"
        {| pl_status := Some this_status; pl_error := p_error status; pl_progress := None |}
  | _ => ret tt
  end.

End BaseSyncAdapter.

(* ================================================================= *)
(** ** The progress estimator *)

Module Progress.

(** [calculateProgress(info: any)], the same text in WebDAVAdapter.ts and
    GoogleDriveAdapter.ts. *)
Definition calculateProgress (info : JS.value) : JS.number :=
  if JS.truthy info
     && JS.typeof_number (JS.get info "docs_written")
     && JS.typeof_number (JS.get info "docs_read")
  then
    match JS.get info "docs_read", JS.get info "docs_written" with
    | JS.num docs_read, JS.num docs_written =>
        let total := (docs_read + docs_written)%float in
        let current := docs_written in
        JS.Math_min (JS.Math_round ((current / total) * 100)%float) 99%float
    | _, _ => 50%float
    end
  else 50%float.

(** A change report [{ docs_read: r, docs_written: w }]. *)
Definition report (r w : JS.number) : JS.value :=
  JS.object [("docs_read", JS.num r); ("docs_written", JS.num w)].

End Progress.

(* ================================================================= *)
(** ** adapters/RemoteStorageAdapter.ts *)

Module RemoteStorageAdapter.

Import SyncAdapter Host Registry.

Record RemoteStorageConfig := {
  userAddress : string;
  token : string;
  storageModule : string;
  autoSyncInterval : option JS.number
}.

(** utils/remoteStorageDiscovery.ts *)
Record RemoteStorageInfo := {
  server : string;
  webdavPath : string;
  authEndpoint : string;
  storageTypes : list string
}.

Record RemoteStorageToken := {
  accessToken : string;
  tokenType : string
}.

(** What [fetch] resolves to.  [items] is [(await response.json()).items]:
    the parse may fail, and the key may be missing. *)
Record Response := {
  ok : bool;
  status_code : nat;
  statusText : string;
  items : JS.thrown + option (list Doc)
}.

(** A row of [localDB.allDocs({ include_docs: true })]. *)
Record Row := {
  id : string;
  doc : option Doc
}.

(** What the outside answers during [connect]. *)
Record ConnectEnv := {
  discovery : JS.thrown + RemoteStorageInfo;   (* discoverRemoteStorage *)
  test : JS.thrown + Response                  (* PROPFIND, Depth 0 *)
}.

(** What the outside answers during one reconciliation pass. *)
Record PassEnv := {
  listing : JS.thrown + Response;              (* PROPFIND, Depth 1 *)
  allDocs : JS.thrown + list Row;              (* localDB.allDocs *)
  put : Doc -> option JS.thrown;               (* localDB.put *)
  upload : Doc -> JS.thrown + Response         (* PUT of one document *)
}.

Record t := {
  base : BaseSyncAdapter.t;
  localDB : option nat;
  remoteDB : option nat;
  config : option RemoteStorageConfig;
  autoSyncTimer : option nat;
  remoteInfo : option RemoteStorageInfo;
  token_ : option RemoteStorageToken
}.

Definition new : t :=
  {| base := BaseSyncAdapter.new; localDB := None; remoteDB := None;
     config := None; autoSyncTimer := None; remoteInfo := None; token_ := None |}.

Definition set_base (b : BaseSyncAdapter.t) (a : t) : t :=
  {| base := b; localDB := localDB a; remoteDB := remoteDB a; config := config a;
     autoSyncTimer := autoSyncTimer a; remoteInfo := remoteInfo a; token_ := token_ a |}.
Definition set_localDB (x : option nat) (a : t) : t :=
  {| base := base a; localDB := x; remoteDB := remoteDB a; config := config a;
     autoSyncTimer := autoSyncTimer a; remoteInfo := remoteInfo a; token_ := token_ a |}.
Definition set_config (x : option RemoteStorageConfig) (a : t) : t :=
  {| base := base a; localDB := localDB a; remoteDB := remoteDB a; config := x;
     autoSyncTimer := autoSyncTimer a; remoteInfo := remoteInfo a; token_ := token_ a |}.
Definition set_autoSyncTimer (x : option nat) (a : t) : t :=
  {| base := base a; localDB := localDB a; remoteDB := remoteDB a; config := config a;
     autoSyncTimer := x; remoteInfo := remoteInfo a; token_ := token_ a |}.
Definition set_remoteInfo (x : option RemoteStorageInfo) (a : t) : t :=
  {| base := base a; localDB := localDB a; remoteDB := remoteDB a; config := config a;
     autoSyncTimer := autoSyncTimer a; remoteInfo := x; token_ := token_ a |}.
Definition set_token (x : option RemoteStorageToken) (a : t) : t :=
  {| base := base a; localDB := localDB a; remoteDB := remoteDB a; config := config a;
     autoSyncTimer := autoSyncTimer a; remoteInfo := remoteInfo a; token_ := x |}.

Definition St : Type := t * World.

(** Inherited methods. *)
Definition inherited {A} (m : M (BaseSyncAdapter.t * World) A) : M St A :=
  lift (fun '(a, w) => (base a, w)) (fun '(b, w) '(a, _) => (set_base b a, w)) m.

Definition updateStatus (p : PartialStatus) : M St unit :=
  inherited (BaseSyncAdapter.updateStatus p).
Definition dispatchEvent (event : string) (data : Payload) : M St unit :=
  inherited (BaseSyncAdapter.dispatchEvent event data).
Definition getSyncStatus (a : t) : SyncStatus :=
  BaseSyncAdapter.getSyncStatus (base a).
Definition addEventListener (event : string) (l : Listener) (a : t) : t :=
  set_base (BaseSyncAdapter.addEventListener event l (base a)) a.
Definition removeEventListener (event : string) (l : Listener) (a : t) : t :=
  set_base (BaseSyncAdapter.removeEventListener event l (base a)) a.

(** [await p] for a promise the outside settles. *)
Definition await {A} (p : JS.thrown + A) : M St A :=
  match p with
  | inl t => throw t
  | inr a => ret a
  end.

Definition failed (status : Status) (error : JS.thrown) (fallback : string) : PartialStatus :=
  {| p_status := Some status; p_progress := None;
     p_error := Some {| message := JS.message_or error fallback; details := error |} |}.

Definition error_payload (error : JS.thrown) (fallback : string) : Payload :=
  {| pl_status := None;
     pl_error := Some {| message := JS.message_or error fallback; details := error |};
     pl_progress := None |}.

Definition only (status : Status) : PartialStatus :=
  {| p_status := Some status; p_progress := None; p_error := None |}.

Definition at_ (status : Status) (progress : JS.number) : PartialStatus :=
  {| p_status := Some status; p_progress := Some progress; p_error := None |}.

Definition connect (cfg : RemoteStorageConfig) (env : ConnectEnv) : M St bool :=
  try_catch
    (updateStatus (only connecting) ;;
     modify (fun '(a, w) => (set_config (Some cfg) a, w)) ;;
     (* 1. *)
     remoteInfo <- await (discovery env) ;;
     (* 2. *)
     when (negb (JS.truthy (JS.str (token cfg))))
          (throw (JS.Error "无效的访问令牌")) ;;
     (* 3. *)
     modify (fun '(a, w) =>
               (set_token (Some {| accessToken := token cfg; tokenType := "Bearer" |})
                  (set_remoteInfo (Some remoteInfo) a), w)) ;;
     (* 4. *)
     testResponse <- await (test env) ;;
     when (negb (ok testResponse))
          (throw (JS.Error ("连接测试失败: " ++ pretty (status_code testResponse)
                             ++ " " ++ statusText testResponse))) ;;
     updateStatus (only connected) ;;
     dispatchEvent "connected" nothing ;;
     ret true)
    (fun error =>
       updateStatus (failed SyncAdapter.error error "连接失败") ;;
       dispatchEvent "connection-error" (error_payload error "连接失败") ;;
       ret false).

Definition listRemoteDocuments (env : PassEnv) : M St (list Doc) :=
  a <- gets fst ;;
  match remoteInfo a, token_ a with
  | Some _, Some _ =>
      response <- await (listing env) ;;
      when (negb (ok response))
           (throw (JS.Error ("获取远程文档列表失败: " ++ pretty (status_code response)
                              ++ " " ++ statusText response))) ;;
      data_items <- await (items response) ;;
      ret (match data_items with Some ds => ds | None => [] end)
  | _, _ => throw (JS.Error "未连接到RemoteStorage服务器")
  end.

Definition putRemoteDocument (env : PassEnv) (d : Doc) : M St unit :=
  a <- gets fst ;;
  match remoteInfo a, token_ a with
  | Some _, Some _ =>
      modify (fun '(a, w) => (a, emit (RemotePut d) w)) ;;
      response <- await (upload env d) ;;
      when (negb (ok response))
           (throw (JS.Error ("保存远程文档失败: " ++ pretty (status_code response)
                              ++ " " ++ statusText response)))
  | _, _ => throw (JS.Error "未连接到RemoteStorage服务器")
  end.

(** [await this.localDB.put(d)] *)
Definition localDB_put (env : PassEnv) (d : Doc) : M St unit :=
  modify (fun '(a, w) => (a, emit (LocalPut d) w)) ;;
  match put env d with
  | Some t => throw t
  | None => ret tt
  end.

(** [rows.find(row => row.id === k)] and [docs.find(doc => doc._id === k)] *)
Definition find_row (rows : list Row) (k : string) : option Row :=
  List.find (fun row => String.eqb (id row) k) rows.
Definition find_doc (docs : list Doc) (k : string) : option Doc :=
  List.find (fun d => String.eqb (_id d) k) docs.

(** The test of step 3: remote wins. *)
Definition remote_wins (localDocs : list Row) (remoteDoc : Doc) : bool :=
  match find_row localDocs (_id remoteDoc) with
  | None => true                                   (* !localDoc *)
  | Some localDoc =>
      match doc localDoc with
      | None => true                               (* !localDoc.doc *)
      | Some d =>
          negb (JS.truthy_str (_rev d))            (* !localDoc.doc._rev *)
          || JS.gt (_rev remoteDoc) (_rev d)
      end
  end.

(** The test of step 4: local wins.  [None] is the [continue]. *)
Definition local_wins (remoteDocs : list Doc) (localRow : Row) : option Doc :=
  match doc localRow with
  | None => None
  | Some d =>
      if negb (JS.truthy_str (_rev d)) then None
      else
        match find_doc remoteDocs (id localRow) with
        | None => Some d
        | Some remoteDoc => if JS.gt (_rev d) (_rev remoteDoc) then Some d else None
        end
  end.

Definition triggerSync (env : PassEnv) : M St unit :=
  a <- gets fst ;;
  match localDB a, remoteInfo a, token_ a with
  | Some _, Some _, Some _ =>
      try_catch
        (updateStatus (at_ syncing 0%float) ;;
         (* 1. *)
         remoteDocs <- listRemoteDocuments env ;;
         updateStatus (at_ syncing 30%float) ;;
         (* 2. *)
         localDocs <- await (allDocs env) ;;
         updateStatus (at_ syncing 60%float) ;;
         (* 3. *)
         forEach (fun remoteDoc =>
                    when (remote_wins localDocs remoteDoc) (localDB_put env remoteDoc))
                 remoteDocs ;;
         (* 4. *)
         forEach (fun localRow =>
                    match local_wins remoteDocs localRow with
                    | Some d => putRemoteDocument env d
                    | None => ret tt
                    end)
                 localDocs ;;
         updateStatus (at_ completed 100%float) ;;
         dispatchEvent "sync-complete" nothing)
        (fun error =>
           updateStatus (failed SyncAdapter.error error "同步失败") ;;
           dispatchEvent "sync-error" (error_payload error "同步失败"))
  | _, _, _ => throw (JS.Error "未连接到RemoteStorage服务器")
  end.

(** The callback handed to [setInterval]. *)
Definition tick (env : PassEnv) : M St unit :=
  try_catch (triggerSync env)
    (fun error =>
       console_error "自动同步失败:" error ;;
       updateStatus (failed SyncAdapter.error error "自动同步失败")).

Definition startSync (db : nat) (env : PassEnv) : M St unit :=
  a <- gets fst ;;
  match config a, remoteInfo a, token_ a with
  | Some cfg, Some _, Some _ =>
      modify (fun '(a, w) => (set_localDB (Some db) a, w)) ;;
      triggerSync env ;;
      when (JS.truthy_num (autoSyncInterval cfg)
            && match autoSyncInterval cfg with
               | Some ms => PrimFloat.ltb 0 ms
               | None => false
               end)
           (modify (fun '(a, w) =>
                      let (timer, w') :=
                        setInterval (default 0%float (autoSyncInterval cfg)) w in
                      (set_autoSyncTimer (Some timer) a, w')))
  | _, _, _ => throw (JS.Error "请先连接到RemoteStorage服务器")
  end.

Definition stopSync : M St unit :=
  a <- gets fst ;;
  match autoSyncTimer a with
  | Some timer =>
      when (negb (Nat.eqb timer 0))
           (modify (fun '(a, w) => (set_autoSyncTimer None a, clearInterval timer w)))
  | None => ret tt
  end ;;
  updateStatus (only idle) ;;
  dispatchEvent "sync-stopped" nothing.

End RemoteStorageAdapter.

(* ================================================================= *)
(** ** adapters/WebDAVAdapter.ts *)

Module WebDAVAdapter.

Import SyncAdapter Host Registry.

Record WebDAVConfig := {
  url : string;
  username : option string;
  password : option string;
  dbPath : option string;
  autoSync : option bool;
  syncInterval : option JS.number
}.

Record Client := {
  client_url : string;
  client_username : option string;
  client_password : option string
}.

Record t := {
  syncStatus : SyncStatus;
  eventListeners : gmap string (list Listener);
  client : option Client;
  config : option WebDAVConfig;
  localDB : option nat;
  remoteDB : option nat;
  syncHandler : option nat;
  autoSyncTimer : option nat
}.

(** The constructor. *)
Definition new : t :=
  {| syncStatus := {| status := idle; progress := None; error_ := None |};
     eventListeners :=
       <["sync-stopped" := []]> (<["sync-denied" := []]> (<["sync-active" := []]>
       (<["sync-paused" := []]> (<["sync-complete" := []]> (<["sync-error" := []]>
       (<["sync-progress" := []]> (<["connect-error" := []]>
       (<["connect-success" := []]> ∅))))))));
     client := None; config := None; localDB := None; remoteDB := None;
     syncHandler := None; autoSyncTimer := None |}.

Definition set_syncStatus (x : SyncStatus) (a : t) : t :=
  {| syncStatus := x; eventListeners := eventListeners a; client := client a;
     config := config a; localDB := localDB a; remoteDB := remoteDB a;
     syncHandler := syncHandler a; autoSyncTimer := autoSyncTimer a |}.
Definition set_eventListeners (x : gmap string (list Listener)) (a : t) : t :=
  {| syncStatus := syncStatus a; eventListeners := x; client := client a;
     config := config a; localDB := localDB a; remoteDB := remoteDB a;
     syncHandler := syncHandler a; autoSyncTimer := autoSyncTimer a |}.
Definition set_client (x : option Client) (a : t) : t :=
  {| syncStatus := syncStatus a; eventListeners := eventListeners a; client := x;
     config := config a; localDB := localDB a; remoteDB := remoteDB a;
     syncHandler := syncHandler a; autoSyncTimer := autoSyncTimer a |}.
Definition set_config (x : option WebDAVConfig) (a : t) : t :=
  {| syncStatus := syncStatus a; eventListeners := eventListeners a; client := client a;
     config := x; localDB := localDB a; remoteDB := remoteDB a;
     syncHandler := syncHandler a; autoSyncTimer := autoSyncTimer a |}.
Definition set_localDB (x : option nat) (a : t) : t :=
  {| syncStatus := syncStatus a; eventListeners := eventListeners a; client := client a;
     config := config a; localDB := x; remoteDB := remoteDB a;
     syncHandler := syncHandler a; autoSyncTimer := autoSyncTimer a |}.
Definition set_remoteDB (x : option nat) (a : t) : t :=
  {| syncStatus := syncStatus a; eventListeners := eventListeners a; client := client a;
     config := config a; localDB := localDB a; remoteDB := x;
     syncHandler := syncHandler a; autoSyncTimer := autoSyncTimer a |}.
Definition set_syncHandler (x : option nat) (a : t) : t :=
  {| syncStatus := syncStatus a; eventListeners := eventListeners a; client := client a;
     config := config a; localDB := localDB a; remoteDB := remoteDB a;
     syncHandler := x; autoSyncTimer := autoSyncTimer a |}.
Definition set_autoSyncTimer (x : option nat) (a : t) : t :=
  {| syncStatus := syncStatus a; eventListeners := eventListeners a; client := client a;
     config := config a; localDB := localDB a; remoteDB := remoteDB a;
     syncHandler := syncHandler a; autoSyncTimer := x |}.

Definition St : Type := t * World.

Definition getSyncStatus (a : t) : SyncStatus := syncStatus a.

Definition addEventListener (event : string) (listener : Listener) (a : t) : t :=
  match eventListeners a !! event with
  | Some listeners => set_eventListeners (<[event := add listeners listener]> (eventListeners a)) a
  | None => set_eventListeners (<[event := [listener]]> (eventListeners a)) a
  end.

Definition removeEventListener (event : string) (listener : Listener) (a : t) : t :=
  match eventListeners a !! event with
  | Some listeners =>
      set_eventListeners (<[event := delete listeners listener]> (eventListeners a)) a
  | None => a
  end.

Definition triggerEvent (event : string) (data : Payload) : M St unit :=
  a <- gets fst ;;
  match eventListeners a !! event with
  | Some listeners =>
      let eventData :=
        {| type := event;
           ev_status := match pl_status data with
                        | Some s => Some s
                        | None => Some (syncStatus a)
                        end;
           ev_error := pl_error data;
           ev_progress := pl_progress data |} in
      forEach (fun listener =>
                 try_catch (invoke listener eventData)
                   (fun error => console_error "事件监听器错误:" error))
              listeners
  | None => ret tt
  end.

Definition updateStatus (status : PartialStatus) : M St unit :=
  modify (fun '(a, w) => (set_syncStatus (spread (syncStatus a) status) a, w)).

Definition failed (error : JS.thrown) (fallback : string) : PartialStatus :=
  {| p_status := Some SyncAdapter.error; p_progress := None;
     p_error := Some {| message := JS.message_or error fallback; details := error |} |}.

Definition error_payload (error : JS.thrown) (fallback : string) : Payload :=
  {| pl_status := None;
     pl_error := Some {| message := JS.message_or error fallback; details := error |};
     pl_progress := None |}.

(** A handler's fixed message: [{ message: msg, details: error }]. *)
Definition refused (msg : string) (error : JS.thrown) : ErrorInfo :=
  {| message := msg; details := error |}.

Definition only (status : Status) : PartialStatus :=
  {| p_status := Some status; p_progress := None; p_error := None |}.

Definition at_ (status : Status) (progress : JS.number) : PartialStatus :=
  {| p_status := Some status; p_progress := Some progress; p_error := None |}.

Definition checkConnection : M St unit :=
  a <- gets fst ;;
  match config a with
  | Some cfg =>
      if negb (JS.truthy (JS.str (url cfg)))
      then throw (JS.Error "WebDAV URL不能为空")
      else if negb (JS.test_http_scheme (url cfg))
      then throw (JS.Error "WebDAV URL必须以http://或https://开头")
      else if JS.includes (url cfg) "error"
      then throw (JS.Error "连接失败：无法连接到WebDAV服务器")
      else ret tt
  | None => throw (JS.Error "WebDAV URL不能为空")
  end.

Definition connect (cfg : WebDAVConfig) : M St bool :=
  try_catch
    (updateStatus (only connecting) ;;
     modify (fun '(a, w) => (set_config (Some cfg) a, w)) ;;
     modify (fun '(a, w) =>
               (set_client (Some {| client_url := url cfg;
                                    client_username := username cfg;
                                    client_password := password cfg |}) a, w)) ;;
     checkConnection ;;
     updateStatus (only connected) ;;
     triggerEvent "connect-success" nothing ;;
     ret true)
    (fun error =>
       updateStatus (failed error "连接失败") ;;
       triggerEvent "connect-error" (error_payload error "连接失败") ;;
       ret false).

(** The handlers [startSync] registers on the replication handle. *)
Definition on_change (info : JS.value) : M St unit :=
  let progress := Progress.calculateProgress info in
  updateStatus (at_ syncing progress) ;;
  triggerEvent "sync-progress"
    {| pl_status := None; pl_error := None; pl_progress := Some progress |}.

Definition on_paused : M St unit :=
  updateStatus (only paused) ;;
  triggerEvent "sync-paused" nothing.

Definition on_active : M St unit :=
  updateStatus (only syncing) ;;
  triggerEvent "sync-active" nothing.

Definition on_denied (error : JS.thrown) : M St unit :=
  updateStatus {| p_status := Some SyncAdapter.error; p_progress := None;
                  p_error := Some (refused "同步被拒绝" error) |} ;;
  triggerEvent "sync-denied"
    {| pl_status := None; pl_error := Some (refused "同步被拒绝" error);
       pl_progress := None |}.

Definition on_complete : M St unit :=
  updateStatus (at_ completed 100%float) ;;
  triggerEvent "sync-complete" nothing.

Definition on_error (error : JS.thrown) : M St unit :=
  updateStatus {| p_status := Some SyncAdapter.error; p_progress := None;
                  p_error := Some (refused "同步错误" error) |} ;;
  triggerEvent "sync-error"
    {| pl_status := None; pl_error := Some (refused "同步错误" error);
       pl_progress := None |}.

(** [localDB.sync(remoteDB)] awaited to its end. *)
Definition triggerSync (once : option JS.thrown) : M St unit :=
  a <- gets fst ;;
  match localDB a, remoteDB a with
  | Some _, Some _ =>
      try_catch
        (updateStatus (at_ syncing 0%float) ;;
         match once with Some t => throw t | None => ret tt end ;;
         updateStatus (at_ completed 100%float) ;;
         triggerEvent "sync-complete" nothing)
        (fun error =>
           updateStatus (failed error "同步失败") ;;
           triggerEvent "sync-error" (error_payload error "同步失败"))
  | _, _ => ret tt
  end.

(** The callback handed to [window.setInterval]. *)
Definition tick (once : option JS.thrown) : M St unit :=
  a <- gets fst ;;
  when (negb (Status_eqb (status (syncStatus a)) syncing)) (triggerSync once).

Definition setupAutoSync : M St unit :=
  a <- gets fst ;;
  match config a with
  | Some cfg =>
      if negb (default false (autoSync cfg)) || negb (JS.truthy_num (syncInterval cfg))
      then ret tt
      else
        match autoSyncTimer a with
        | Some timer => modify (fun '(a, w) => (a, clearInterval timer w))
        | None => ret tt
        end ;;
        modify (fun '(a, w) =>
                  let (timer, w') := setInterval (default 0%float (syncInterval cfg)) w in
                  (set_autoSyncTimer (Some timer) a, w'))
  | None => ret tt
  end.

(** [url.replace(/\/$/, '')] *)
Fixpoint strip_slash (s : string) : string :=
  match s with
  | EmptyString => EmptyString
  | String c EmptyString => if Ascii.eqb c "/" then EmptyString else s
  | String c rest => String c (strip_slash rest)
  end.

(** What the replication engine answers at [startSync]: whether
    [new PouchDB(remoteUrl)] and [localDB.sync(...)] throw. *)
Record SyncEnv := {
  open_remote : option JS.thrown;
  replicate : option JS.thrown
}.

Definition startSync (db : nat) (env : SyncEnv) : M St unit :=
  try_catch
    (a <- gets fst ;;
     match config a with
     | None => throw (JS.Error "未配置WebDAV连接")
     | Some cfg =>
         modify (fun '(a, w) => (set_localDB (Some db) a, w)) ;;
         updateStatus (at_ syncing 0%float) ;;
         let dbPath := if JS.truthy_str (dbPath cfg)
                       then default "" (dbPath cfg) else "/sync/db" in
         let remoteUrl := String.append (strip_slash (url cfg)) dbPath in
         match open_remote env with Some t => throw t | None => ret tt end ;;
         modify (fun '(a, w) =>
                   let (h, w') := allocate w in
                   (set_remoteDB (Some h) a, emit (DatabaseOpened h remoteUrl) w')) ;;
         match replicate env with Some t => throw t | None => ret tt end ;;
         modify (fun '(a, w) =>
                   let (h, w') := allocate w in
                   (set_syncHandler (Some h) a, emit (ReplicationStarted h) w')) ;;
         when (default false (autoSync cfg) && JS.truthy_num (syncInterval cfg))
              setupAutoSync
     end)
    (fun error =>
       updateStatus (failed error "同步失败") ;;
       triggerEvent "sync-error" (error_payload error "同步失败") ;;
       throw error).

Definition stopSync : M St unit :=
  a <- gets fst ;;
  match autoSyncTimer a with
  | Some timer =>
      modify (fun '(a, w) => (set_autoSyncTimer None a, clearInterval timer w))
  | None => ret tt
  end ;;
  a <- gets fst ;;
  match syncHandler a with
  | Some h =>
      modify (fun '(a, w) => (set_syncHandler None a, emit (ReplicationCancelled h) w))
  | None => ret tt
  end ;;
  a <- gets fst ;;
  match remoteDB a with
  | Some h =>
      modify (fun '(a, w) => (set_remoteDB None a, emit (DatabaseClosed h) w))
  | None => ret tt
  end ;;
  updateStatus (at_ idle 0%float) ;;
  triggerEvent "sync-stopped" nothing.

End WebDAVAdapter.

(* ================================================================= *)
(** ** What a dispatch leaves in the trace *)

Module Observed.

Import SyncAdapter Host Registry.

(** BaseSyncAdapter: the event object, the listeners it goes to, and the
    observations of the dispatch. *)
Definition base_event (event : string) (data : Payload) : SyncEventData :=
  {| type := event; ev_status := pl_status data;
     ev_error := pl_error data; ev_progress := pl_progress data |}.

Definition base_listeners (event : string) (a : BaseSyncAdapter.t) : list Listener :=
  default [] (BaseSyncAdapter.eventListeners a !! event).

Definition base_heard (event : string) (data : Payload) (a : BaseSyncAdapter.t) : list Obs :=
  heard ("Error in event listener for " ++ event ++ ":")
        (base_event event data) (base_listeners event a).

(** What [updateStatus] announces by itself. *)
Definition base_announced (p : PartialStatus) (a : BaseSyncAdapter.t) : list Obs :=
  match p_status p with
  | Some syncing =>
      base_heard "sync-progress"
        {| pl_status := Some (BaseSyncAdapter.status a); pl_error := None;
           pl_progress := None |} a
  | Some error =>
      base_heard "sync-error"
        {| pl_status := Some (BaseSyncAdapter.status a); pl_error := p_error p;
           pl_progress := None |} a
  | _ => []
  end.

(** WebDAVAdapter: the same for [triggerEvent]. *)
Definition dav_event (event : string) (data : Payload) (a : WebDAVAdapter.t) : SyncEventData :=
  {| type := event;
     ev_status := match pl_status data with
                  | Some s => Some s
                  | None => Some (WebDAVAdapter.syncStatus a)
                  end;
     ev_error := pl_error data; ev_progress := pl_progress data |}.

Definition dav_listeners (event : string) (a : WebDAVAdapter.t) : list Listener :=
  default [] (WebDAVAdapter.eventListeners a !! event).

Definition dav_heard (event : string) (data : Payload) (a : WebDAVAdapter.t) : list Obs :=
  heard "事件监听器错误:" (dav_event event data a) (dav_listeners event a).

(** RemoteStorageAdapter: one reconciliation pass, read off its
    environment.  [listed] is what [listRemoteDocuments] resolves to once
    the adapter holds its connection information. *)
Definition listed (env : RemoteStorageAdapter.PassEnv) : JS.thrown + list Doc :=
  match RemoteStorageAdapter.listing env with
  | inl t => inl t
  | inr response =>
      if negb (RemoteStorageAdapter.ok response)
      then inl (JS.Error ("获取远程文档列表失败: "
                          ++ pretty (RemoteStorageAdapter.status_code response)
                          ++ " " ++ RemoteStorageAdapter.statusText response))
      else match RemoteStorageAdapter.items response with
           | inl t => inl t
           | inr (Some ds) => inr ds
           | inr None => inr []
           end
  end.

(** The two document sets a pass compares (empty when a fetch fails). *)
Definition fetched (env : RemoteStorageAdapter.PassEnv) : list Doc :=
  match listed env with inr ds => ds | inl _ => [] end.

Definition rows (env : RemoteStorageAdapter.PassEnv) : list RemoteStorageAdapter.Row :=
  match RemoteStorageAdapter.allDocs env with inr rs => rs | inl _ => [] end.

(** Step 3: the documents handed to [localDB.put], up to and including
    the first one it rejects. *)
Fixpoint pulled (env : RemoteStorageAdapter.PassEnv)
    (localDocs : list RemoteStorageAdapter.Row) (remoteDocs : list Doc)
    : list Doc * option JS.thrown :=
  match remoteDocs with
  | [] => ([], None)
  | d :: rest =>
      if RemoteStorageAdapter.remote_wins localDocs d
      then match RemoteStorageAdapter.put env d with
           | Some t => ([d], Some t)
           | None => let (ds, r) := pulled env localDocs rest in (d :: ds, r)
           end
      else pulled env localDocs rest
  end.

(** What one upload ends in. *)
Definition uploaded (env : RemoteStorageAdapter.PassEnv) (d : Doc) : option JS.thrown :=
  match RemoteStorageAdapter.upload env d with
  | inl t => Some t
  | inr response =>
      if negb (RemoteStorageAdapter.ok response)
      then Some (JS.Error ("保存远程文档失败: "
                           ++ pretty (RemoteStorageAdapter.status_code response)
                           ++ " " ++ RemoteStorageAdapter.statusText response))
      else None
  end.

(** Step 4: the documents sent to the remote store, up to and including
    the first failed upload. *)
Fixpoint pushed (env : RemoteStorageAdapter.PassEnv)
    (remoteDocs : list Doc) (localDocs : list RemoteStorageAdapter.Row)
    : list Doc * option JS.thrown :=
  match localDocs with
  | [] => ([], None)
  | row :: rest =>
      match RemoteStorageAdapter.local_wins remoteDocs row with
      | Some d =>
          match uploaded env d with
          | Some t => ([d], Some t)
          | None => let (ds, r) := pushed env remoteDocs rest in (d :: ds, r)
          end
      | None => pushed env remoteDocs rest
      end
  end.

(** The store calls in a trace, and the identifier each one writes. *)
Definition write_id (o : Obs) : option string :=
  match o with
  | LocalPut d | RemotePut d => Some (_id d)
  | _ => None
  end.

Definition is_write (o : Obs) : bool :=
  match o with
  | LocalPut _ | RemotePut _ => true
  | _ => false
  end.

(** The store calls of one pass of a connected adapter. *)
Definition pass_writes (env : RemoteStorageAdapter.PassEnv) : list Obs :=
  match listed env, RemoteStorageAdapter.allDocs env with
  | inr remoteDocs, inr localDocs =>
      let (ds, r) := pulled env localDocs remoteDocs in
      map LocalPut ds ++
      match r with
      | None => map RemotePut (fst (pushed env remoteDocs localDocs))
      | Some _ => []
      end
  | _, _ => []
  end.

(** The failure that ends a pass, if any, and the checkpoint the pass
    had announced by then. *)
Definition pass_failure (env : RemoteStorageAdapter.PassEnv) : option JS.thrown :=
  match listed env with
  | inl t => Some t
  | inr remoteDocs =>
      match RemoteStorageAdapter.allDocs env with
      | inl t => Some t
      | inr localDocs =>
          match snd (pulled env localDocs remoteDocs) with
          | Some t => Some t
          | None => snd (pushed env remoteDocs localDocs)
          end
      end
  end.

Definition checkpoint (env : RemoteStorageAdapter.PassEnv) : JS.number :=
  match listed env with
  | inl _ => 0%float
  | inr _ =>
      match RemoteStorageAdapter.allDocs env with
      | inl _ => 30%float
      | inr _ => 60%float
      end
  end.

(** The adapter with its status replaced. *)
Definition rs_with (st : SyncStatus) (a : RemoteStorageAdapter.t) : RemoteStorageAdapter.t :=
  RemoteStorageAdapter.set_base
    (BaseSyncAdapter.set_status st (RemoteStorageAdapter.base a)) a.

(** The status a pass of a connected adapter ends in. *)
Definition pass_status (env : RemoteStorageAdapter.PassEnv) (s : SyncStatus) : SyncStatus :=
  match pass_failure env with
  | None => {| status := completed; progress := Some 100%float; error_ := error_ s |}
  | Some t =>
      {| status := error; progress := Some (checkpoint env);
         error_ := Some {| message := JS.message_or t "同步失败"; details := t |} |}
  end.

End Observed.

(* ================================================================= *)
(** ** Sequences of operations on one adapter *)

Module RemoteStorageRun.

Import SyncAdapter Host Registry RemoteStorageAdapter.

Inductive Op :=
| Connect (cfg : RemoteStorageConfig) (env : ConnectEnv)
| StartSync (db : nat) (env : PassEnv)
| StopSync
| Tick (env : PassEnv)                   (* an armed interval timer fires *)
| AddEventListener (event : string) (l : Listener)
| RemoveEventListener (event : string) (l : Listener).

Definition step (op : Op) (s : St) : St :=
  match op with
  | Connect cfg env => state (connect cfg env s)
  | StartSync db env => state (startSync db env s)
  | StopSync => state (stopSync s)
  | Tick env =>
      match timers (snd s) with
      | [] => s
      | _ :: _ => state (tick env s)
      end
  | AddEventListener event l => (addEventListener event l (fst s), snd s)
  | RemoveEventListener event l => (removeEventListener event l (fst s), snd s)
  end.

Definition run (ops : list Op) (s : St) : St :=
  fold_left (fun s op => step op s) ops s.

(** A [connect] that stops before it stores the connection information:
    discovery fails, or the token is empty. *)
Definition stops_early (cfg : RemoteStorageConfig) (env : ConnectEnv) : bool :=
  match discovery env with
  | inl _ => true
  | inr _ => negb (JS.truthy (JS.str (token cfg)))
  end.

(** Sequences in which every [connect] stops early. *)
Definition never_stored (op : Op) : bool :=
  match op with
  | Connect cfg env => stops_early cfg env
  | _ => true
  end.

End RemoteStorageRun.

Module WebDAVRun.

Import SyncAdapter Host Registry WebDAVAdapter.

Inductive Op :=
| Connect (cfg : WebDAVConfig)
| StartSync (db : nat) (env : SyncEnv)
| StopSync
| Tick (once : option JS.thrown)         (* an armed interval timer fires *)
| Change (info : JS.value)               (* the replication handle's events *)
| Paused
| Active
| Denied (error : JS.thrown)
| Complete
| Failed (error : JS.thrown)
| AddEventListener (event : string) (l : Listener)
| RemoveEventListener (event : string) (l : Listener).

(** Handlers exist once some [startSync] has registered them. *)
Definition listening (w : World) : bool :=
  existsb (fun o => match o with ReplicationStarted _ => true | _ => false end)
          (trace w).

Definition step (op : Op) (s : St) : St :=
  match op with
  | Connect cfg => state (connect cfg s)
  | StartSync db env => state (startSync db env s)
  | StopSync => state (stopSync s)
  | Tick once =>
      match timers (snd s) with
      | [] => s
      | _ :: _ => state (tick once s)
      end
  | Change info => if listening (snd s) then state (on_change info s) else s
  | Paused => if listening (snd s) then state (on_paused s) else s
  | Active => if listening (snd s) then state (on_active s) else s
  | Denied e => if listening (snd s) then state (on_denied e s) else s
  | Complete => if listening (snd s) then state (on_complete s) else s
  | Failed e => if listening (snd s) then state (on_error e s) else s
  | AddEventListener event l => (addEventListener event l (fst s), snd s)
  | RemoveEventListener event l => (removeEventListener event l (fst s), snd s)
  end.

Definition run (ops : list Op) (s : St) : St :=
  fold_left (fun s op => step op s) ops s.

Definition is_connect (op : Op) : bool :=
  match op with Connect _ => true | _ => false end.

End WebDAVRun.

(* ================================================================= *)
(** ** What [stopSync] leaves behind *)

Module Halt.

Import SyncAdapter Host Registry Observed.

(** WebDAVAdapter: the host after the timer, the replication handle and the
    remote database have been released, and the adapter after the call. *)
Definition dav_released (a : WebDAVAdapter.t) (w : World) : World :=
  let w1 := match WebDAVAdapter.autoSyncTimer a with
            | Some timer => clearInterval timer w
            | None => w
            end in
  let w2 := match WebDAVAdapter.syncHandler a with
            | Some h => emit (ReplicationCancelled h) w1
            | None => w1
            end in
  match WebDAVAdapter.remoteDB a with
  | Some h => emit (DatabaseClosed h) w2
  | None => w2
  end.

Definition dav_halted (a : WebDAVAdapter.t) : WebDAVAdapter.t :=
  WebDAVAdapter.set_syncStatus
    (spread (WebDAVAdapter.syncStatus a) (WebDAVAdapter.at_ idle 0%float))
    (WebDAVAdapter.set_remoteDB None
       (WebDAVAdapter.set_syncHandler None
          (WebDAVAdapter.set_autoSyncTimer None a))).

(** RemoteStorageAdapter: a timer id that is falsy is left alone. *)
Definition rs_armed (a : RemoteStorageAdapter.t) : option nat :=
  match RemoteStorageAdapter.autoSyncTimer a with
  | Some timer => if Nat.eqb timer 0 then None else Some timer
  | None => None
  end.

Definition rs_released (a : RemoteStorageAdapter.t) (w : World) : World :=
  match rs_armed a with
  | Some timer => clearInterval timer w
  | None => w
  end.

Definition rs_halted (a : RemoteStorageAdapter.t) : RemoteStorageAdapter.t :=
  rs_with (spread (RemoteStorageAdapter.getSyncStatus a) (RemoteStorageAdapter.only idle))
    (match rs_armed a with
     | Some _ => RemoteStorageAdapter.set_autoSyncTimer None a
     | None => a
     end).

End Halt.

(* ================================================================= *)
(** ** Sample adapters, listeners and environments *)

Module Sample.

Import SyncAdapter Host Registry.

(** A listener that returns, and one that throws. *)
Definition quiet (n : nat) : Listener := {| lid := n; call := fun _ => None |}.
Definition faulty (n : nat) : Listener :=
  {| lid := n; call := fun _ => Some (JS.Error "监听器错误") |}.

(** RemoteStorage. *)
Definition account : RemoteStorageAdapter.RemoteStorageConfig :=
  {| RemoteStorageAdapter.userAddress := "user@example.com";
     RemoteStorageAdapter.token := "test-token";
     RemoteStorageAdapter.storageModule := "documents";
     RemoteStorageAdapter.autoSyncInterval := None |}.

(** The same account with auto-sync every five seconds. *)
Definition scheduled : RemoteStorageAdapter.RemoteStorageConfig :=
  {| RemoteStorageAdapter.userAddress := "user@example.com";
     RemoteStorageAdapter.token := "test-token";
     RemoteStorageAdapter.storageModule := "documents";
     RemoteStorageAdapter.autoSyncInterval := Some 5000%float |}.

Definition endpoint : RemoteStorageAdapter.RemoteStorageInfo :=
  {| RemoteStorageAdapter.server := "https://storage.example.com";
     RemoteStorageAdapter.webdavPath := "/";
     RemoteStorageAdapter.authEndpoint := "https://storage.example.com/oauth";
     RemoteStorageAdapter.storageTypes := [] |}.

Definition reply (code : nat) (text : string) (docs : list Doc) : RemoteStorageAdapter.Response :=
  {| RemoteStorageAdapter.ok := Nat.leb 200 code && Nat.ltb code 300;
     RemoteStorageAdapter.status_code := code;
     RemoteStorageAdapter.statusText := text;
     RemoteStorageAdapter.items := inr (Some docs) |}.

Definition reachable : RemoteStorageAdapter.ConnectEnv :=
  {| RemoteStorageAdapter.discovery := inr endpoint;
     RemoteStorageAdapter.test := inr (reply 207 "Multi-Status" []) |}.

(** Discovery succeeds, the connection test is answered 401. *)
Definition rejected : RemoteStorageAdapter.ConnectEnv :=
  {| RemoteStorageAdapter.discovery := inr endpoint;
     RemoteStorageAdapter.test := inr (reply 401 "Unauthorized" []) |}.

Definition undiscovered : RemoteStorageAdapter.ConnectEnv :=
  {| RemoteStorageAdapter.discovery := inl (JS.Error "无法发现RemoteStorage端点: 404");
     RemoteStorageAdapter.test := inr (reply 207 "Multi-Status" []) |}.

Definition note (k rev body : string) : Doc :=
  {| _id := k; _rev := Some rev; content := JS.str body |}.

Definition filed (d : Doc) : RemoteStorageAdapter.Row :=
  {| RemoteStorageAdapter.id := _id d; RemoteStorageAdapter.doc := Some d |}.

(** A pass over the given remote and local documents in which every store
    call succeeds. *)
Definition pass (remoteDocs localDocs : list Doc) : RemoteStorageAdapter.PassEnv :=
  {| RemoteStorageAdapter.listing := inr (reply 207 "Multi-Status" remoteDocs);
     RemoteStorageAdapter.allDocs := inr (map filed localDocs);
     RemoteStorageAdapter.put := fun _ => None;
     RemoteStorageAdapter.upload := fun _ => inr (reply 201 "Created" []) |}.

(** An adapter that has connected and been given the local store 1. *)
Definition attached : RemoteStorageAdapter.t :=
  fst (state (RemoteStorageAdapter.connect account reachable
                (RemoteStorageAdapter.set_localDB (Some 1) RemoteStorageAdapter.new, boot))).

(** WebDAV. *)
Definition server (address : string) : WebDAVAdapter.WebDAVConfig :=
  {| WebDAVAdapter.url := address;
     WebDAVAdapter.username := Some "user";
     WebDAVAdapter.password := Some "pass";
     WebDAVAdapter.dbPath := None;
     WebDAVAdapter.autoSync := None;
     WebDAVAdapter.syncInterval := None |}.

Definition engine : WebDAVAdapter.SyncEnv :=
  {| WebDAVAdapter.open_remote := None; WebDAVAdapter.replicate := None |}.

End Sample.

(* ================================================================= *)
(** ** The status changes one operation can make *)

Module Moves.

Import SyncAdapter Host Registry Observed.

(** RemoteStorageAdapter. *)
Inductive rs_moves (st : SyncStatus) : SyncStatus -> Prop :=
| rs_stays : rs_moves st st
| rs_stopped : rs_moves st (spread st (RemoteStorageAdapter.only idle))
| rs_connected :
    rs_moves st (spread (spread st (RemoteStorageAdapter.only connecting))
                        (RemoteStorageAdapter.only connected))
| rs_refused t :
    rs_moves st (spread (spread st (RemoteStorageAdapter.only connecting))
                        (RemoteStorageAdapter.failed SyncAdapter.error t "连接失败"))
| rs_passed env : rs_moves st (pass_status env st)
| rs_tick_failed t :
    rs_moves st (spread st (RemoteStorageAdapter.failed SyncAdapter.error t "自动同步失败")).

(** WebDAVAdapter.  [dav_active] is the only update that names [syncing]
    without a progress value; its handler exists only once a replication
    has been started. *)
Inductive dav_moves (w : World) (st : SyncStatus) : SyncStatus -> Prop :=
| dav_stays : dav_moves w st st
| dav_connected :
    dav_moves w st (spread (spread st (WebDAVAdapter.only connecting))
                           (WebDAVAdapter.only connected))
| dav_refused t :
    dav_moves w st (spread (spread st (WebDAVAdapter.only connecting))
                           (WebDAVAdapter.failed t "连接失败"))
| dav_unconfigured t : dav_moves w st (spread st (WebDAVAdapter.failed t "同步失败"))
| dav_started : dav_moves w st (spread st (WebDAVAdapter.at_ syncing 0%float))
| dav_start_failed t :
    dav_moves w st (spread (spread st (WebDAVAdapter.at_ syncing 0%float))
                           (WebDAVAdapter.failed t "同步失败"))
| dav_stopped : dav_moves w st (spread st (WebDAVAdapter.at_ idle 0%float))
| dav_synced :
    dav_moves w st (spread (spread st (WebDAVAdapter.at_ syncing 0%float))
                           (WebDAVAdapter.at_ completed 100%float))
| dav_change info :
    dav_moves w st (spread st (WebDAVAdapter.at_ syncing (Progress.calculateProgress info)))
| dav_paused : dav_moves w st (spread st (WebDAVAdapter.only paused))
| dav_active :
    WebDAVRun.listening w = true ->
    dav_moves w st (spread st (WebDAVAdapter.only syncing))
| dav_denied msg t :
    dav_moves w st (spread st {| p_status := Some error; p_progress := None;
                                 p_error := Some (WebDAVAdapter.refused msg t) |})
| dav_complete : dav_moves w st (spread st (WebDAVAdapter.at_ completed 100%float)).

End Moves.

(* ================================================================= *)
(** ** The properties as the specification words them *)

Module Spec.

Import SyncAdapter.




(** "progress is defined only while status is syncing or completed;
    error is defined only when status = error" *)
Definition status_invariant (s : SyncStatus) : Prop :=
  (progress s <> None -> status s = syncing \/ status s = completed) /\
  (error_ s <> None -> status s = error).

(** The same conditions read the other way: what the adapters keep. *)
Definition status_carries (s : SyncStatus) : Prop :=
  (status s = syncing \/ status s = completed -> progress s <> None) /\
  (status s = completed -> progress s = Some 100%float) /\
  (status s = error -> error_ s <> None).

(** Identifiers identify: each listing names a document at most once,
    and a local row is filed under the [_id] of its document. *)
Definition consistent (env : RemoteStorageAdapter.PassEnv) : Prop :=
  List.NoDup (map Host._id (Observed.fetched env)) /\
  List.NoDup (map RemoteStorageAdapter.id (Observed.rows env)) /\
  (forall row d, In row (Observed.rows env) ->
                 RemoteStorageAdapter.doc row = Some d ->
                 Host._id d = RemoteStorageAdapter.id row).

(** What the WebDAV adapter keeps: the carried fields, and a progress
    value from the moment handlers exist. *)
Definition dav_inv (s : WebDAVAdapter.St) : Prop :=
  status_carries (WebDAVAdapter.getSyncStatus (fst s)) /\
  (WebDAVRun.listening (snd s) = true ->
   progress (WebDAVAdapter.getSyncStatus (fst s)) <> None).

End Spec.

(* ================================================================= *)
(** ** The estimate on document counts *)

Module Counts.

(** The same binary64 value: the same sign, digits and exponent.  Unlike
    [===] this tells [-0] from [0], and NaN is the same as NaN. *)
Definition sf_same (a b : spec_float) : bool :=
  match a, b with
  | S754_zero s, S754_zero s' => Bool.eqb s s'
  | S754_infinity s, S754_infinity s' => Bool.eqb s s'
  | S754_nan, S754_nan => true
  | S754_finite s m e, S754_finite s' m' e' =>
      Bool.eqb s s' && Pos.eqb m m' && Z.eqb e e'
  | _, _ => false
  end.

Definition same (x y : JS.number) : bool := sf_same (Prim2SF x) (Prim2SF y).

(** The counts 0, 1, ..., [n]. *)
Definition upto (n : nat) : list Z := map Z.of_nat (List.seq 0 (S n)).






(** [k / 4] rounded as [Math.round] rounds it: [floor (k / 4 + 1 / 2)],
    and [-0] where that is 0 and [k] is negative. *)
Definition rounded_quarter (k : Z) : JS.number :=
  let n := ((k + 2) / 4)%Z in
  if ((n =? 0) && (k <? 0))%Z then (-0)%float else JS.of_Z n.

End Counts.

(* ================================================================= *)
(** ** Listener sets *)

Module Listeners.

Import SyncAdapter Registry.

(** A [Set] holds a callback once: no list of the map has one twice. *)
Definition once (listeners : string -> list Listener) : Prop :=
  forall e n, registered n (listeners e) <= 1.

(** BaseSyncAdapter drops an event name with its last callback: the map
    holds no empty set. *)
Definition inhabited (m : gmap string (list Listener)) : Prop :=
  forall e, m !! e <> Some [].

End Listeners.

(* ================================================================= *)
(** ** What [connect] comes to *)

Module Verdict.

Import SyncAdapter.

(** What [WebDAVAdapter.checkConnection] objects to in a URL, if anything. *)
Definition dav_objection (url : string) : option string :=
  if negb (JS.truthy (JS.str url)) then Some "WebDAV URL不能为空"
  else if negb (JS.test_http_scheme url) then Some "WebDAV URL必须以http://或https://开头"
  else if JS.includes url "error" then Some "连接失败：无法连接到WebDAV服务器"
  else None.

(** What stops [RemoteStorageAdapter.connect], if anything, in the order
    in which it checks. *)
Definition rs_objection (cfg : RemoteStorageAdapter.RemoteStorageConfig)
    (env : RemoteStorageAdapter.ConnectEnv) : option JS.thrown :=
  match RemoteStorageAdapter.discovery env with
  | inl t => Some t
  | inr _ =>
      if negb (JS.truthy (JS.str (RemoteStorageAdapter.token cfg)))
      then Some (JS.Error "无效的访问令牌")
      else
        match RemoteStorageAdapter.test env with
        | inl t => Some t
        | inr response =>
            if negb (RemoteStorageAdapter.ok response)
            then Some (JS.Error ("连接测试失败: "
                                 ++ pretty (RemoteStorageAdapter.status_code response)
                                 ++ " " ++ RemoteStorageAdapter.statusText response))
            else None
        end
  end.

(** The status an adapter has after a [connect] that failed with [t], and
    after one that succeeded. *)
Definition refused_status (st : SyncStatus) (t : JS.thrown) : SyncStatus :=
  {| status := error; progress := progress st;
     error_ := Some {| message := JS.message_or t "连接失败"; details := t |} |}.

Definition connected_status (st : SyncStatus) : SyncStatus :=
  {| status := connected; progress := progress st; error_ := error_ st |}.

End Verdict.

(* ================================================================= *)
(** ** The events of a reconciliation pass *)

Module Announced.

Import SyncAdapter Observed.

(** How many checkpoints (0, 30, 60) a pass announces before it ends. *)
Definition stages (env : RemoteStorageAdapter.PassEnv) : nat :=
  match listed env with
  | inl _ => 1
  | inr _ =>
      match RemoteStorageAdapter.allDocs env with
      | inl _ => 2
      | inr _ => 3
      end
  end.

(** How often a pass dispatches the event named [event]. *)
Definition pass_dispatches (env : RemoteStorageAdapter.PassEnv) (event : string) : nat :=
  (if String.eqb event "sync-progress" then stages env else 0)
  + (if String.eqb event "sync-error"
     then match pass_failure env with Some _ => 2 | None => 0 end else 0)
  + (if String.eqb event "sync-complete"
     then match pass_failure env with Some _ => 0 | None => 1 end else 0).

(** The event a status update of BaseSyncAdapter announces by itself. *)
Definition announces (p : PartialStatus) : option string :=
  match p_status p with
  | Some syncing => Some "sync-progress"
  | Some error => Some "sync-error"
  | _ => None
  end.

End Announced.

(* ================================================================= *)
(** ** Event names *)

Module Vocabulary.

(** The event names each adapter dispatches under. *)
Definition rs_events : list string :=
  ["connected"; "connection-error"; "sync-progress"; "sync-complete";
   "sync-error"; "sync-stopped"].

Definition dav_events : list string :=
  ["connect-success"; "connect-error"; "sync-progress"; "sync-error";
   "sync-complete"; "sync-paused"; "sync-active"; "sync-denied"; "sync-stopped"].

Definition named (events : list string) (event : string) : bool :=
  existsb (String.eqb event) events.

End Vocabulary.

(* ================================================================= *)
(** ** Timers and the replication of the WebDAV adapter *)

Module Timers.

Import Host.

(** The armed timers are the one the adapter holds, if it holds one. *)
Definition dav_holds (s : WebDAVAdapter.St) : Prop :=
  timers (snd s) = match WebDAVAdapter.autoSyncTimer (fst s) with
                   | Some timer => [timer]
                   | None => []
                   end.

End Timers.

Module Replication.

Import SyncAdapter.

(** The address [startSync] opens the remote database at. *)
Definition remote_url (cfg : WebDAVAdapter.WebDAVConfig) : string :=
  String.append (WebDAVAdapter.strip_slash (WebDAVAdapter.url cfg))
    (if JS.truthy_str (WebDAVAdapter.dbPath cfg)
     then default "" (WebDAVAdapter.dbPath cfg) else "/sync/db").

(** What stops [startSync] on a configured adapter, if anything. *)
Definition obstacle (env : WebDAVAdapter.SyncEnv) : option JS.thrown :=
  match WebDAVAdapter.open_remote env with
  | Some t => Some t
  | None => WebDAVAdapter.replicate env
  end.

(** The same configuration with the address spelt differently. *)
Definition readdressed (address : string) (cfg : WebDAVAdapter.WebDAVConfig)
    : WebDAVAdapter.WebDAVConfig :=
  {| WebDAVAdapter.url := address;
     WebDAVAdapter.username := WebDAVAdapter.username cfg;
     WebDAVAdapter.password := WebDAVAdapter.password cfg;
     WebDAVAdapter.dbPath := WebDAVAdapter.dbPath cfg;
     WebDAVAdapter.autoSync := WebDAVAdapter.autoSync cfg;
     WebDAVAdapter.syncInterval := WebDAVAdapter.syncInterval cfg |}.

End Replication.

(* ================================================================= *)
(** ** More sample environments *)

Module Fixture.

Import SyncAdapter Host Registry Sample.

(** A pass whose listing is answered 500. *)
Definition unavailable : RemoteStorageAdapter.PassEnv :=
  {| RemoteStorageAdapter.listing := inr (reply 500 "Internal Server Error" []);
     RemoteStorageAdapter.allDocs := inr [];
     RemoteStorageAdapter.put := fun _ => None;
     RemoteStorageAdapter.upload := fun _ => inr (reply 201 "Created" []) |}.

(** A pass over the given documents whose local store rejects every put. *)
Definition readonly (remoteDocs localDocs : list Doc) : RemoteStorageAdapter.PassEnv :=
  {| RemoteStorageAdapter.listing := inr (reply 207 "Multi-Status" remoteDocs);
     RemoteStorageAdapter.allDocs := inr (map filed localDocs);
     RemoteStorageAdapter.put := fun _ => Some (JS.Error "conflict");
     RemoteStorageAdapter.upload := fun _ => inr (reply 201 "Created" []) |}.

(** A connected adapter with auto-sync every five seconds. *)
Definition timed : RemoteStorageAdapter.t :=
  fst (state (RemoteStorageAdapter.connect scheduled reachable
                (RemoteStorageAdapter.new, boot))).

Definition bearer : RemoteStorageAdapter.RemoteStorageToken :=
  {| RemoteStorageAdapter.accessToken := "test-token";
     RemoteStorageAdapter.tokenType := "Bearer" |}.

(** A document that carries no marker. *)
Definition unmarked (k body : string) : Doc :=
  {| _id := k; _rev := None; content := JS.str body |}.

End Fixture.

(* ================================================================= *)
(** ** adapters/SyncAdapterFactory.ts *)

Module SyncAdapterFactory.

(** [enum SyncAdapterType]: its members are strings. *)
Definition SyncAdapterType := string.
Definition WEBDAV : SyncAdapterType := "webdav".
Definition REMOTE_STORAGE : SyncAdapterType := "remotestorage".
Definition DROPBOX : SyncAdapterType := "dropbox".
Definition GOOGLE_DRIVE : SyncAdapterType := "googledrive".

(** A constructor [new () => SyncAdapter]: one of the four adapter
    classes, or a class of the caller's. *)
Inductive Constructor :=
| WebDAV
| RemoteStorage
| Dropbox
| GoogleDrive
| custom (class : nat).

(** What [new Constructor()] gives: for the two classes embedded above
    their initial object, for the others an instance of the class. *)
Inductive Instance :=
| webdav (a : WebDAVAdapter.t)
| remotestorage (a : RemoteStorageAdapter.t)
| instance_of (c : Constructor).

Definition construct (c : Constructor) : Instance :=
  match c with
  | WebDAV => webdav WebDAVAdapter.new
  | RemoteStorage => remotestorage RemoteStorageAdapter.new
  | c => instance_of c
  end.

(** A [Map] in insertion order: [set] on a key that is there replaces the
    value where it stands. *)
Definition Map_ := list (SyncAdapterType * Constructor).

Fixpoint Map_set (m : Map_) (k : SyncAdapterType) (v : Constructor) : Map_ :=
  match m with
  | [] => [(k, v)]
  | (k', v') :: rest =>
      if String.eqb k' k then (k, v) :: rest else (k', v') :: Map_set rest k v
  end.

Definition Map_get (m : Map_) (k : SyncAdapterType) : option Constructor :=
  option_map snd (List.find (fun e => String.eqb (fst e) k) m).

Definition Map_has (m : Map_) (k : SyncAdapterType) : bool :=
  existsb (fun e => String.eqb (fst e) k) m.

Definition Map_delete (m : Map_) (k : SyncAdapterType) : bool * Map_ :=
  (Map_has m k, List.filter (fun e => negb (String.eqb (fst e) k)) m).

Definition Map_keys (m : Map_) : list SyncAdapterType := map fst m.

Record t := { adapterConstructors : Map_ }.

Definition registerAdapter (type : SyncAdapterType) (constructor : Constructor) (f : t) : t :=
  {| adapterConstructors := Map_set (adapterConstructors f) type constructor |}.

Definition registerDefaultAdapters (f : t) : t :=
  registerAdapter GOOGLE_DRIVE GoogleDrive
    (registerAdapter DROPBOX Dropbox
       (registerAdapter REMOTE_STORAGE RemoteStorage
          (registerAdapter WEBDAV WebDAV f))).

(** The private constructor. *)
Definition new : t := registerDefaultAdapters {| adapterConstructors := [] |}.


Definition createAdapter (type : SyncAdapterType) (f : t) : Completion Instance :=
  match Map_get (adapterConstructors f) type with
  | Some Constructor => Normal (construct Constructor)
  | None => Throw (JS.Error ("未注册的适配器类型: " ++ type))
  end.

Definition getRegisteredAdapterTypes (f : t) : list SyncAdapterType :=
  Map_keys (adapterConstructors f).

Definition getAdapterConstructor (type : SyncAdapterType) (f : t) : option Constructor :=
  Map_get (adapterConstructors f) type.

Definition hasAdapter (type : SyncAdapterType) (f : t) : bool :=
  Map_has (adapterConstructors f) type.

Definition unregisterAdapter (type : SyncAdapterType) (f : t) : bool * t :=
  let (removed, m) := Map_delete (adapterConstructors f) type in
  (removed, {| adapterConstructors := m |}).

Definition reset (f : t) : t :=
  registerDefaultAdapters {| adapterConstructors := [] |}.

(** Sequences of calls on the one factory. *)
Inductive Op :=
| RegisterAdapter (type : SyncAdapterType) (constructor : Constructor)
| UnregisterAdapter (type : SyncAdapterType)
| Reset.

Definition step (op : Op) (f : t) : t :=
  match op with
  | RegisterAdapter type constructor => registerAdapter type constructor f
  | UnregisterAdapter type => snd (unregisterAdapter type f)
  | Reset => reset f
  end.

Definition run (ops : list Op) (f : t) : t :=
  fold_left (fun f op => step op f) ops f.

End SyncAdapterFactory.

(* ================================================================= *)
(** ** utils/remoteStorageDiscovery.ts *)

Module Discovery.

Import SyncAdapter.

(** [s.split(sep)] for a separator of one character. *)
Fixpoint split (sep : ascii) (s : string) : list string :=
  match s with
  | EmptyString => [EmptyString]
  | String c rest =>
      if Ascii.eqb c sep then EmptyString :: split sep rest
      else match split sep rest with
           | part :: parts => String c part :: parts
           | [] => [String c EmptyString]
           end
  end.

(** An entry of [links] in a WebFinger document, the document, and the
    service description behind the link, as far as the function reads
    them.  [None] is a key that is missing. *)
Record Link := {
  rel : option string;
  href : string
}.

Record Webfinger := {
  links : option (list Link)
}.

Record Description := {
  d_server : string;
  d_webdavPath : option string;
  d_authEndpoint : string;
  d_storageTypes : option (list string)
}.

(** What [fetch] resolves to; [json] is [await response.json()]. *)
Record Reply (A : Type) := {
  ok : bool;
  status_code : nat;
  statusText : string;
  json : JS.thrown + A
}.
Arguments ok {A} r.
Arguments status_code {A} r.
Arguments statusText {A} r.
Arguments json {A} r.

(** What the network answers, by address. *)
Record Net := {
  webfinger : string -> JS.thrown + Reply Webfinger;
  description : string -> JS.thrown + Reply Description
}.

(** What the function does that is visible outside it. *)
Inductive Seen :=
| Requested (url : string)                 (* fetch(url, ...) *)
| Logged (msg : string) (t : JS.thrown).   (* console.error(msg, t) *)

Definition fetch {A} (answer : string -> JS.thrown + Reply A) (url : string)
    : M (list Seen) (Reply A) :=
  modify (fun seen => seen ++ [Requested url]) ;;
  match answer url with
  | inl t => throw t
  | inr response => ret response
  end.

Definition await {A} (p : JS.thrown + A) : M (list Seen) A :=
  match p with
  | inl t => throw t
  | inr a => ret a
  end.

Definition invalid_address : string := "无效的用户地址格式，应为user@example.com".

Definition webfinger_url (domain userAddress : string) : string :=
  String.append "https://"
    (String.append domain
       (String.append "/.well-known/webfinger?resource=acct:" userAddress)).

Definition is_remotestorage (link : Link) : bool :=
  match rel link with
  | Some r => String.eqb r "remotestorage"
  | None => false
  end.

Section WithHost.

(** [String(v)] for a thrown value that is not an [Error]. *)
Variable String_ : JS.value -> string.

Definition text_of (error : JS.thrown) : string :=
  match error with
  | JS.Error m => m
  | JS.raw v => String_ v
  end.

Definition discoverRemoteStorage (userAddress : string) (net : Net)
    : M (list Seen) RemoteStorageAdapter.RemoteStorageInfo :=
  let parts := split "@" userAddress in
  let user := nth_error parts 0 in
  let domain := nth_error parts 1 in
  if negb (JS.truthy_str user) || negb (JS.truthy_str domain)
  then throw (JS.Error invalid_address)
  else
    try_catch
      ((* 1. *)
       response <- fetch (webfinger net) (webfinger_url (default "" domain) userAddress) ;;
       when (negb (ok response))
            (throw (JS.Error ("WebFinger查询失败: " ++ pretty (status_code response)
                               ++ " " ++ statusText response))) ;;
       webfinger <- await (json response) ;;
       (* 2. *)
       match match links webfinger with
             | Some ls => List.find is_remotestorage ls
             | None => None
             end with
       | None => throw (JS.Error "该用户未配置RemoteStorage服务")
       | Some remoteStorageLink =>
           (* 3. *)
           infoResponse <- fetch (description net) (href remoteStorageLink) ;;
           when (negb (ok infoResponse))
                (throw (JS.Error ("RemoteStorage信息查询失败: "
                                   ++ pretty (status_code infoResponse)
                                   ++ " " ++ statusText infoResponse))) ;;
           remoteStorageInfo <- await (json infoResponse) ;;
           ret {| RemoteStorageAdapter.server := d_server remoteStorageInfo;
                  RemoteStorageAdapter.webdavPath :=
                    if JS.truthy_str (d_webdavPath remoteStorageInfo)
                    then default "" (d_webdavPath remoteStorageInfo) else "/";
                  RemoteStorageAdapter.authEndpoint := d_authEndpoint remoteStorageInfo;
                  RemoteStorageAdapter.storageTypes :=
                    default [] (d_storageTypes remoteStorageInfo) |}
       end)
      (fun error =>
         modify (fun seen => seen ++ [Logged "RemoteStorage发现失败:" error]) ;;
         throw (JS.Error ("无法发现RemoteStorage端点: " ++ text_of error))).

End WithHost.

(** What the promise settles to. *)
Definition settled {S A} (r : Completion A * S) : JS.thrown + A :=
  match fst r with
  | Normal a => inr a
  | Throw t => inl t
  end.

End Discovery.

Module Lookup.

Import Discovery.

(** A network on which nothing answers. *)
Definition offline : Net :=
  {| webfinger := fun _ => inl (JS.Error "Failed to fetch");
     description := fun _ => inl (JS.Error "Failed to fetch") |}.

(** A reply with status 200 and the given body. *)
Definition answered {A} (body : A) : Reply A :=
  {| ok := true; status_code := 200; statusText := "OK"; json := inr body |}.

(** A network on which example.com answers the WebFinger query for
    user@example.com with three links, two of them to remoteStorage
    services, and the first of these two describes itself, naming no
    WebDAV path and no storage types. *)
Definition online : Net :=
  {| webfinger := fun url =>
       if String.eqb url
            "https://example.com/.well-known/webfinger?resource=acct:user@example.com"
       then inr (answered
                   {| links :=
                        Some [ {| rel := Some "self"; href := "https://example.com/user" |};
                               {| rel := Some "remotestorage";
                                  href := "https://storage.example.com/info" |};
                               {| rel := Some "remotestorage";
                                  href := "https://other.example.com/info" |} ] |})
       else inl (JS.Error "Failed to fetch");
     description := fun url =>
       if String.eqb url "https://storage.example.com/info"
       then inr (answered
                   {| d_server := "https://storage.example.com";
                      d_webdavPath := None;
                      d_authEndpoint := "https://storage.example.com/oauth";
                      d_storageTypes := None |})
       else inl (JS.Error "Failed to fetch") |}.

(** [String(error)] is evaluated only for a thrown value that is not an
    [Error].  On the two networks above whatever is thrown is an [Error],
    so the function that stands for [String] on them is never consulted
    (lemmas [offline_unread] and [online_unread] below); this one is not
    [String]. *)
Definition unread (v : JS.value) : string := "".

(** A configuration for the given address. *)
Definition addressed (address : string) : RemoteStorageAdapter.RemoteStorageConfig :=
  {| RemoteStorageAdapter.userAddress := address;
     RemoteStorageAdapter.token := "test-token";
     RemoteStorageAdapter.storageModule := "documents";
     RemoteStorageAdapter.autoSyncInterval := None |}.

End Lookup.

Import Observed Moves Halt Sample.

(* ================================================================= *)
(** * Properties *)

(** ** The host's trace *)

Section TraceFacts.

Import Host.

Lemma log_nil w : log [] w = w.
Proof. destruct w; unfold log; simpl. now rewrite app_nil_r. Qed.

Lemma log_log os os' w : log os' (log os w) = log (os ++ os') w.
Proof. unfold log; simpl. now rewrite app_assoc. Qed.

Lemma emit_log o w : emit o w = log [o] w.
Proof. reflexivity. Qed.

Lemma since_log os w : since w (log os w) = os.
Proof. unfold since, log; simpl. now rewrite drop_app_length. Qed.

Lemma calls_app event l tr tr' :
  calls event l (tr ++ tr') = calls event l tr + calls event l tr'.
Proof. unfold calls. now rewrite List.filter_app, length_app. Qed.

End TraceFacts.

(** ** Dispatch *)

Section DispatchFacts.

Import SyncAdapter Host Registry.

(** The loop of [dispatchEvent] and [triggerEvent]: it ends normally, the
    adapter object is untouched, and the trace grows by [heard]. *)
Lemma forEach_guarded {A} msg ev ls (a : A) w :
  forEach (fun listener =>
             try_catch (invoke listener ev) (fun error => console_error msg error))
          ls (a, w)
  = (Normal tt, (a, log (heard msg ev ls) w)).
Proof.
  revert w. induction ls as [|l ls IH]; intros w; simpl.
  - now rewrite log_nil.
  - unfold bind, try_catch at 1, invoke at 1.
    destruct (call l ev) as [t|]; simpl; rewrite IH, !emit_log, !log_log; reflexivity.
Qed.

Lemma heard_called msg ev ls l :
  In l ls -> In (ListenerCalled (lid l) ev) (heard msg ev ls).
Proof.
  intros H. unfold heard. apply in_flat_map. exists l. split; [assumption | now left].
Qed.

Lemma heard_reported msg ev ls l t :
  In l ls -> call l ev = Some t -> In (ConsoleError msg t) (heard msg ev ls).
Proof.
  intros H Ht. unfold heard. apply in_flat_map. exists l. split; [assumption |].
  rewrite Ht. right. now left.
Qed.

Lemma calls_heard msg ev ls l :
  calls (type ev) l (heard msg ev ls) = registered l ls.
Proof.
  unfold calls, registered, heard.
  induction ls as [|x ls IH]; simpl; [reflexivity |].
  rewrite String.eqb_refl, andb_true_r.
  destruct (call x ev); simpl; destruct (Nat.eqb (lid x) l); simpl; now rewrite IH.
Qed.

Lemma calls_heard_other msg ev ls l event :
  type ev <> event -> calls event l (heard msg ev ls) = 0.
Proof.
  intros Hne. unfold calls, heard.
  induction ls as [|x ls IH]; simpl; [reflexivity |].
  apply String.eqb_neq in Hne. rewrite Hne, andb_false_r.
  destruct (call x ev); simpl; exact IH.
Qed.

End DispatchFacts.

(** ** BaseSyncAdapter *)

Section BaseFacts.

Import SyncAdapter Host Registry.

Lemma base_dispatchEvent_run event data a w :
  BaseSyncAdapter.dispatchEvent event data (a, w)
  = (Normal tt, (a, log (base_heard event data a) w)).
Proof.
  unfold BaseSyncAdapter.dispatchEvent, bind, gets, base_heard, base_listeners; simpl.
  destruct (BaseSyncAdapter.eventListeners a !! event) as [ls|]; simpl.
  - apply forEach_guarded.
  - unfold ret. now rewrite log_nil.
Qed.

Lemma base_updateStatus_run p a w :
  BaseSyncAdapter.updateStatus p (a, w)
  = (Normal tt,
     (BaseSyncAdapter.set_status (spread (BaseSyncAdapter.status a) p) a,
      log (base_announced p (BaseSyncAdapter.set_status
                               (spread (BaseSyncAdapter.status a) p) a)) w)).
Proof.
  unfold BaseSyncAdapter.updateStatus, bind, modify, gets, base_announced; simpl.
  destruct (p_status p) as [[]|]; simpl;
    rewrite ?base_dispatchEvent_run; unfold ret; rewrite ?log_nil; reflexivity.
Qed.

End BaseFacts.

(** ** RemoteStorageAdapter: the inherited methods *)

Section RemoteStorageBasics.

Import SyncAdapter Host Registry RemoteStorageAdapter.

Lemma rs_updateStatus_run p a w :
  updateStatus p (a, w)
  = (Normal tt,
     (set_base (BaseSyncAdapter.set_status
                  (spread (BaseSyncAdapter.status (base a)) p) (base a)) a,
      log (base_announced p (BaseSyncAdapter.set_status
                               (spread (BaseSyncAdapter.status (base a)) p) (base a))) w)).
Proof.
  unfold updateStatus, inherited, lift. now rewrite base_updateStatus_run.
Qed.

Lemma set_base_base a : set_base (base a) a = a.
Proof. now destruct a. Qed.

Lemma rs_dispatchEvent_run event data a w :
  dispatchEvent event data (a, w)
  = (Normal tt, (a, log (base_heard event data (base a)) w)).
Proof.
  unfold dispatchEvent, inherited, lift. rewrite base_dispatchEvent_run.
  now rewrite set_base_base.
Qed.

End RemoteStorageBasics.

(** ** WebDAVAdapter: dispatch and status *)

Section WebDAVBasics.

Import SyncAdapter Host Registry WebDAVAdapter.

Lemma dav_triggerEvent_run event data a w :
  triggerEvent event data (a, w) = (Normal tt, (a, log (dav_heard event data a) w)).
Proof.
  unfold triggerEvent, bind, gets, dav_heard, dav_listeners; simpl.
  destruct (eventListeners a !! event) as [ls|]; simpl.
  - apply forEach_guarded.
  - unfold ret. now rewrite log_nil.
Qed.

Lemma dav_updateStatus_run p a w :
  updateStatus p (a, w) = (Normal tt, (set_syncStatus (spread (syncStatus a) p) a, w)).
Proof. reflexivity. Qed.

End WebDAVBasics.

(** ** The progress estimator *)

Section EstimatorFacts.

Import Progress.






(** [Math.round] rounds to the nearest integer and, halfway between two
    integers, up: 2.5 to 3 and -2.5 to -2.  It rounds the number it is
    given exactly: the largest number below 0.5 goes to 0. *)
Example Math_round_halves :
  JS.Math_round 0.5%float = 1%float /\ JS.Math_round 1.5%float = 2%float /\
  JS.Math_round 2.5%float = 3%float /\ JS.Math_round 57.5%float = 58%float /\
  JS.Math_round (-0.5)%float = (-0)%float /\
  JS.Math_round (-1.5)%float = (-1)%float /\
  JS.Math_round (-2.5)%float = (-2)%float /\
  JS.Math_round 0x1.fffffffffffffp-2%float = 0%float /\
  JS.Math_round 2.25%float = 2%float /\ JS.Math_round 2.75%float = 3%float /\
  JS.Math_round (-2.25)%float = (-2)%float /\
  JS.Math_round (-2.75)%float = (-3)%float /\
  JS.Math_round 4503599627370497%float = 4503599627370497%float /\
  JS.Math_round infinity = infinity.
Proof. vm_compute. repeat split; reflexivity. Qed.

(** On every quarter from -100 to 100, [Math.round] is
    [floor (x + 1 / 2)]. *)
Lemma Math_round_quarters :
  forallb (fun k => Counts.same (JS.Math_round (JS.of_Z k / 4)%float)
                                (Counts.rounded_quarter k))
          (map (fun k => (k - 400)%Z) (Counts.upto 800)) = true.
Proof. vm_compute. reflexivity. Qed.









(** Rounding happens in binary64: 29/200 * 100 is 14.499999999999998. *)
Example calculateProgress_29_of_200 :
  calculateProgress (report 171%float 29%float) = 14%float.
Proof. vm_compute. reflexivity. Qed.

Example calculateProgress_three_quarters :
  calculateProgress (report 25%float 75%float) = 75%float.
Proof. vm_compute. reflexivity. Qed.

Example calculateProgress_all_written :
  calculateProgress (report 0%float 7%float) = 99%float.
Proof. vm_compute. reflexivity. Qed.

(** For document counts up to 100 on each side, not both zero, the estimate
    is a whole number from 0 to 99. *)
Example calculateProgress_small_counters :
  forallb (fun r =>
             forallb (fun w =>
                        (Nat.eqb r 0 && Nat.eqb w 0)
                        || (let p := calculateProgress
                                       (report (JS.of_Z (Z.of_nat r)) (JS.of_Z (Z.of_nat w))) in
                            PrimFloat.leb 0 p && PrimFloat.leb p 99
                            && PrimFloat.eqb (JS.Math_round p) p))
                     (List.seq 0 101))
          (List.seq 0 101) = true.
Proof. vm_compute. reflexivity. Qed.

End EstimatorFacts.

(** ** Running a method symbolically *)

(** Reduce the monad and the record updates, use the closed forms of the
    dispatching methods, and split on what the code branches on. *)
Ltac rs_simpl :=
  cbn [bind try_catch when ret throw gets modify fst snd state result
       RemoteStorageAdapter.await
       RemoteStorageAdapter.base RemoteStorageAdapter.localDB RemoteStorageAdapter.remoteDB
       RemoteStorageAdapter.config RemoteStorageAdapter.autoSyncTimer
       RemoteStorageAdapter.remoteInfo RemoteStorageAdapter.token_
       RemoteStorageAdapter.set_base RemoteStorageAdapter.set_localDB
       RemoteStorageAdapter.set_config RemoteStorageAdapter.set_autoSyncTimer
       RemoteStorageAdapter.set_remoteInfo RemoteStorageAdapter.set_token
       rs_with default] in *.

Ltac rs_split :=
  match goal with
  | H : ?x = _ |- context [match ?x with _ => _ end] => rewrite H
  | |- context [match ?x with _ => _ end] =>
      lazymatch x with
      | context [match _ with _ => _ end] => fail
      | context [RemoteStorageAdapter.triggerSync] => fail
      | _ => destruct x eqn:?
      end
  end.

Ltac rs_run :=
  repeat first
    [ rewrite rs_updateStatus_run
    | rewrite rs_dispatchEvent_run
    | progress rs_simpl
    | progress unfold bind, try_catch, when, ret, throw, gets, modify,
        RemoteStorageAdapter.await, Registry.console_error
    | rs_split ].

Ltac dav_simpl :=
  cbn [bind try_catch when ret throw gets modify fst snd state result
       WebDAVAdapter.syncStatus WebDAVAdapter.eventListeners WebDAVAdapter.client
       WebDAVAdapter.config WebDAVAdapter.localDB WebDAVAdapter.remoteDB
       WebDAVAdapter.syncHandler WebDAVAdapter.autoSyncTimer WebDAVAdapter.getSyncStatus
       WebDAVAdapter.set_syncStatus WebDAVAdapter.set_eventListeners
       WebDAVAdapter.set_client WebDAVAdapter.set_config WebDAVAdapter.set_localDB
       WebDAVAdapter.set_remoteDB WebDAVAdapter.set_syncHandler
       WebDAVAdapter.set_autoSyncTimer Host.allocate Host.setInterval default] in *.

Ltac dav_split :=
  match goal with
  | H : ?x = _ |- context [match ?x with _ => _ end] => rewrite H
  | |- context [match ?x with _ => _ end] =>
      lazymatch x with
      | context [match _ with _ => _ end] => fail
      | _ => destruct x eqn:?
      end
  end.

Ltac dav_run :=
  repeat first
    [ rewrite dav_triggerEvent_run
    | rewrite dav_updateStatus_run
    | progress dav_simpl
    | progress unfold bind, try_catch, when, ret, throw, gets, modify
    | dav_split ].

Section WebDAVMoves.

Import SyncAdapter Host Registry WebDAVAdapter WebDAVRun.

Lemma dav_step_moves op s :
  dav_moves (snd s) (getSyncStatus (fst s)) (getSyncStatus (fst (step op s))).
Proof.
  destruct s as [a w]. destruct op; unfold step.
  - unfold connect, checkConnection.
    dav_run; solve [apply dav_connected | apply dav_refused].
  - unfold startSync, setupAutoSync.
    dav_run; solve [apply dav_unconfigured | apply dav_started | apply dav_start_failed].
  - unfold stopSync. dav_run; apply dav_stopped.
  - unfold tick, triggerSync.
    dav_run; solve [apply dav_stays | apply dav_synced | apply dav_start_failed].
  - unfold on_change. dav_run; solve [apply dav_stays | apply dav_change].
  - unfold on_paused. dav_run; solve [apply dav_stays | apply dav_paused].
  - unfold on_active. dav_run; solve [apply dav_stays | now apply dav_active].
  - unfold on_denied. dav_run; solve [apply dav_stays | apply dav_denied].
  - unfold on_complete. dav_run; solve [apply dav_stays | apply dav_complete].
  - unfold on_error. dav_run; solve [apply dav_stays | apply dav_denied].
  - dav_simpl. unfold addEventListener. dav_run; apply dav_stays.
  - dav_simpl. unfold removeEventListener. dav_run; apply dav_stays.
Qed.

Lemma listening_log os w :
  listening (log os w)
  = listening w
    || existsb (fun o => match o with ReplicationStarted _ => true | _ => false end) os.
Proof. unfold listening, log; simpl. apply existsb_app. Qed.

Lemma heard_not_started msg ev ls :
  existsb (fun o => match o with ReplicationStarted _ => true | _ => false end)
          (heard msg ev ls) = false.
Proof.
  unfold heard. induction ls as [|l ls IH]; simpl; [reflexivity |].
  destruct (call l ev); simpl; exact IH.
Qed.

Lemma listening_heard event data a w :
  listening (log (dav_heard event data a) w) = listening w.
Proof.
  rewrite listening_log. unfold dav_heard. now rewrite heard_not_started, orb_false_r.
Qed.

Lemma listening_clearInterval t w : listening (clearInterval t w) = listening w.
Proof.
  unfold listening, clearInterval; simpl. rewrite existsb_app; simpl.
  now rewrite orb_false_r.
Qed.

(** Handlers come into existence only in a [startSync] that has already
    set a progress value. *)
Lemma dav_step_listening op s :
  listening (snd (step op s)) = true ->
  listening (snd s) = true \/ progress (getSyncStatus (fst (step op s))) <> None.
Proof.
  destruct s as [a w].
  destruct op; unfold step, connect, checkConnection, startSync, setupAutoSync,
    stopSync, tick, triggerSync, on_change, on_paused, on_active, on_denied,
    on_complete, on_error;
    dav_run; rewrite ?listening_heard; auto;
    solve [right; discriminate | intros; congruence].
Qed.

End WebDAVMoves.

(** ** RemoteStorageAdapter: one reconciliation pass *)

Section RemoteStoragePass.

Import SyncAdapter Host Registry RemoteStorageAdapter.

Lemma rs_pull_run env localDocs remoteDocs a w :
  forEach (fun remoteDoc =>
             when (remote_wins localDocs remoteDoc) (localDB_put env remoteDoc))
          remoteDocs (a, w)
  = (match snd (pulled env localDocs remoteDocs) with
     | None => Normal tt
     | Some t => Throw t
     end,
     (a, log (map LocalPut (fst (pulled env localDocs remoteDocs))) w)).
Proof.
  revert w. induction remoteDocs as [|d rest IH]; intros w; simpl.
  - now rewrite log_nil.
  - unfold bind, when at 1. destruct (remote_wins localDocs d).
    + unfold localDB_put, bind, modify; simpl.
      destruct (put env d) as [t|]; simpl.
      * reflexivity.
      * rewrite IH. destruct (pulled env localDocs rest) as [ds r]; simpl.
        now rewrite emit_log, log_log.
    + simpl. apply IH.
Qed.

Lemma rs_putRemoteDocument_run env d a w i k :
  remoteInfo a = Some i -> token_ a = Some k ->
  putRemoteDocument env d (a, w)
  = (match uploaded env d with None => Normal tt | Some t => Throw t end,
     (a, log [RemotePut d] w)).
Proof.
  intros Hi Hk. unfold putRemoteDocument, bind, gets, modify, await, uploaded; simpl.
  rewrite Hi, Hk; simpl.
  destruct (upload env d) as [t|response]; simpl; [reflexivity |].
  destruct (ok response); reflexivity.
Qed.

Lemma rs_push_run env remoteDocs localDocs a w i k :
  remoteInfo a = Some i -> token_ a = Some k ->
  forEach (fun localRow =>
             match local_wins remoteDocs localRow with
             | Some d => putRemoteDocument env d
             | None => ret tt
             end)
          localDocs (a, w)
  = (match snd (pushed env remoteDocs localDocs) with
     | None => Normal tt
     | Some t => Throw t
     end,
     (a, log (map RemotePut (fst (pushed env remoteDocs localDocs))) w)).
Proof.
  intros Hi Hk. revert w. induction localDocs as [|row rest IH]; intros w; simpl.
  - now rewrite log_nil.
  - unfold bind at 1. destruct (local_wins remoteDocs row) as [d|].
    + rewrite (rs_putRemoteDocument_run env d a w i k Hi Hk).
      destruct (uploaded env d) as [t|]; simpl; [reflexivity |].
      rewrite IH. destruct (pushed env remoteDocs rest) as [ds r]; simpl.
      now rewrite log_log.
    + simpl. apply IH.
Qed.

Lemma rs_listRemoteDocuments_run env a w i k :
  remoteInfo a = Some i -> token_ a = Some k ->
  listRemoteDocuments env (a, w)
  = (match listed env with inl t => Throw t | inr ds => Normal ds end, (a, w)).
Proof.
  intros Hi Hk. unfold listRemoteDocuments, listed, bind, gets, await, when; simpl.
  rewrite Hi, Hk; simpl.
  destruct (listing env) as [t|response]; simpl; [reflexivity |].
  destruct (ok response); simpl; [| reflexivity].
  destruct (items response) as [t|[ds|]]; reflexivity.
Qed.

Lemma heard_no_write msg ev ls : List.filter is_write (heard msg ev ls) = [].
Proof.
  unfold heard. induction ls as [|l ls IH]; simpl; [reflexivity |].
  destruct (call l ev); simpl; exact IH.
Qed.

Lemma announced_no_write p b : List.filter is_write (base_announced p b) = [].
Proof.
  unfold base_announced, base_heard.
  destruct (p_status p) as [[]|]; simpl; try reflexivity; apply heard_no_write.
Qed.

Lemma base_heard_no_write event data b : List.filter is_write (base_heard event data b) = [].
Proof. apply heard_no_write. Qed.

Lemma filter_map_LocalPut ds : List.filter is_write (map LocalPut ds) = map LocalPut ds.
Proof. induction ds; simpl; congruence. Qed.

Lemma filter_map_RemotePut ds : List.filter is_write (map RemotePut ds) = map RemotePut ds.
Proof. induction ds; simpl; congruence. Qed.

End RemoteStoragePass.

Section RemoteStorageSteps.

Import SyncAdapter Host Registry RemoteStorageAdapter RemoteStorageRun.

Lemma rs_triggerSync_run env a w d i k :
  localDB a = Some d -> remoteInfo a = Some i -> token_ a = Some k ->
  exists os,
    triggerSync env (a, w)
    = (Normal tt, (rs_with (pass_status env (BaseSyncAdapter.status (base a))) a, log os w))
    /\ List.filter is_write os = pass_writes env.
Proof.
  intros Hd Hi Hk. unfold triggerSync, rs_with, pass_status, pass_failure, checkpoint, pass_writes.
  unfold bind at 1, gets at 1. rs_simpl. rewrite Hd, Hi, Hk.
  unfold try_catch, bind. rewrite rs_updateStatus_run.
  erewrite rs_listRemoteDocuments_run by (rs_simpl; eassumption).
  destruct (listed env) as [t|remoteDocs].
  { rewrite rs_updateStatus_run; rs_simpl. rewrite rs_dispatchEvent_run, !log_log.
    eexists; split; [reflexivity |].
    rewrite !List.filter_app, !announced_no_write, base_heard_no_write. reflexivity. }
  rewrite rs_updateStatus_run; rs_simpl.
  destruct (allDocs env) as [t|localDocs]; rs_simpl.
  { rewrite rs_updateStatus_run; rs_simpl. rewrite rs_dispatchEvent_run, !log_log.
    eexists; split; [reflexivity |].
    rewrite !List.filter_app, !announced_no_write, base_heard_no_write. reflexivity. }
  rewrite rs_updateStatus_run; rs_simpl. rewrite rs_pull_run.
  destruct (pulled env localDocs remoteDocs) as [ds [t|]]; rs_simpl.
  { rewrite rs_updateStatus_run; rs_simpl. rewrite rs_dispatchEvent_run, !log_log.
    eexists; split; [reflexivity |].
    rewrite !List.filter_app, !announced_no_write, base_heard_no_write, filter_map_LocalPut.
    now rewrite !app_nil_r. }
  erewrite rs_push_run by (rs_simpl; eassumption).
  destruct (pushed env remoteDocs localDocs) as [us [t|]]; rs_simpl.
  { rewrite rs_updateStatus_run; rs_simpl. rewrite rs_dispatchEvent_run, !log_log.
    eexists; split; [reflexivity |].
    rewrite !List.filter_app, !announced_no_write, base_heard_no_write,
      filter_map_LocalPut, filter_map_RemotePut.
    now rewrite !app_nil_r. }
  rewrite rs_updateStatus_run; rs_simpl. rewrite rs_dispatchEvent_run, !log_log.
  eexists; split; [reflexivity |].
  rewrite !List.filter_app, !announced_no_write, base_heard_no_write,
    filter_map_LocalPut, filter_map_RemotePut.
  now rewrite !app_nil_r.
Qed.

End RemoteStorageSteps.

Section RemoteStorageMoves.

Import SyncAdapter Host Registry RemoteStorageAdapter RemoteStorageRun.

(** A pass either refuses to start, leaving everything as it was, or runs
    and ends in [pass_status]. *)
Lemma rs_triggerSync_cases env a w :
  (triggerSync env (a, w) = (Throw (JS.Error "未连接到RemoteStorage服务器"), (a, w))
   /\ (localDB a = None \/ remoteInfo a = None \/ token_ a = None))
  \/ (exists os,
        triggerSync env (a, w)
        = (Normal tt,
           (rs_with (pass_status env (BaseSyncAdapter.status (base a))) a, log os w))
        /\ List.filter is_write os = pass_writes env).
Proof.
  destruct (localDB a) as [d|] eqn:Hd; [destruct (remoteInfo a) as [i|] eqn:Hi;
    [destruct (token_ a) as [k|] eqn:Hk |] |].
  - right. exact (rs_triggerSync_run env a w d i k Hd Hi Hk).
  - left. unfold triggerSync, bind, gets; simpl. rewrite Hd, Hi, Hk. auto.
  - left. unfold triggerSync, bind, gets; simpl. rewrite Hd, Hi. auto.
  - left. unfold triggerSync, bind, gets; simpl. rewrite Hd. auto.
Qed.

Lemma rs_step_moves op s :
  rs_moves (getSyncStatus (fst s)) (getSyncStatus (fst (step op s))).
Proof.
  destruct s as [a w]. destruct op; unfold step.
  - unfold connect. rs_run; solve [apply rs_connected | apply rs_refused].
  - unfold startSync. rs_run; try apply rs_stays.
    all: match goal with
         | |- context [triggerSync ?env (?a', ?w')] =>
             destruct (rs_triggerSync_cases env a' w') as [[_ [H|[H|H]]]|(os & -> & _)];
               [rs_simpl; congruence .. |]
         end.
    all: rs_run; apply rs_passed.
  - unfold stopSync. rs_run; apply rs_stopped.
  - rs_simpl. destruct (timers w); rs_simpl; [apply rs_stays |].
    unfold tick, try_catch.
    destruct (rs_triggerSync_cases env a w) as [[-> _]|(os & -> & _)].
    + rs_run. apply rs_tick_failed.
    + rs_run. apply rs_passed.
  - rs_simpl. unfold addEventListener. rs_simpl. apply rs_stays.
  - rs_simpl. unfold removeEventListener, BaseSyncAdapter.removeEventListener.
    rs_run; apply rs_stays.
Qed.

End RemoteStorageMoves.

(** ** The merge engine *)

Section MergeFacts.

Import SyncAdapter Host Registry RemoteStorageAdapter.

Lemma str_gt_irrefl v : JS.str_gt v v = false.
Proof.
  induction v as [|c v IH]; simpl; [reflexivity |].
  now rewrite Nat.ltb_irrefl.
Qed.

Lemma str_gt_asym a b : JS.str_gt a b = true -> JS.str_gt b a = false.
Proof.
  revert b. induction a as [|x a IH]; intros [|y b]; simpl; try discriminate; auto.
  destruct (nat_of_ascii y <? nat_of_ascii x)%nat eqn:Hyx.
  - intros _. apply Nat.ltb_lt in Hyx.
    destruct (nat_of_ascii x <? nat_of_ascii y)%nat eqn:Hxy; [| reflexivity].
    apply Nat.ltb_lt in Hxy. lia.
  - destruct (nat_of_ascii x <? nat_of_ascii y)%nat eqn:Hxy; [discriminate |].
    apply IH.
Qed.

Lemma find_row_unique localDocs l :
  List.NoDup (map id localDocs) -> In l localDocs -> find_row localDocs (id l) = Some l.
Proof.
  unfold find_row. induction localDocs as [|x rest IH]; simpl; [tauto |].
  intros Hnd [->|Hin].
  - now rewrite String.eqb_refl.
  - inversion Hnd as [|? ? Hx Hrest]; subst.
    destruct (String.eqb (id x) (id l)) eqn:E.
    + apply String.eqb_eq in E. exfalso. apply Hx. rewrite E. now apply in_map.
    + now apply IH.
Qed.

Lemma find_doc_unique remoteDocs d :
  List.NoDup (map _id remoteDocs) -> In d remoteDocs -> find_doc remoteDocs (_id d) = Some d.
Proof.
  unfold find_doc. induction remoteDocs as [|x rest IH]; simpl; [tauto |].
  intros Hnd [->|Hin].
  - now rewrite String.eqb_refl.
  - inversion Hnd as [|? ? Hx Hrest]; subst.
    destruct (String.eqb (_id x) (_id d)) eqn:E.
    + apply String.eqb_eq in E. exfalso. apply Hx. rewrite E. now apply in_map.
    + now apply IH.
Qed.

Lemma pulled_in env localDocs remoteDocs x :
  In x (fst (pulled env localDocs remoteDocs)) ->
  In x remoteDocs /\ remote_wins localDocs x = true.
Proof.
  induction remoteDocs as [|d rest IH]; simpl; [tauto |].
  destruct (remote_wins localDocs d) eqn:Hwin.
  - destruct (put env d).
    + simpl. intros [<-|[]]. auto.
    + destruct (pulled env localDocs rest) as [ds r]; simpl in *.
      intros [<-|Hin]; [auto |]. destruct (IH Hin); auto.
  - intros Hin. destruct (IH Hin); auto.
Qed.

Lemma pushed_in env remoteDocs localDocs x :
  In x (fst (pushed env remoteDocs localDocs)) ->
  exists row, In row localDocs /\ local_wins remoteDocs row = Some x.
Proof.
  induction localDocs as [|row rest IH]; simpl; [tauto |].
  destruct (local_wins remoteDocs row) as [d|] eqn:Hwin.
  - destruct (uploaded env d).
    + simpl. intros [<-|[]]. exists row. auto.
    + destruct (pushed env remoteDocs rest) as [ds r]; simpl in *.
      intros [<-|Hin]; [exists row; auto |].
      destruct (IH Hin) as (row' & ? & ?). exists row'. auto.
  - intros Hin. destruct (IH Hin) as (row' & ? & ?). exists row'. auto.
Qed.

(** When the local store accepts every put, step 3 reaches every remote
    document that wins. *)
Lemma pulled_all env localDocs remoteDocs :
  (forall d, In d remoteDocs -> put env d = None) ->
  pulled env localDocs remoteDocs = (List.filter (remote_wins localDocs) remoteDocs, None).
Proof.
  induction remoteDocs as [|d rest IH]; simpl; intros Hput; [reflexivity |].
  rewrite IH by auto. destruct (remote_wins localDocs d); [| reflexivity].
  now rewrite (Hput d) by auto.
Qed.

Lemma local_wins_doc remoteDocs row x :
  local_wins remoteDocs row = Some x -> doc row = Some x.
Proof.
  unfold local_wins. destruct (doc row) as [d|]; [| discriminate].
  destruct (negb (JS.truthy_str (_rev d))); [discriminate |].
  destruct (find_doc remoteDocs (id row)) as [r|].
  - destruct (JS.gt (_rev d) (_rev r)); congruence.
  - congruence.
Qed.

(** The store calls of a pass, whatever state the adapter is in. *)
Lemma pass_observed env a w o :
  In o (since w (snd (state (triggerSync env (a, w))))) ->
  is_write o = true -> In o (pass_writes env).
Proof.
  destruct (rs_triggerSync_cases env a w) as [[-> _]|(os & -> & Hw)]; simpl.
  - unfold since. rewrite drop_all. intros [].
  - rewrite since_log. intros Hin Ho. rewrite <- Hw. apply filter_In. auto.
Qed.

Lemma pass_writes_local env x :
  In (LocalPut x) (pass_writes env) ->
  In x (fetched env) /\ remote_wins (rows env) x = true.
Proof.
  unfold pass_writes, fetched, rows.
  destruct (listed env) as [t|remoteDocs]; [intros [] |].
  destruct (allDocs env) as [t|localDocs]; [intros [] |].
  pose proof (pulled_in env localDocs remoteDocs x) as Hp.
  destruct (pulled env localDocs remoteDocs) as [ds r]; simpl in Hp.
  intros Hin. apply in_app_or in Hin as [Hin|Hin].
  - apply in_map_iff in Hin as (y & [= ->] & Hy). auto.
  - destruct r; [destruct Hin |].
    apply in_map_iff in Hin as (y & Hy & _). discriminate.
Qed.

Lemma pass_writes_remote env x :
  In (RemotePut x) (pass_writes env) ->
  exists row, In row (rows env) /\ local_wins (fetched env) row = Some x.
Proof.
  unfold pass_writes, fetched, rows.
  destruct (listed env) as [t|remoteDocs]; [intros [] |].
  destruct (allDocs env) as [t|localDocs]; [intros [] |].
  destruct (pulled env localDocs remoteDocs) as [ds r].
  intros Hin. apply in_app_or in Hin as [Hin|Hin].
  - apply in_map_iff in Hin as (y & Hy & _). discriminate.
  - destruct r; [destruct Hin |].
    apply in_map_iff in Hin as (y & [= ->] & Hy).
    now apply pushed_in in Hy.
Qed.

End MergeFacts.

Section MergeProperties.

Import SyncAdapter Host Registry RemoteStorageAdapter.

(** C4.  One reconciliation pass writes nothing for a local and a remote
    document that share an identifier and carry the same revision marker:
    among the store calls of the pass there is no put into the local store
    and no put to the remote store under that identifier.  (Identifiers
    identify, [Spec.consistent]; a marker is a non-empty string, the empty
    one being what the pass treats as absent.) *)
Theorem reconcile_equal_markers_no_write :
  forall env a w d l ld v,
    Spec.consistent env ->
    In d (fetched env) -> In l (rows env) ->
    id l = _id d -> doc l = Some ld ->
    _rev d = Some v -> _rev ld = Some v -> v <> "" ->
    forall o, In o (since w (snd (state (triggerSync env (a, w))))) ->
              write_id o <> Some (_id d).
Proof.
  intros env a w d l ld v (HndR & HndL & Hwf) Hd Hl Hid Hdoc Hrd Hrl Hv o Ho Hw.
  assert (Hne : JS.truthy_str (Some v) = true).
  { simpl. destruct (String.eqb v "") eqn:E; [apply String.eqb_eq in E; congruence | reflexivity]. }
  assert (His : is_write o = true) by (destruct o; simpl in *; congruence).
  pose proof (pass_observed env a w o Ho His) as Hin.
  destruct o as [| |x|x| | | | | |]; simpl in Hw; try discriminate; injection Hw as Hx.
  - (* a put into the local store *)
    apply pass_writes_local in Hin as [HxR Hwin].
    assert (x = d) as ->.
    { pose proof (find_doc_unique _ _ HndR HxR) as H1.
      pose proof (find_doc_unique _ _ HndR Hd) as H2. rewrite Hx in H1. congruence. }
    unfold remote_wins in Hwin. rewrite <- Hid, (find_row_unique _ _ HndL Hl), Hdoc in Hwin.
    rewrite Hrl, Hne, Hrd in Hwin. simpl in Hwin. rewrite str_gt_irrefl in Hwin. discriminate.
  - (* a put to the remote store *)
    apply pass_writes_remote in Hin as (row & Hrow & Hwin).
    pose proof (local_wins_doc _ _ _ Hwin) as Hrowdoc.
    assert (row = l) as ->.
    { pose proof (find_row_unique _ _ HndL Hrow) as H1.
      pose proof (find_row_unique _ _ HndL Hl) as H2.
      rewrite <- (Hwf _ _ Hrow Hrowdoc), Hx, <- Hid in H1. congruence. }
    unfold local_wins in Hwin. rewrite Hdoc, Hrl, Hne in Hwin. simpl in Hwin.
    rewrite Hid, (find_doc_unique _ _ HndR Hd), Hrd in Hwin. simpl in Hwin.
    rewrite str_gt_irrefl in Hwin. discriminate.
Qed.

(** C5.  In a pass of a connected adapter whose local store accepts the
    puts, a remote document whose marker sorts above the marker of the
    local document with the same identifier (["2"] above ["1"]) is put
    into the local store, and nothing is put to the remote store under
    that identifier. *)
Theorem reconcile_remote_newer_wins :
  forall env a w db i k d l ld rv lv,
    localDB a = Some db -> remoteInfo a = Some i -> token_ a = Some k ->
    (forall x, In x (fetched env) -> put env x = None) ->
    Spec.consistent env ->
    In d (fetched env) -> In l (rows env) ->
    id l = _id d -> doc l = Some ld ->
    _rev d = Some rv -> _rev ld = Some lv -> JS.str_gt rv lv = true ->
    In (LocalPut d) (since w (snd (state (triggerSync env (a, w))))) /\
    forall x, In (RemotePut x) (since w (snd (state (triggerSync env (a, w))))) ->
              _id x <> _id d.
Proof.
  intros env a w db i k d l ld rv lv Hdb Hi Hk Hput (HndR & HndL & Hwf)
    Hd Hl Hid Hdoc Hrd Hrl Hgt.
  assert (Hwin : remote_wins (rows env) d = true).
  { unfold remote_wins. rewrite <- Hid, (find_row_unique _ _ HndL Hl), Hdoc, Hrd, Hrl.
    simpl. rewrite Hgt. apply orb_true_r. }
  split.
  - destruct (rs_triggerSync_run env a w db i k Hdb Hi Hk) as (os & -> & Hw); simpl.
    rewrite since_log.
    assert (In (LocalPut d) (pass_writes env)) as Hin; [| rewrite <- Hw in Hin;
      now apply filter_In in Hin].
    unfold pass_writes. unfold fetched in Hd, Hput. unfold rows in Hl, Hwin.
    destruct (listed env) as [t|remoteDocs]; [destruct Hd |].
    destruct (allDocs env) as [t|localDocs]; [destruct Hl |].
    rewrite (pulled_all env localDocs remoteDocs Hput).
    apply in_or_app. left. apply in_map. apply filter_In. auto.
  - intros x Hx Hidx.
    pose proof (pass_observed env a w _ Hx eq_refl) as Hin.
    apply pass_writes_remote in Hin as (row & Hrow & Hlw).
    pose proof (local_wins_doc _ _ _ Hlw) as Hrowdoc.
    assert (row = l) as ->.
    { pose proof (find_row_unique _ _ HndL Hrow) as H1.
      pose proof (find_row_unique _ _ HndL Hl) as H2.
      rewrite <- (Hwf _ _ Hrow Hrowdoc), Hidx, <- Hid in H1. congruence. }
    unfold local_wins in Hlw. rewrite Hdoc, Hrl in Hlw.
    destruct (negb (JS.truthy_str (Some lv))); [discriminate |].
    rewrite Hid, (find_doc_unique _ _ HndR Hd), Hrd in Hlw. simpl in Hlw.
    rewrite (str_gt_asym _ _ Hgt) in Hlw. discriminate.
Qed.

(** C4 on two documents ["a"] with marker ["1"]. *)
Lemma reconcile_equal_markers_no_write_witness :
  Forall (fun o => write_id o <> Some "a")
    (since boot
       (snd (state (RemoteStorageAdapter.triggerSync
                      (pass [note "a" "1" "remote"] [note "a" "1" "local"])
                      (attached, boot))))).
Proof.
  apply List.Forall_forall. intros o Ho.
  apply (reconcile_equal_markers_no_write
           (pass [note "a" "1" "remote"] [note "a" "1" "local"]) attached boot
           (note "a" "1" "remote") (filed (note "a" "1" "local")) (note "a" "1" "local") "1").
  - split; [| split].
    + repeat constructor. intros [].
    + repeat constructor. intros [].
    + intros row d [<-|[]] [= <-]. reflexivity.
  - left. reflexivity.
  - left. reflexivity.
  - reflexivity.
  - reflexivity.
  - reflexivity.
  - reflexivity.
  - discriminate.
  - exact Ho.
Defined.

(** C5 on a remote ["a"] with marker ["2"] and a local ["a"] with marker
    ["1"]. *)
Lemma reconcile_remote_newer_wins_witness :
  JS.str_gt "2" "1" = true /\
  In (LocalPut (note "a" "2" "remote"))
     (since boot
        (snd (state (RemoteStorageAdapter.triggerSync
                       (pass [note "a" "2" "remote"] [note "a" "1" "local"])
                       (attached, boot))))) /\
  Forall (fun o => forall x, o = RemotePut x -> _id x <> "a")
     (since boot
        (snd (state (RemoteStorageAdapter.triggerSync
                       (pass [note "a" "2" "remote"] [note "a" "1" "local"])
                       (attached, boot))))).
Proof.
  assert (H : In (LocalPut (note "a" "2" "remote"))
                 (since boot
                    (snd (state (RemoteStorageAdapter.triggerSync
                                   (pass [note "a" "2" "remote"] [note "a" "1" "local"])
                                   (attached, boot))))) /\
              forall x,
                In (RemotePut x)
                   (since boot
                      (snd (state (RemoteStorageAdapter.triggerSync
                                     (pass [note "a" "2" "remote"] [note "a" "1" "local"])
                                     (attached, boot))))) ->
                _id x <> _id (note "a" "2" "remote")).
  { apply (reconcile_remote_newer_wins
             (pass [note "a" "2" "remote"] [note "a" "1" "local"]) attached boot
             1 endpoint {| RemoteStorageAdapter.accessToken := "test-token";
                           RemoteStorageAdapter.tokenType := "Bearer" |}
             (note "a" "2" "remote") (filed (note "a" "1" "local")) (note "a" "1" "local")
             "2" "1").
    - reflexivity.
    - reflexivity.
    - reflexivity.
    - intros x _. reflexivity.
    - split; [| split].
      + repeat constructor. intros [].
      + repeat constructor. intros [].
      + intros row d [<-|[]] [= <-]. reflexivity.
    - left. reflexivity.
    - left. reflexivity.
    - reflexivity.
    - reflexivity.
    - reflexivity.
    - reflexivity.
    - reflexivity. }
  destruct H as [H1 H2].
  split; [reflexivity | split; [exact H1 |]].
  apply List.Forall_forall. intros o Ho x ->. now apply H2.
Defined.

End MergeProperties.

(** ** Status, across operations *)

Section StatusFacts.

Import SyncAdapter Host Registry.



Lemma rs_moves_carries st st' :
  rs_moves st st' -> Spec.status_carries st -> Spec.status_carries st'.
Proof.
  unfold Spec.status_carries.
  intros Hm (H1 & H2 & H3); destruct Hm; simpl; repeat split; intros; try tauto;
    try discriminate; try (intuition discriminate).
  all: unfold pass_status in *; destruct (pass_failure env); simpl in *;
    try discriminate; try reflexivity; intuition discriminate.
Qed.

Lemma dav_moves_carries w st st' :
  dav_moves w st st' ->
  (WebDAVRun.listening w = true -> progress st <> None) ->
  Spec.status_carries st -> Spec.status_carries st'.
Proof.
  unfold Spec.status_carries.
  intros Hm Hl (H1 & H2 & H3); destruct Hm; simpl; repeat split; intros; try tauto;
    try discriminate; try (intuition discriminate); auto.
Qed.

Lemma dav_moves_keeps_progress w st st' :
  dav_moves w st st' -> progress st <> None -> progress st' <> None.
Proof. intros Hm Hp; destruct Hm; simpl; auto; discriminate. Qed.

Lemma dav_step_inv op s : Spec.dav_inv s -> Spec.dav_inv (WebDAVRun.step op s).
Proof.
  intros [Hc Hl]. pose proof (dav_step_moves op s) as Hm. split.
  - eapply dav_moves_carries; eauto.
  - intros Hl'. destruct (dav_step_listening op s Hl') as [H|H]; [| exact H].
    eapply dav_moves_keeps_progress; eauto.
Qed.

Lemma dav_run_inv ops s : Spec.dav_inv s -> Spec.dav_inv (WebDAVRun.run ops s).
Proof.
  revert s. induction ops as [|op ops IH]; intros s H; simpl; [exact H |].
  apply IH. now apply dav_step_inv.
Qed.

Lemma rs_run_carries ops s :
  Spec.status_carries (RemoteStorageAdapter.getSyncStatus (fst s)) ->
  Spec.status_carries (RemoteStorageAdapter.getSyncStatus (fst (RemoteStorageRun.run ops s))).
Proof.
  revert s. induction ops as [|op ops IH]; intros s H; simpl; [exact H |].
  apply IH. eapply rs_moves_carries; [apply rs_step_moves | exact H].
Qed.

End StatusFacts.

(** ** [stopSync] *)

Section HaltFacts.

Import SyncAdapter Host Registry.

Lemma calls_log event l os w :
  calls event l (trace (log os w)) = calls event l (trace w) + calls event l os.
Proof. unfold log; simpl. apply calls_app. Qed.

Lemma calls_emit event l o w :
  (forall n ev, o <> ListenerCalled n ev) ->
  calls event l (trace (emit o w)) = calls event l (trace w).
Proof.
  intros Ho. unfold emit; simpl. rewrite calls_app.
  destruct o; try (unfold calls at 2; simpl; lia). exfalso. eapply Ho. reflexivity.
Qed.

Lemma calls_clearInterval event l t w :
  calls event l (trace (clearInterval t w)) = calls event l (trace w).
Proof. unfold clearInterval; simpl. rewrite calls_app. unfold calls at 2; simpl. lia. Qed.

Lemma calls_dav_heard event data a l :
  calls event l (dav_heard event data a) = registered l (dav_listeners event a).
Proof. unfold dav_heard. apply (calls_heard _ (dav_event event data a)). Qed.

Lemma calls_base_heard event data b l :
  calls event l (base_heard event data b) = registered l (base_listeners event b).
Proof. unfold base_heard. apply (calls_heard _ (base_event event data)). Qed.

Lemma calls_dav_released event l a w :
  calls event l (trace (dav_released a w)) = calls event l (trace w).
Proof.
  unfold dav_released.
  destruct (WebDAVAdapter.autoSyncTimer a), (WebDAVAdapter.syncHandler a),
    (WebDAVAdapter.remoteDB a);
    rewrite ?calls_emit, ?calls_clearInterval by discriminate; reflexivity.
Qed.

Lemma calls_rs_released event l a w :
  calls event l (trace (rs_released a w)) = calls event l (trace w).
Proof.
  unfold rs_released. destruct (rs_armed a); rewrite ?calls_clearInterval; reflexivity.
Qed.

Lemma dav_stopSync_run a w :
  WebDAVAdapter.stopSync (a, w)
  = (Normal tt,
     (dav_halted a, log (dav_heard "sync-stopped" nothing (dav_halted a)) (dav_released a w))).
Proof.
  unfold WebDAVAdapter.stopSync, dav_halted, dav_released.
  destruct a as [st ls cl cfg ldb rdb h t].
  destruct t, h, rdb;
    cbn -[dav_heard log emit clearInterval WebDAVAdapter.triggerEvent];
    rewrite dav_triggerEvent_run; reflexivity.
Qed.

Lemma rs_stopSync_run a w :
  RemoteStorageAdapter.stopSync (a, w)
  = (Normal tt,
     (rs_halted a,
      log (base_heard "sync-stopped" nothing (RemoteStorageAdapter.base (rs_halted a)))
          (rs_released a w))).
Proof.
  unfold RemoteStorageAdapter.stopSync, rs_halted, rs_released, rs_armed.
  destruct a as [b ldb rdb cfg t i k].
  destruct t as [[|t]|];
    cbn -[base_heard log emit clearInterval base_announced
          RemoteStorageAdapter.updateStatus RemoteStorageAdapter.dispatchEvent];
    unfold bind; rewrite rs_updateStatus_run;
    cbn -[base_heard log emit clearInterval
          RemoteStorageAdapter.updateStatus RemoteStorageAdapter.dispatchEvent];
    rewrite rs_dispatchEvent_run, log_nil; reflexivity.
Qed.

Lemma dav_halted_twice a : dav_halted (dav_halted a) = dav_halted a.
Proof. reflexivity. Qed.

Lemma rs_halted_twice a : rs_halted (rs_halted a) = rs_halted a.
Proof.
  unfold rs_halted, rs_armed. destruct a as [b ldb rdb cfg t i k].
  destruct t as [[|t]|]; reflexivity.
Qed.

End HaltFacts.

(** ** The precondition of [startSync] *)

Section PreconditionFacts.

Import SyncAdapter Host Registry.

Lemma rs_startSync_guard a w db env :
  RemoteStorageAdapter.config a = None \/
  RemoteStorageAdapter.remoteInfo a = None \/
  RemoteStorageAdapter.token_ a = None ->
  RemoteStorageAdapter.startSync db env (a, w)
  = (Throw (JS.Error "请先连接到RemoteStorage服务器"), (a, w)).
Proof.
  unfold RemoteStorageAdapter.startSync, bind, gets; simpl.
  intros [H|[H|H]]; rewrite H;
    destruct (RemoteStorageAdapter.config a); try reflexivity;
    destruct (RemoteStorageAdapter.remoteInfo a); reflexivity.
Qed.

(** Only a [connect] that gets past discovery and the token check stores
    the connection information. *)
Lemma rs_step_keeps_remoteInfo op s :
  RemoteStorageRun.never_stored op = true ->
  RemoteStorageAdapter.remoteInfo (fst (RemoteStorageRun.step op s))
  = RemoteStorageAdapter.remoteInfo (fst s).
Proof.
  destruct s as [a w]. destruct op; unfold RemoteStorageRun.step; intros Hop.
  - unfold RemoteStorageRun.never_stored, RemoteStorageRun.stops_early in Hop.
    unfold RemoteStorageAdapter.connect.
    rs_run; solve [reflexivity | assumption | discriminate].
  - unfold RemoteStorageAdapter.startSync.
    rs_run; try solve [reflexivity | assumption].
    all: match goal with
         | |- context [RemoteStorageAdapter.triggerSync ?env (?a', ?w')] =>
             destruct (rs_triggerSync_cases env a' w') as [[HH _]|(os & HH & _)];
               rewrite HH; clear HH
         end; rs_run; solve [reflexivity | assumption].
  - rewrite rs_stopSync_run. unfold rs_halted. destruct (rs_armed a); reflexivity.
  - rs_simpl. destruct (timers w); rs_simpl; [reflexivity |].
    unfold RemoteStorageAdapter.tick, try_catch.
    destruct (rs_triggerSync_cases env a w) as [[HH _]|(os & HH & _)];
      rewrite HH; clear HH; rs_run; solve [reflexivity | assumption].
  - reflexivity.
  - reflexivity.
Qed.

Lemma rs_run_keeps_remoteInfo ops s :
  forallb RemoteStorageRun.never_stored ops = true ->
  RemoteStorageAdapter.remoteInfo (fst (RemoteStorageRun.run ops s))
  = RemoteStorageAdapter.remoteInfo (fst s).
Proof.
  revert s. induction ops as [|op ops IH]; intros s; simpl; [reflexivity |].
  intros H. apply andb_true_iff in H as [Hop Hops].
  rewrite IH by assumption. now apply rs_step_keeps_remoteInfo.
Qed.

(** The WebDAV adapter records the failed precondition before rethrowing. *)
Lemma dav_startSync_unconfigured a w db env :
  WebDAVAdapter.config a = None ->
  WebDAVAdapter.startSync db env (a, w)
  = (Throw (JS.Error "未配置WebDAV连接"),
     (WebDAVAdapter.set_syncStatus
        (spread (WebDAVAdapter.syncStatus a)
                (WebDAVAdapter.failed (JS.Error "未配置WebDAV连接") "同步失败")) a,
      log (dav_heard "sync-error"
             (WebDAVAdapter.error_payload (JS.Error "未配置WebDAV连接") "同步失败")
             (WebDAVAdapter.set_syncStatus
                (spread (WebDAVAdapter.syncStatus a)
                        (WebDAVAdapter.failed (JS.Error "未配置WebDAV连接") "同步失败")) a))
          w)).
Proof.
  intros H. unfold WebDAVAdapter.startSync. dav_run. reflexivity.
Qed.

Lemma dav_step_keeps_config op s :
  WebDAVRun.is_connect op = false ->
  WebDAVAdapter.config (fst (WebDAVRun.step op s)) = WebDAVAdapter.config (fst s).
Proof.
  destruct s as [a w]. destruct op; try discriminate; intros _;
    unfold WebDAVRun.step, WebDAVAdapter.startSync, WebDAVAdapter.setupAutoSync,
      WebDAVAdapter.stopSync, WebDAVAdapter.tick, WebDAVAdapter.triggerSync,
      WebDAVAdapter.on_change, WebDAVAdapter.on_paused, WebDAVAdapter.on_active,
      WebDAVAdapter.on_denied, WebDAVAdapter.on_complete, WebDAVAdapter.on_error,
      WebDAVAdapter.addEventListener, WebDAVAdapter.removeEventListener;
    dav_run; solve [reflexivity | congruence].
Qed.

Lemma dav_run_keeps_config ops s :
  forallb (fun op => negb (WebDAVRun.is_connect op)) ops = true ->
  WebDAVAdapter.config (fst (WebDAVRun.run ops s)) = WebDAVAdapter.config (fst s).
Proof.
  revert s. induction ops as [|op ops IH]; intros s; simpl; [reflexivity |].
  intros H. apply andb_true_iff in H as [Hop Hops].
  rewrite IH by assumption. apply dav_step_keeps_config. now apply negb_true_iff.
Qed.

End PreconditionFacts.

Section PreconditionConverse.

Import SyncAdapter Host Registry.

(** Once the three fields are there, [startSync] runs its pass and ends
    normally, whatever the pass meets. *)
Lemma rs_startSync_runs a w db env c i k :
  RemoteStorageAdapter.config a = Some c ->
  RemoteStorageAdapter.remoteInfo a = Some i ->
  RemoteStorageAdapter.token_ a = Some k ->
  result (RemoteStorageAdapter.startSync db env (a, w)) = Normal tt.
Proof.
  intros Hc Hi Hk. unfold RemoteStorageAdapter.startSync. rs_run.
  all: match goal with
       | |- context [RemoteStorageAdapter.triggerSync ?env (?a', ?w')] =>
           destruct (rs_triggerSync_run env a' w' db i k) as (os & HH & _);
             [reflexivity | assumption | assumption |]; rewrite HH; clear HH
       end; rs_run; reflexivity.
Qed.

(** A [connect] that gets past discovery and the token check has stored
    configuration, endpoint and token, whether or not it goes on to
    succeed. *)
Lemma rs_connect_stores cfg cenv a w info :
  RemoteStorageAdapter.discovery cenv = inr info ->
  JS.truthy (JS.str (RemoteStorageAdapter.token cfg)) = true ->
  let a' := fst (state (RemoteStorageAdapter.connect cfg cenv (a, w))) in
  RemoteStorageAdapter.config a' = Some cfg /\
  RemoteStorageAdapter.remoteInfo a' = Some info /\
  RemoteStorageAdapter.token_ a'
  = Some {| RemoteStorageAdapter.accessToken := RemoteStorageAdapter.token cfg;
            RemoteStorageAdapter.tokenType := "Bearer" |}.
Proof.
  intros Hd Ht a'. subst a'. unfold RemoteStorageAdapter.connect.
  rs_run; try discriminate;
    try (rewrite Ht in *; discriminate); repeat split; congruence.
Qed.

Lemma dav_connect_stores cfg a w :
  WebDAVAdapter.config (fst (state (WebDAVAdapter.connect cfg (a, w)))) = Some cfg.
Proof.
  unfold WebDAVAdapter.connect, WebDAVAdapter.checkConnection. dav_run; reflexivity.
Qed.

Lemma dav_startSync_runs a w db env cfg :
  WebDAVAdapter.config a = Some cfg ->
  WebDAVAdapter.open_remote env = None ->
  WebDAVAdapter.replicate env = None ->
  result (WebDAVAdapter.startSync db env (a, w)) = Normal tt.
Proof.
  intros Hc Ho Hr. unfold WebDAVAdapter.startSync, WebDAVAdapter.setupAutoSync.
  dav_run; solve [reflexivity | congruence].
Qed.

End PreconditionConverse.

(** ** The properties of the specification, one by one *)

Section Statements.

Import SyncAdapter Host Registry.




(** C10.  On a report whose two counters are 0, [calculateProgress] takes
    the numeric branch, divides 0 by 0 and returns NaN: not the fallback
    50 and no integer from 0 to 99. *)
Theorem calculateProgress_zero_counters :
  JS.typeof_number (JS.get (Progress.report 0%float 0%float) "docs_read") = true /\
  JS.typeof_number (JS.get (Progress.report 0%float 0%float) "docs_written") = true /\
  Progress.calculateProgress (Progress.report 0%float 0%float) = nan /\
  Progress.calculateProgress (Progress.report 0%float 0%float) <> 50%float /\
  forall n : nat, n <= 99 ->
    Progress.calculateProgress (Progress.report 0%float 0%float) <> JS.of_Z (Z.of_nat n).
Proof.
  assert (Hnan : Progress.calculateProgress (Progress.report 0%float 0%float) = nan)
    by (vm_compute; reflexivity).
  repeat split; try reflexivity; try exact Hnan.
  - rewrite Hnan. intros H. apply (f_equal PrimFloat.is_nan) in H.
    vm_compute in H. discriminate H.
  - intros n Hn. rewrite Hnan. intros H. apply (f_equal PrimFloat.is_nan) in H.
    assert (Hall : forallb (fun k => negb (PrimFloat.is_nan (JS.of_Z (Z.of_nat k))))
                           (List.seq 0 100) = true) by (vm_compute; reflexivity).
    rewrite forallb_forall in Hall.
    specialize (Hall n). rewrite <- H in Hall.
    assert (Hin : In n (List.seq 0 100)) by (apply in_seq; lia).
    apply Hall in Hin. vm_compute in Hin. discriminate Hin.
Qed.

Lemma calculateProgress_zero_counters_witness :
  50 <= 99 /\
  Progress.calculateProgress (Progress.report 0%float 0%float) <> JS.of_Z (Z.of_nat 50).
Proof.
  destruct calculateProgress_zero_counters as (_ & _ & _ & _ & H).
  split; [apply Nat.leb_le; reflexivity |].
  apply (H 50). apply Nat.leb_le. reflexivity.
Defined.

(** C8.  A dispatch to any number of listeners ends normally whatever the
    listeners do: every registered listener is called, in registration
    order and once per registration, a throw is caught and reported on the
    console, and the dispatching method itself never throws. *)
Theorem dispatch_isolates_listeners :
  (forall event data a w,
     BaseSyncAdapter.dispatchEvent event data (a, w)
     = (Normal tt, (a, log (base_heard event data a) w))) /\
  (forall event data a w,
     WebDAVAdapter.triggerEvent event data (a, w)
     = (Normal tt, (a, log (dav_heard event data a) w))) /\
  (forall msg ev ls l,
     In l ls ->
     In (ListenerCalled (lid l) ev) (heard msg ev ls) /\
     calls (type ev) (lid l) (heard msg ev ls) = registered (lid l) ls /\
     forall t, call l ev = Some t -> In (ConsoleError msg t) (heard msg ev ls)).
Proof.
  split; [| split].
  - apply base_dispatchEvent_run.
  - apply dav_triggerEvent_run.
  - intros msg ev ls l Hin. split; [| split].
    + now apply heard_called.
    + apply calls_heard.
    + intros t Ht. now apply heard_reported with (l := l).
Qed.

Lemma dispatch_isolates_listeners_witness :
  let ev := base_event "test-event" nothing in
  In (ListenerCalled 2 ev) (heard "Error in event listener for test-event:" ev
                                  [faulty 1; quiet 2]) /\
  In (ConsoleError "Error in event listener for test-event:" (JS.Error "监听器错误"))
     (heard "Error in event listener for test-event:" ev [faulty 1; quiet 2]).
Proof.
  intros ev. destruct dispatch_isolates_listeners as (_ & _ & H).
  split.
  - apply (H "Error in event listener for test-event:" ev [faulty 1; quiet 2] (quiet 2)).
    right. left. reflexivity.
  - apply (H "Error in event listener for test-event:" ev [faulty 1; quiet 2] (faulty 1)).
    + left. reflexivity.
    + reflexivity.
Defined.

(** C9.  [updateStatus] merges by spread: the new status is
    [{ ...previous, ...partial }], so a field the partial update does not
    name keeps its previous value; in particular a recorded error is still
    there after an update to [connecting], [connected] or [idle]. *)
Theorem updateStatus_keeps_unnamed_fields :
  (forall p a w,
     let a' := fst (state (BaseSyncAdapter.updateStatus p (a, w))) in
     BaseSyncAdapter.status a' = spread (BaseSyncAdapter.status a) p /\
     (p_status p = None ->
      status (BaseSyncAdapter.status a') = status (BaseSyncAdapter.status a)) /\
     (p_progress p = None ->
      progress (BaseSyncAdapter.status a') = progress (BaseSyncAdapter.status a)) /\
     (p_error p = None ->
      error_ (BaseSyncAdapter.status a') = error_ (BaseSyncAdapter.status a))) /\
  (forall p a w,
     let a' := fst (state (WebDAVAdapter.updateStatus p (a, w))) in
     WebDAVAdapter.syncStatus a' = spread (WebDAVAdapter.syncStatus a) p /\
     (p_status p = None ->
      status (WebDAVAdapter.syncStatus a') = status (WebDAVAdapter.syncStatus a)) /\
     (p_progress p = None ->
      progress (WebDAVAdapter.syncStatus a') = progress (WebDAVAdapter.syncStatus a)) /\
     (p_error p = None ->
      error_ (WebDAVAdapter.syncStatus a') = error_ (WebDAVAdapter.syncStatus a))) /\
  (forall st a b w,
     In st [connecting; connected; idle] ->
     error_ (WebDAVAdapter.getSyncStatus
               (fst (state (WebDAVAdapter.updateStatus (WebDAVAdapter.only st) (a, w)))))
     = error_ (WebDAVAdapter.getSyncStatus a) /\
     error_ (RemoteStorageAdapter.getSyncStatus
               (fst (state (RemoteStorageAdapter.updateStatus
                              (RemoteStorageAdapter.only st) (b, w)))))
     = error_ (RemoteStorageAdapter.getSyncStatus b)).
Proof.
  split; [| split].
  - intros p a w. rewrite base_updateStatus_run. simpl.
    repeat split; intros H; now rewrite H.
  - intros p a w. rewrite dav_updateStatus_run. simpl.
    repeat split; intros H; now rewrite H.
  - intros st a b w _. rewrite dav_updateStatus_run, rs_updateStatus_run. split; reflexivity.
Qed.

Lemma updateStatus_keeps_unnamed_fields_witness :
  let refused :=
    fst (RemoteStorageRun.run [RemoteStorageRun.Connect account undiscovered]
                              (RemoteStorageAdapter.new, boot)) in
  error_ (RemoteStorageAdapter.getSyncStatus refused) <> None /\
  error_ (RemoteStorageAdapter.getSyncStatus
            (fst (state (RemoteStorageAdapter.updateStatus
                           (RemoteStorageAdapter.only idle) (refused, boot)))))
  = error_ (RemoteStorageAdapter.getSyncStatus refused) /\
  progress (BaseSyncAdapter.status
              (fst (state (BaseSyncAdapter.updateStatus
                             (RemoteStorageAdapter.only connecting)
                             (RemoteStorageAdapter.base refused, boot)))))
  = progress (BaseSyncAdapter.status (RemoteStorageAdapter.base refused)).
Proof.
  intros refused. destruct updateStatus_keeps_unnamed_fields as (H1 & _ & H3).
  split; [| split].
  - vm_compute. discriminate.
  - apply (H3 idle WebDAVAdapter.new refused boot). right. right. left. reflexivity.
  - apply (H1 (RemoteStorageAdapter.only connecting) (RemoteStorageAdapter.base refused) boot).
    reflexivity.
Defined.

(** C3, as the code has it.  The status an adapter starts with has neither
    progress nor error.  After any sequence of operations (connect,
    startSync, stopSync, timer ticks, the replication handle's events,
    listener registration) progress is defined whenever the status is
    [syncing] or [completed], and is 100 when it is [completed], and error
    is defined whenever the status is [error]. *)
Theorem status_fields_carried :
  Spec.status_invariant (WebDAVAdapter.getSyncStatus WebDAVAdapter.new) /\
  Spec.status_invariant (RemoteStorageAdapter.getSyncStatus RemoteStorageAdapter.new) /\
  (forall ops,
     Spec.status_carries
       (WebDAVAdapter.getSyncStatus (fst (WebDAVRun.run ops (WebDAVAdapter.new, boot))))) /\
  (forall ops,
     Spec.status_carries
       (RemoteStorageAdapter.getSyncStatus
          (fst (RemoteStorageRun.run ops (RemoteStorageAdapter.new, boot))))).
Proof.
  split; [| split; [| split]].
  - split; simpl; intros H; now elim H.
  - split; simpl; intros H; now elim H.
  - intros ops.
    apply (dav_run_inv ops (WebDAVAdapter.new, boot)).
    split.
    + repeat split; simpl; intros; intuition discriminate.
    + simpl. discriminate.
  - intros ops. apply rs_run_carries.
    repeat split; simpl; intros; intuition discriminate.
Qed.

(** C3 as stated fails: [stopSync] of the WebDAV adapter stores progress 0
    with status [idle], and an error recorded by a failed [connect] is
    still defined once a later [connect] has reached [connected]. *)
Lemma status_invariant_broken :
  ~ Spec.status_invariant
      (WebDAVAdapter.getSyncStatus
         (fst (WebDAVRun.run [WebDAVRun.StopSync] (WebDAVAdapter.new, boot)))) /\
  ~ Spec.status_invariant
      (RemoteStorageAdapter.getSyncStatus
         (fst (RemoteStorageRun.run [RemoteStorageRun.Connect account undiscovered;
                                     RemoteStorageRun.Connect account reachable]
                                    (RemoteStorageAdapter.new, boot)))).
Proof.
  split.
  - intros [H _]. vm_compute in H.
    destruct H as [H|H]; [discriminate | discriminate H | discriminate H].
  - intros [_ H]. vm_compute in H.
    assert (connected = error) as E by (apply H; discriminate). discriminate E.
Qed.

(** What the guard of [startSync] reads.  On the RemoteStorage adapter
    [startSync] fails with the precondition error, and leaves the adapter
    and the host exactly as they were, whenever the configuration, the discovered
    endpoint or the token is missing; that is so on a new adapter and after
    any operations in which every [connect] failed at discovery or on an
    empty token.  On the WebDAV adapter [startSync] fails with the
    precondition error as long as [connect] has not been called, and
    records the failure: the status becomes [error] with the precondition
    message.  What the check reads is what [connect] has stored, not what
    it returned: after a RemoteStorage [connect] that got past discovery
    and the token check, and after any WebDAV [connect], [startSync] goes
    ahead. *)
Theorem startSync_requires_connection :
  (forall a w db env,
     RemoteStorageAdapter.config a = None \/
     RemoteStorageAdapter.remoteInfo a = None \/
     RemoteStorageAdapter.token_ a = None ->
     RemoteStorageAdapter.startSync db env (a, w)
     = (Throw (JS.Error "请先连接到RemoteStorage服务器"), (a, w))) /\
  (forall ops db env,
     forallb RemoteStorageRun.never_stored ops = true ->
     RemoteStorageAdapter.startSync db env
       (RemoteStorageRun.run ops (RemoteStorageAdapter.new, boot))
     = (Throw (JS.Error "请先连接到RemoteStorage服务器"),
        RemoteStorageRun.run ops (RemoteStorageAdapter.new, boot))) /\
  (forall ops db env,
     forallb (fun op => negb (WebDAVRun.is_connect op)) ops = true ->
     let s := WebDAVRun.run ops (WebDAVAdapter.new, boot) in
     let r := WebDAVAdapter.startSync db env s in
     result r = Throw (JS.Error "未配置WebDAV连接") /\
     WebDAVAdapter.getSyncStatus (fst (state r))
     = {| status := error;
          progress := progress (WebDAVAdapter.getSyncStatus (fst s));
          error_ := Some {| message := "未配置WebDAV连接";
                            details := JS.Error "未配置WebDAV连接" |} |}) /\
  (forall cfg cenv a w db env info,
     RemoteStorageAdapter.discovery cenv = inr info ->
     JS.truthy (JS.str (RemoteStorageAdapter.token cfg)) = true ->
     result (RemoteStorageAdapter.startSync db env
               (state (RemoteStorageAdapter.connect cfg cenv (a, w))))
     = Normal tt) /\
  (forall cfg a w db env,
     WebDAVAdapter.open_remote env = None ->
     WebDAVAdapter.replicate env = None ->
     result (WebDAVAdapter.startSync db env (state (WebDAVAdapter.connect cfg (a, w))))
     = Normal tt).
Proof.
  split; [| split; [| split; [| split]]];
    [| | | intros cfg cenv a w db env info Hd Ht | intros cfg a w db env Ho Hr].
  4: { pose proof (rs_connect_stores cfg cenv a w info Hd Ht) as H. cbv zeta in H.
       destruct (state (RemoteStorageAdapter.connect cfg cenv (a, w))) as [a' w'].
       destruct H as (Hc & Hi & Hk). eapply rs_startSync_runs; eassumption. }
  4: { pose proof (dav_connect_stores cfg a w) as Hc.
       destruct (state (WebDAVAdapter.connect cfg (a, w))) as [a' w'].
       eapply dav_startSync_runs; eassumption. }
  - intros a w db env H. now apply rs_startSync_guard.
  - intros ops db env Hops.
    destruct (RemoteStorageRun.run ops (RemoteStorageAdapter.new, boot)) as [a w] eqn:E.
    apply rs_startSync_guard. right. left.
    change a with (fst (a, w)). rewrite <- E.
    now rewrite rs_run_keeps_remoteInfo.
  - intros ops db env Hops s r. subst r.
    destruct s as [a w] eqn:E.
    assert (Hc : WebDAVAdapter.config a = None).
    { change a with (fst (a, w)). rewrite <- E. subst s.
      now rewrite dav_run_keeps_config. }
    rewrite (dav_startSync_unconfigured a w db env Hc). split; reflexivity.
Qed.

Lemma startSync_requires_connection_witness :
  result (RemoteStorageAdapter.startSync 1 (pass [] [])
            (RemoteStorageRun.run [RemoteStorageRun.Connect account undiscovered;
                                   RemoteStorageRun.StopSync]
                                  (RemoteStorageAdapter.new, boot)))
  = Throw (JS.Error "请先连接到RemoteStorage服务器") /\
  result (WebDAVAdapter.startSync 1 engine
            (WebDAVRun.run [WebDAVRun.StopSync] (WebDAVAdapter.new, boot)))
  = Throw (JS.Error "未配置WebDAV连接").
Proof.
  destruct startSync_requires_connection as (_ & H2 & H3 & _).
  split.
  - rewrite (H2 [RemoteStorageRun.Connect account undiscovered; RemoteStorageRun.StopSync]
                1 (pass [] [])); reflexivity.
  - apply (H3 [WebDAVRun.StopSync] 1 engine). reflexivity.
Defined.

(** C2.  The guard of [startSync], written under the comment "check
    whether connected", does not test that a [connect] has succeeded, and
    the two adapters do not fail alike.
    - RemoteStorage: [connect] finds the endpoint, the connection test is
      answered 401, [connect] returns false and the status is [error].
      Endpoint and token were stored before the test, so [startSync] then
      passes the guard, runs a pass and ends normally; the status is
      [completed] with progress 100.
    - WebDAV: [connect] to "invalid-url" returns false with the status
      [error]; the configuration was stored before the check, so
      [startSync] then goes ahead and ends normally with the status
      [syncing].
    - WebDAV: on a new adapter [startSync] throws the precondition error
      from inside its [try], whose [catch] records it: the status is
      [error] afterwards, not what it was.  On a new RemoteStorage adapter,
      whose guard stands before the [try], the refused [startSync] leaves
      adapter and host exactly as they were. *)
Theorem startSync_precondition_broken :
  (result (WebDAVAdapter.startSync 1 engine (WebDAVAdapter.new, boot))
   = Throw (JS.Error "未配置WebDAV连接") /\
   WebDAVAdapter.getSyncStatus
     (fst (state (WebDAVAdapter.startSync 1 engine (WebDAVAdapter.new, boot))))
   <> WebDAVAdapter.getSyncStatus WebDAVAdapter.new) /\
  (result (WebDAVAdapter.connect (server "invalid-url") (WebDAVAdapter.new, boot))
   = Normal false /\
   result (WebDAVAdapter.startSync 1 engine
             (state (WebDAVAdapter.connect (server "invalid-url") (WebDAVAdapter.new, boot))))
   = Normal tt) /\
  (result (RemoteStorageAdapter.connect account rejected (RemoteStorageAdapter.new, boot))
   = Normal false /\
   result (RemoteStorageAdapter.startSync 1 (pass [] [])
             (state (RemoteStorageAdapter.connect account rejected
                       (RemoteStorageAdapter.new, boot))))
   = Normal tt) /\
  (WebDAVAdapter.getSyncStatus WebDAVAdapter.new
   = {| status := idle; progress := None; error_ := None |} /\
   WebDAVAdapter.getSyncStatus
     (fst (state (WebDAVAdapter.startSync 1 engine (WebDAVAdapter.new, boot))))
   = {| status := error; progress := None;
        error_ := Some {| message := "未配置WebDAV连接";
                          details := JS.Error "未配置WebDAV连接" |} |} /\
   RemoteStorageAdapter.startSync 1 (pass [] []) (RemoteStorageAdapter.new, boot)
   = (Throw (JS.Error "请先连接到RemoteStorage服务器"), (RemoteStorageAdapter.new, boot))) /\
  (RemoteStorageAdapter.getSyncStatus
     (fst (state (RemoteStorageAdapter.connect account rejected
                    (RemoteStorageAdapter.new, boot))))
   = {| status := error; progress := None;
        error_ := Some {| message := "连接测试失败: 401 Unauthorized";
                          details := JS.Error "连接测试失败: 401 Unauthorized" |} |} /\
   RemoteStorageAdapter.getSyncStatus
     (fst (state (RemoteStorageAdapter.startSync 1 (pass [] [])
                    (state (RemoteStorageAdapter.connect account rejected
                              (RemoteStorageAdapter.new, boot))))))
   = {| status := completed; progress := Some 100%float;
        error_ := Some {| message := "连接测试失败: 401 Unauthorized";
                          details := JS.Error "连接测试失败: 401 Unauthorized" |} |}) /\
  (status (WebDAVAdapter.getSyncStatus
             (fst (state (WebDAVAdapter.connect (server "invalid-url")
                            (WebDAVAdapter.new, boot)))))
   = error /\
   status (WebDAVAdapter.getSyncStatus
             (fst (state (WebDAVAdapter.startSync 1 engine
                            (state (WebDAVAdapter.connect (server "invalid-url")
                                      (WebDAVAdapter.new, boot)))))))
   = syncing).
Proof.
  repeat split; try (vm_compute; reflexivity).
  vm_compute. intros H. discriminate H.
Qed.

(** C6, as the code has it.  Two consecutive calls of [stopSync] both end
    normally with status [idle], and the second leaves the adapter as the
    first left it; each call, whatever state the adapter is in, dispatches
    [sync-stopped] once to every registered listener. *)
Theorem stopSync_twice :
  (forall a w l,
     let r1 := WebDAVAdapter.stopSync (a, w) in
     let r2 := WebDAVAdapter.stopSync (state r1) in
     result r1 = Normal tt /\ result r2 = Normal tt /\
     status (WebDAVAdapter.getSyncStatus (fst (state r1))) = idle /\
     status (WebDAVAdapter.getSyncStatus (fst (state r2))) = idle /\
     fst (state r2) = fst (state r1) /\
     calls "sync-stopped" l (trace (snd (state r1)))
     = calls "sync-stopped" l (trace w) + registered l (dav_listeners "sync-stopped" a) /\
     calls "sync-stopped" l (trace (snd (state r2)))
     = calls "sync-stopped" l (trace (snd (state r1)))
       + registered l (dav_listeners "sync-stopped" a)) /\
  (forall a w l,
     let r1 := RemoteStorageAdapter.stopSync (a, w) in
     let r2 := RemoteStorageAdapter.stopSync (state r1) in
     result r1 = Normal tt /\ result r2 = Normal tt /\
     status (RemoteStorageAdapter.getSyncStatus (fst (state r1))) = idle /\
     status (RemoteStorageAdapter.getSyncStatus (fst (state r2))) = idle /\
     fst (state r2) = fst (state r1) /\
     calls "sync-stopped" l (trace (snd (state r1)))
     = calls "sync-stopped" l (trace w)
       + registered l (base_listeners "sync-stopped" (RemoteStorageAdapter.base a)) /\
     calls "sync-stopped" l (trace (snd (state r2)))
     = calls "sync-stopped" l (trace (snd (state r1)))
       + registered l (base_listeners "sync-stopped" (RemoteStorageAdapter.base a))).
Proof.
  split.
  - intros a w l r1 r2. subst r2 r1.
    rewrite dav_stopSync_run. cbn [state snd fst result].
    rewrite dav_stopSync_run. cbn [state snd fst result].
    rewrite !calls_log, !calls_dav_released, !calls_log, !calls_dav_released,
      !calls_dav_heard.
    repeat split; reflexivity.
  - intros a w l r1 r2. subst r2 r1.
    rewrite rs_stopSync_run. cbn [state snd fst result].
    rewrite rs_stopSync_run. cbn [state snd fst result].
    rewrite !calls_log, !calls_rs_released, !calls_log, !calls_rs_released,
      !calls_base_heard, rs_halted_twice.
    assert (Hl : base_listeners "sync-stopped" (RemoteStorageAdapter.base (rs_halted a))
                 = base_listeners "sync-stopped" (RemoteStorageAdapter.base a)).
    { unfold rs_halted. destruct (rs_armed a); reflexivity. }
    rewrite Hl. repeat split; reflexivity.
Qed.

(** C6 as stated fails: an adapter that is already idle dispatches
    [sync-stopped] again on every further [stopSync]. *)
Lemma stopSync_redispatches :
  let a := WebDAVAdapter.addEventListener "sync-stopped" (quiet 7) WebDAVAdapter.new in
  let s1 := state (WebDAVAdapter.stopSync (a, boot)) in
  let s2 := state (WebDAVAdapter.stopSync s1) in
  status (WebDAVAdapter.getSyncStatus a) = idle /\
  calls "sync-stopped" 7 (trace (snd s1)) = 1 /\
  status (WebDAVAdapter.getSyncStatus (fst s1)) = idle /\
  calls "sync-stopped" 7 (trace (snd s2)) = 2.
Proof. vm_compute. repeat split; reflexivity. Qed.

(** C7 on the RemoteStorage adapter: [stopSync] names only the status, so
    the progress of the last pass stays in the status, and a second
    [startSync] has replaced the timer id without clearing the first
    timer, which stays armed after [stopSync].  The WebDAV adapter resets
    progress to 0 and releases what it holds. *)
Theorem stopSync_keeps_stale_progress :
  RemoteStorageAdapter.getSyncStatus
    (fst (RemoteStorageRun.run [RemoteStorageRun.Connect account reachable;
                                RemoteStorageRun.StartSync 1 (pass [] []);
                                RemoteStorageRun.StopSync]
                               (RemoteStorageAdapter.new, boot)))
  = {| status := idle; progress := Some 100%float; error_ := None |} /\
  (forall a w,
     progress (RemoteStorageAdapter.getSyncStatus
                 (fst (state (RemoteStorageAdapter.stopSync (a, w)))))
     = progress (RemoteStorageAdapter.getSyncStatus a)) /\
  timers (snd (RemoteStorageRun.run [RemoteStorageRun.Connect scheduled reachable;
                                     RemoteStorageRun.StartSync 1 (pass [] []);
                                     RemoteStorageRun.StartSync 1 (pass [] []);
                                     RemoteStorageRun.StopSync]
                                    (RemoteStorageAdapter.new, boot)))
  = [1] /\
  (forall a w,
     let a' := fst (state (WebDAVAdapter.stopSync (a, w))) in
     WebDAVAdapter.getSyncStatus a'
     = {| status := idle; progress := Some 0%float;
          error_ := error_ (WebDAVAdapter.getSyncStatus a) |} /\
     WebDAVAdapter.autoSyncTimer a' = None /\
     WebDAVAdapter.syncHandler a' = None /\
     WebDAVAdapter.remoteDB a' = None).
Proof.
  split; [| split; [| split]].
  - vm_compute. reflexivity.
  - intros a w. rewrite rs_stopSync_run. unfold rs_halted.
    destruct (rs_armed a); reflexivity.
  - vm_compute. reflexivity.
  - intros a w a'. subst a'. rewrite dav_stopSync_run. repeat split; reflexivity.
Qed.

End Statements.

(* ================================================================= *)
(** * Further properties of the adapters *)

Section RegistryFacts.

Import SyncAdapter Host Registry.

Lemma registered_app n ls ls' :
  registered n (ls ++ ls') = registered n ls + registered n ls'.
Proof. unfold registered. now rewrite List.filter_app, length_app. Qed.

Lemma has_registered ls l : has ls l = negb (Nat.eqb (registered (lid l) ls) 0).
Proof.
  unfold has, registered. induction ls as [|x ls IH]; simpl; [reflexivity |].
  destruct (Nat.eqb (lid x) (lid l)); simpl; [reflexivity | exact IH].
Qed.

Lemma registered_add n ls l :
  registered n (add ls l)
  = if Nat.eqb n (lid l) then Nat.max 1 (registered n ls) else registered n ls.
Proof.
  unfold add. rewrite has_registered.
  destruct (Nat.eqb n (lid l)) eqn:E.
  - apply Nat.eqb_eq in E. subst n.
    destruct (Nat.eqb (registered (lid l) ls) 0) eqn:Z; simpl.
    + apply Nat.eqb_eq in Z. rewrite registered_app, Z. unfold registered; simpl.
      now rewrite Nat.eqb_refl.
    + apply Nat.eqb_neq in Z. lia.
  - destruct (negb _); [reflexivity |].
    rewrite registered_app. unfold registered at 2; simpl.
    rewrite Nat.eqb_sym, E. simpl. lia.
Qed.

Lemma registered_delete n ls l :
  registered n (delete ls l) = if Nat.eqb n (lid l) then 0 else registered n ls.
Proof.
  unfold registered, delete. induction ls as [|x ls IH]; simpl.
  - now destruct (Nat.eqb n (lid l)).
  - destruct (Nat.eqb (lid x) (lid l)) eqn:E; simpl.
    + apply Nat.eqb_eq in E. rewrite IH, E.
      destruct (Nat.eqb n (lid l)) eqn:F; [reflexivity |].
      rewrite Nat.eqb_sym, F. reflexivity.
    + destruct (Nat.eqb (lid x) n) eqn:F; simpl; rewrite IH.
      * apply Nat.eqb_eq in F. subst n. now rewrite E.
      * reflexivity.
Qed.

Lemma add_add ls l : add (add ls l) l = add ls l.
Proof.
  unfold add at 1. rewrite has_registered, registered_add, Nat.eqb_refl.
  destruct (Nat.eqb (Nat.max 1 _) 0) eqn:E; [| reflexivity].
  apply Nat.eqb_eq in E. lia.
Qed.

Lemma delete_unregistered ls l : registered (lid l) ls = 0 -> delete ls l = ls.
Proof.
  unfold registered, delete. induction ls as [|x ls IH]; simpl; [reflexivity |].
  destruct (Nat.eqb (lid x) (lid l)); simpl; [discriminate |].
  intros H. now rewrite IH.
Qed.

Lemma delete_add ls l : registered (lid l) ls = 0 -> delete (add ls l) l = ls.
Proof.
  intros H. unfold add. rewrite has_registered, H. simpl.
  unfold delete. rewrite List.filter_app. simpl. rewrite Nat.eqb_refl. simpl.
  rewrite app_nil_r. now apply delete_unregistered.
Qed.

End RegistryFacts.

Section ListenerSets.

Import SyncAdapter Host Registry.

Lemma length_zero_nil {A} (xs : list A) : Nat.eqb (length xs) 0 = true -> xs = [].
Proof. destruct xs; [reflexivity | discriminate]. Qed.

Lemma base_listeners_add event l a e :
  base_listeners e (BaseSyncAdapter.addEventListener event l a)
  = if String.eqb e event then add (base_listeners event a) l else base_listeners e a.
Proof.
  unfold base_listeners, BaseSyncAdapter.addEventListener; simpl.
  destruct (String.eqb e event) eqn:E.
  - apply String.eqb_eq in E. subst e.
    destruct (BaseSyncAdapter.eventListeners a !! event) as [ls|] eqn:L; simpl.
    + rewrite L. now rewrite lookup_insert_eq.
    + rewrite lookup_insert_eq. now rewrite lookup_insert_eq.
  - apply String.eqb_neq in E.
    destruct (BaseSyncAdapter.eventListeners a !! event) as [ls|] eqn:L; simpl.
    + rewrite L. now rewrite lookup_insert_ne by congruence.
    + rewrite lookup_insert_eq. now rewrite !lookup_insert_ne by congruence.
Qed.

Lemma base_listeners_remove event l a e :
  base_listeners e (BaseSyncAdapter.removeEventListener event l a)
  = if String.eqb e event then delete (base_listeners event a) l else base_listeners e a.
Proof.
  unfold base_listeners, BaseSyncAdapter.removeEventListener.
  destruct (String.eqb e event) eqn:E.
  - apply String.eqb_eq in E. subst e.
    destruct (BaseSyncAdapter.eventListeners a !! event) as [ls|] eqn:L; simpl.
    + destruct (Nat.eqb (length (delete ls l)) 0) eqn:Z.
      * rewrite lookup_delete_eq. simpl. symmetry. now apply length_zero_nil.
      * now rewrite lookup_insert_eq.
    + now rewrite L.
  - apply String.eqb_neq in E.
    destruct (BaseSyncAdapter.eventListeners a !! event) as [ls|] eqn:L; simpl; [| reflexivity].
    destruct (Nat.eqb (length (delete ls l)) 0).
    + now rewrite lookup_delete_ne by congruence.
    + now rewrite lookup_insert_ne by congruence.
Qed.

Lemma dav_listeners_add event l a e :
  dav_listeners e (WebDAVAdapter.addEventListener event l a)
  = if String.eqb e event then add (dav_listeners event a) l else dav_listeners e a.
Proof.
  unfold dav_listeners, WebDAVAdapter.addEventListener.
  destruct (String.eqb e event) eqn:E.
  - apply String.eqb_eq in E. subst e.
    destruct (WebDAVAdapter.eventListeners a !! event) as [ls|] eqn:L; simpl;
      now rewrite lookup_insert_eq.
  - apply String.eqb_neq in E.
    destruct (WebDAVAdapter.eventListeners a !! event) as [ls|] eqn:L; simpl;
      now rewrite lookup_insert_ne by congruence.
Qed.

Lemma dav_listeners_remove event l a e :
  dav_listeners e (WebDAVAdapter.removeEventListener event l a)
  = if String.eqb e event then delete (dav_listeners event a) l else dav_listeners e a.
Proof.
  unfold dav_listeners, WebDAVAdapter.removeEventListener.
  destruct (String.eqb e event) eqn:E.
  - apply String.eqb_eq in E. subst e.
    destruct (WebDAVAdapter.eventListeners a !! event) as [ls|] eqn:L; simpl.
    + now rewrite lookup_insert_eq.
    + now rewrite L.
  - apply String.eqb_neq in E.
    destruct (WebDAVAdapter.eventListeners a !! event) as [ls|] eqn:L; simpl; [| reflexivity].
    now rewrite lookup_insert_ne by congruence.
Qed.

(** How often one dispatch calls a listener. *)
Lemma base_dispatch_calls event data a w l :
  calls event l (since w (snd (state (BaseSyncAdapter.dispatchEvent event data (a, w)))))
  = registered l (base_listeners event a).
Proof. rewrite base_dispatchEvent_run. simpl. rewrite since_log. apply calls_base_heard. Qed.

Lemma dav_dispatch_calls event data a w l :
  calls event l (since w (snd (state (WebDAVAdapter.triggerEvent event data (a, w)))))
  = registered l (dav_listeners event a).
Proof. rewrite dav_triggerEvent_run. simpl. rewrite since_log. apply calls_dav_heard. Qed.

End ListenerSets.

Section ListenerRuns.

Import SyncAdapter Host Registry Listeners.

(** Only the two registration methods touch the listener map. *)
Lemma rs_step_listeners op s :
  BaseSyncAdapter.eventListeners (RemoteStorageAdapter.base (fst (RemoteStorageRun.step op s)))
  = match op with
    | RemoteStorageRun.AddEventListener event l =>
        BaseSyncAdapter.eventListeners
          (BaseSyncAdapter.addEventListener event l (RemoteStorageAdapter.base (fst s)))
    | RemoteStorageRun.RemoveEventListener event l =>
        BaseSyncAdapter.eventListeners
          (BaseSyncAdapter.removeEventListener event l (RemoteStorageAdapter.base (fst s)))
    | _ => BaseSyncAdapter.eventListeners (RemoteStorageAdapter.base (fst s))
    end.
Proof.
  destruct s as [a w]. destruct op; unfold RemoteStorageRun.step.
  - unfold RemoteStorageAdapter.connect. rs_run; reflexivity.
  - unfold RemoteStorageAdapter.startSync.
    rs_run; try reflexivity.
    all: match goal with
         | |- context [RemoteStorageAdapter.triggerSync ?env (?a', ?w')] =>
             destruct (rs_triggerSync_cases env a' w') as [[HH _]|(os & HH & _)];
               rewrite HH; clear HH
         end; rs_run; reflexivity.
  - rewrite rs_stopSync_run. unfold rs_halted. destruct (rs_armed a); reflexivity.
  - rs_simpl. destruct (timers w); rs_simpl; [reflexivity |].
    unfold RemoteStorageAdapter.tick, try_catch.
    destruct (rs_triggerSync_cases env a w) as [[HH _]|(os & HH & _)];
      rewrite HH; clear HH; rs_run; reflexivity.
  - reflexivity.
  - reflexivity.
Qed.

Lemma dav_step_listeners op s :
  WebDAVAdapter.eventListeners (fst (WebDAVRun.step op s))
  = match op with
    | WebDAVRun.AddEventListener event l =>
        WebDAVAdapter.eventListeners (WebDAVAdapter.addEventListener event l (fst s))
    | WebDAVRun.RemoveEventListener event l =>
        WebDAVAdapter.eventListeners (WebDAVAdapter.removeEventListener event l (fst s))
    | _ => WebDAVAdapter.eventListeners (fst s)
    end.
Proof.
  destruct s as [a w].
  destruct op;
    unfold WebDAVRun.step, WebDAVAdapter.connect, WebDAVAdapter.checkConnection,
      WebDAVAdapter.startSync, WebDAVAdapter.setupAutoSync,
      WebDAVAdapter.stopSync, WebDAVAdapter.tick, WebDAVAdapter.triggerSync,
      WebDAVAdapter.on_change, WebDAVAdapter.on_paused, WebDAVAdapter.on_active,
      WebDAVAdapter.on_denied, WebDAVAdapter.on_complete, WebDAVAdapter.on_error;
    try reflexivity; dav_run; reflexivity.
Qed.

Lemma once_add listeners event l :
  once listeners ->
  once (fun e => if String.eqb e event then add (listeners event) l else listeners e).
Proof.
  intros H e n. destruct (String.eqb e event); [| apply H].
  rewrite registered_add. specialize (H event n).
  destruct (Nat.eqb n (lid l)); lia.
Qed.

Lemma once_delete listeners event l :
  once listeners ->
  once (fun e => if String.eqb e event then delete (listeners event) l else listeners e).
Proof.
  intros H e n. destruct (String.eqb e event); [| apply H].
  rewrite registered_delete. specialize (H event n).
  destruct (Nat.eqb n (lid l)); lia.
Qed.

Lemma base_listeners_ext a b :
  BaseSyncAdapter.eventListeners a = BaseSyncAdapter.eventListeners b ->
  forall e, base_listeners e a = base_listeners e b.
Proof. intros H e. unfold base_listeners. now rewrite H. Qed.

Lemma dav_listeners_ext a b :
  WebDAVAdapter.eventListeners a = WebDAVAdapter.eventListeners b ->
  forall e, dav_listeners e a = dav_listeners e b.
Proof. intros H e. unfold dav_listeners. now rewrite H. Qed.

Lemma rs_step_once op s :
  once (fun e => base_listeners e (RemoteStorageAdapter.base (fst s))) ->
  once (fun e => base_listeners e (RemoteStorageAdapter.base (fst (RemoteStorageRun.step op s)))).
Proof.
  intros H e n. pose proof (rs_step_listeners op s) as Hs.
  destruct op.
  1-4: rewrite (base_listeners_ext _ _ Hs); apply H.
  - rewrite (base_listeners_ext _ _ Hs), base_listeners_add.
    apply (once_add _ event l H e n).
  - rewrite (base_listeners_ext _ _ Hs), base_listeners_remove.
    apply (once_delete _ event l H e n).
Qed.

Lemma rs_run_once ops s :
  once (fun e => base_listeners e (RemoteStorageAdapter.base (fst s))) ->
  once (fun e => base_listeners e (RemoteStorageAdapter.base (fst (RemoteStorageRun.run ops s)))).
Proof.
  revert s. induction ops as [|op ops IH]; intros s H; simpl; [exact H |].
  apply IH. now apply rs_step_once.
Qed.

Lemma dav_step_once op s :
  once (fun e => dav_listeners e (fst s)) ->
  once (fun e => dav_listeners e (fst (WebDAVRun.step op s))).
Proof.
  intros H e n. pose proof (dav_step_listeners op s) as Hs.
  destruct op.
  1-10: rewrite (dav_listeners_ext _ _ Hs); apply H.
  - rewrite (dav_listeners_ext _ _ Hs), dav_listeners_add.
    apply (once_add _ event l H e n).
  - rewrite (dav_listeners_ext _ _ Hs), dav_listeners_remove.
    apply (once_delete _ event l H e n).
Qed.

Lemma dav_run_once ops s :
  once (fun e => dav_listeners e (fst s)) ->
  once (fun e => dav_listeners e (fst (WebDAVRun.run ops s))).
Proof.
  revert s. induction ops as [|op ops IH]; intros s H; simpl; [exact H |].
  apply IH. now apply dav_step_once.
Qed.

Lemma dav_new_listeners e : dav_listeners e WebDAVAdapter.new = [].
Proof.
  unfold dav_listeners, WebDAVAdapter.new; simpl.
  repeat (rewrite lookup_insert; destruct (decide _); [reflexivity |]).
  reflexivity.
Qed.

End ListenerRuns.

Section ListenerProperties.

Import SyncAdapter Host Registry Listeners.

(** X1.  Whatever operations an adapter has gone through, one dispatch
    calls a callback at most once. *)
Theorem dispatch_calls_at_most_once :
  (forall ops event data l,
     let s := RemoteStorageRun.run ops (RemoteStorageAdapter.new, boot) in
     calls event l (since (snd s)
                      (snd (state (RemoteStorageAdapter.dispatchEvent event data s)))) <= 1) /\
  (forall ops event data l,
     let s := WebDAVRun.run ops (WebDAVAdapter.new, boot) in
     calls event l (since (snd s)
                      (snd (state (WebDAVAdapter.triggerEvent event data s)))) <= 1).
Proof.
  split.
  - intros ops event data l s. subst s.
    pose proof (rs_run_once ops (RemoteStorageAdapter.new, boot)) as H.
    destruct (RemoteStorageRun.run ops (RemoteStorageAdapter.new, boot)) as [a w].
    rewrite rs_dispatchEvent_run. simpl. rewrite since_log, calls_base_heard.
    apply H. intros e n. unfold base_listeners; simpl. rewrite lookup_empty. apply Nat.le_0_l.
  - intros ops event data l s. subst s.
    pose proof (dav_run_once ops (WebDAVAdapter.new, boot)) as H.
    destruct (WebDAVRun.run ops (WebDAVAdapter.new, boot)) as [a w].
    rewrite dav_dispatch_calls. apply H.
    intros e n. simpl. rewrite dav_new_listeners. apply Nat.le_0_l.
Qed.

(** X2.  [addEventListener]: the callback is registered on that event,
    once however often it is added; the status, the other callbacks of
    the event and the other events are as they were. *)
Theorem addEventListener_registers :
  (forall event l a,
     let a' := BaseSyncAdapter.addEventListener event l a in
     registered (lid l) (base_listeners event a')
     = Nat.max 1 (registered (lid l) (base_listeners event a)) /\
     BaseSyncAdapter.addEventListener event l a' = a' /\
     BaseSyncAdapter.getSyncStatus a' = BaseSyncAdapter.getSyncStatus a /\
     (forall n, n <> lid l ->
                registered n (base_listeners event a') = registered n (base_listeners event a)) /\
     (forall e, e <> event -> base_listeners e a' = base_listeners e a)) /\
  (forall event l a,
     let a' := WebDAVAdapter.addEventListener event l a in
     registered (lid l) (dav_listeners event a')
     = Nat.max 1 (registered (lid l) (dav_listeners event a)) /\
     WebDAVAdapter.addEventListener event l a' = a' /\
     WebDAVAdapter.getSyncStatus a' = WebDAVAdapter.getSyncStatus a /\
     (forall n, n <> lid l ->
                registered n (dav_listeners event a') = registered n (dav_listeners event a)) /\
     (forall e, e <> event -> dav_listeners e a' = dav_listeners e a)).
Proof.
  split; intros event l a a'; subst a'.
  - split; [| split; [| split; [| split]]].
    + rewrite base_listeners_add, String.eqb_refl, registered_add. now rewrite Nat.eqb_refl.
    + unfold BaseSyncAdapter.addEventListener at 1.
      pose proof (base_listeners_add event l a event) as H.
      rewrite String.eqb_refl in H. unfold base_listeners at 1 in H.
      destruct (BaseSyncAdapter.eventListeners (BaseSyncAdapter.addEventListener event l a)
                  !! event) as [ls|] eqn:L.
      * simpl in H. subst ls. rewrite L, add_add, insert_id by exact L.
        now destruct (BaseSyncAdapter.addEventListener event l a).
      * exfalso. revert L. unfold BaseSyncAdapter.addEventListener; simpl.
        destruct (BaseSyncAdapter.eventListeners a !! event) as [ls|] eqn:L'.
        -- rewrite L'. now rewrite lookup_insert_eq.
        -- rewrite lookup_insert_eq. now rewrite lookup_insert_eq.
    + reflexivity.
    + intros n Hn. rewrite base_listeners_add, String.eqb_refl, registered_add.
      apply Nat.eqb_neq in Hn. now rewrite Hn.
    + intros e He. rewrite base_listeners_add. apply String.eqb_neq in He. now rewrite He.
  - split; [| split; [| split; [| split]]].
    + rewrite dav_listeners_add, String.eqb_refl, registered_add. now rewrite Nat.eqb_refl.
    + unfold WebDAVAdapter.addEventListener at 1.
      pose proof (dav_listeners_add event l a event) as H.
      rewrite String.eqb_refl in H. unfold dav_listeners at 1 in H.
      destruct (WebDAVAdapter.eventListeners (WebDAVAdapter.addEventListener event l a)
                  !! event) as [ls|] eqn:L.
      * simpl in H. subst ls. rewrite add_add, insert_id by exact L.
        now destruct (WebDAVAdapter.addEventListener event l a).
      * exfalso. revert L. unfold WebDAVAdapter.addEventListener.
        destruct (WebDAVAdapter.eventListeners a !! event) as [ls|] eqn:L'; simpl;
          now rewrite lookup_insert_eq.
    + unfold WebDAVAdapter.addEventListener.
      now destruct (WebDAVAdapter.eventListeners a !! event).
    + intros n Hn. rewrite dav_listeners_add, String.eqb_refl, registered_add.
      apply Nat.eqb_neq in Hn. now rewrite Hn.
    + intros e He. rewrite dav_listeners_add. apply String.eqb_neq in He. now rewrite He.
Qed.

Lemma addEventListener_registers_witness :
  registered 2 (dav_listeners "sync-error"
                  (WebDAVAdapter.addEventListener "sync-error" (quiet 1)
                     (WebDAVAdapter.addEventListener "sync-error" (quiet 2) WebDAVAdapter.new)))
  = registered 2 (dav_listeners "sync-error"
                    (WebDAVAdapter.addEventListener "sync-error" (quiet 2) WebDAVAdapter.new)) /\
  base_listeners "sync-complete"
    (BaseSyncAdapter.addEventListener "sync-error" (quiet 1) BaseSyncAdapter.new)
  = base_listeners "sync-complete" BaseSyncAdapter.new.
Proof.
  destruct addEventListener_registers as [HB HD]. split.
  - destruct (HD "sync-error" (quiet 1)
                 (WebDAVAdapter.addEventListener "sync-error" (quiet 2) WebDAVAdapter.new))
      as (_ & _ & _ & H & _).
    apply (H 2). simpl. lia.
  - destruct (HB "sync-error" (quiet 1) BaseSyncAdapter.new) as (_ & _ & _ & _ & H).
    apply (H "sync-complete"). discriminate.
Defined.

(** X3.  [removeEventListener]: after it a dispatch of that event does
    not call the callback; the other callbacks of the event and the other
    events are as they were. *)
Theorem removeEventListener_unregisters :
  (forall event l a data w,
     let a' := BaseSyncAdapter.removeEventListener event l a in
     calls event (lid l)
       (since w (snd (state (BaseSyncAdapter.dispatchEvent event data (a', w))))) = 0 /\
     BaseSyncAdapter.getSyncStatus a' = BaseSyncAdapter.getSyncStatus a /\
     (forall n, n <> lid l ->
                registered n (base_listeners event a') = registered n (base_listeners event a)) /\
     (forall e, e <> event -> base_listeners e a' = base_listeners e a)) /\
  (forall event l a data w,
     let a' := WebDAVAdapter.removeEventListener event l a in
     calls event (lid l)
       (since w (snd (state (WebDAVAdapter.triggerEvent event data (a', w))))) = 0 /\
     WebDAVAdapter.getSyncStatus a' = WebDAVAdapter.getSyncStatus a /\
     (forall n, n <> lid l ->
                registered n (dav_listeners event a') = registered n (dav_listeners event a)) /\
     (forall e, e <> event -> dav_listeners e a' = dav_listeners e a)).
Proof.
  split; intros event l a data w a'; subst a'.
  - split; [| split; [| split]].
    + rewrite base_dispatch_calls, base_listeners_remove, String.eqb_refl, registered_delete.
      now rewrite Nat.eqb_refl.
    + unfold BaseSyncAdapter.removeEventListener.
      now destruct (BaseSyncAdapter.eventListeners a !! event).
    + intros n Hn. rewrite base_listeners_remove, String.eqb_refl, registered_delete.
      apply Nat.eqb_neq in Hn. now rewrite Hn.
    + intros e He. rewrite base_listeners_remove. apply String.eqb_neq in He. now rewrite He.
  - split; [| split; [| split]].
    + rewrite dav_dispatch_calls, dav_listeners_remove, String.eqb_refl, registered_delete.
      now rewrite Nat.eqb_refl.
    + unfold WebDAVAdapter.removeEventListener.
      now destruct (WebDAVAdapter.eventListeners a !! event).
    + intros n Hn. rewrite dav_listeners_remove, String.eqb_refl, registered_delete.
      apply Nat.eqb_neq in Hn. now rewrite Hn.
    + intros e He. rewrite dav_listeners_remove. apply String.eqb_neq in He. now rewrite He.
Qed.

Lemma removeEventListener_unregisters_witness :
  registered 2 (dav_listeners "sync-error"
                  (WebDAVAdapter.removeEventListener "sync-error" (quiet 1)
                     (WebDAVAdapter.addEventListener "sync-error" (quiet 2) WebDAVAdapter.new)))
  = registered 2 (dav_listeners "sync-error"
                    (WebDAVAdapter.addEventListener "sync-error" (quiet 2) WebDAVAdapter.new)) /\
  base_listeners "sync-complete"
    (BaseSyncAdapter.removeEventListener "sync-error" (quiet 1)
       (BaseSyncAdapter.addEventListener "sync-complete" (quiet 1) BaseSyncAdapter.new))
  = base_listeners "sync-complete"
      (BaseSyncAdapter.addEventListener "sync-complete" (quiet 1) BaseSyncAdapter.new).
Proof.
  destruct removeEventListener_unregisters as [HB HD]. split.
  - destruct (HD "sync-error" (quiet 1)
                 (WebDAVAdapter.addEventListener "sync-error" (quiet 2) WebDAVAdapter.new)
                 nothing boot)
      as (_ & _ & H & _).
    apply (H 2). simpl. lia.
  - destruct (HB "sync-error" (quiet 1)
                 (BaseSyncAdapter.addEventListener "sync-complete" (quiet 1) BaseSyncAdapter.new)
                 nothing boot) as (_ & _ & _ & H).
    apply (H "sync-complete"). discriminate.
Defined.

End ListenerProperties.

Section ListenerRoundTrip.

Import SyncAdapter Host Registry Listeners.

Lemma add_not_nil ls l : add ls l <> [].
Proof.
  unfold add. destruct (has ls l) eqn:H.
  - destruct ls; [discriminate | discriminate].
  - destruct ls; discriminate.
Qed.

Lemma base_add_inhabited event l a :
  inhabited (BaseSyncAdapter.eventListeners a) ->
  inhabited (BaseSyncAdapter.eventListeners (BaseSyncAdapter.addEventListener event l a)).
Proof.
  intros H e. unfold BaseSyncAdapter.addEventListener; simpl.
  destruct (BaseSyncAdapter.eventListeners a !! event) as [ls|] eqn:L.
  - rewrite L. rewrite lookup_insert. destruct (decide (event = e)); [| apply H].
    intros [= E]. now apply add_not_nil in E.
  - rewrite lookup_insert_eq. rewrite lookup_insert. destruct (decide (event = e)).
    + discriminate.
    + rewrite lookup_insert_ne by assumption. apply H.
Qed.

Lemma base_remove_inhabited event l a :
  inhabited (BaseSyncAdapter.eventListeners a) ->
  inhabited (BaseSyncAdapter.eventListeners (BaseSyncAdapter.removeEventListener event l a)).
Proof.
  intros H e. unfold BaseSyncAdapter.removeEventListener.
  destruct (BaseSyncAdapter.eventListeners a !! event) as [ls|] eqn:L; [| apply H]. simpl.
  destruct (Nat.eqb (length (delete ls l)) 0) eqn:Z.
  - rewrite lookup_delete. destruct (decide (event = e)); [discriminate | apply H].
  - rewrite lookup_insert. destruct (decide (event = e)); [| apply H].
    intros [= E]. rewrite E in Z. discriminate.
Qed.

Lemma rs_run_inhabited ops s :
  inhabited (BaseSyncAdapter.eventListeners (RemoteStorageAdapter.base (fst s))) ->
  inhabited (BaseSyncAdapter.eventListeners
               (RemoteStorageAdapter.base (fst (RemoteStorageRun.run ops s)))).
Proof.
  revert s. induction ops as [|op ops IH]; intros s H; simpl; [exact H |].
  apply IH. rewrite rs_step_listeners.
  destruct op; try exact H.
  - now apply base_add_inhabited.
  - now apply base_remove_inhabited.
Qed.

Lemma base_remove_unregistered event l a :
  inhabited (BaseSyncAdapter.eventListeners a) ->
  registered (lid l) (base_listeners event a) = 0 ->
  BaseSyncAdapter.removeEventListener event l a = a.
Proof.
  intros Hi Hr. unfold BaseSyncAdapter.removeEventListener. unfold base_listeners in Hr.
  destruct (BaseSyncAdapter.eventListeners a !! event) as [ls|] eqn:L; [| reflexivity].
  simpl in Hr. rewrite (delete_unregistered ls l Hr).
  destruct ls as [|x ls]; [now apply Hi in L |]. simpl.
  rewrite insert_id by exact L. now destruct a.
Qed.

Lemma base_remove_add event l a :
  inhabited (BaseSyncAdapter.eventListeners a) ->
  registered (lid l) (base_listeners event a) = 0 ->
  BaseSyncAdapter.removeEventListener event l (BaseSyncAdapter.addEventListener event l a) = a.
Proof.
  intros Hi Hr. unfold BaseSyncAdapter.removeEventListener, BaseSyncAdapter.addEventListener.
  unfold base_listeners in Hr. simpl.
  destruct (BaseSyncAdapter.eventListeners a !! event) as [ls|] eqn:L; simpl in *.
  - rewrite L. rewrite lookup_insert_eq. rewrite (delete_add ls l Hr).
    destruct ls as [|x ls]; [now apply Hi in L |]. simpl.
    rewrite insert_insert_eq, insert_id by exact L. destruct a; reflexivity.
  - rewrite lookup_insert_eq. rewrite lookup_insert_eq.
    rewrite (delete_add [] l Hr). simpl.
    rewrite insert_insert_eq, delete_insert_id by exact L. destruct a; reflexivity.
Qed.

Lemma dav_remove_unregistered event l a :
  registered (lid l) (dav_listeners event a) = 0 ->
  WebDAVAdapter.removeEventListener event l a = a.
Proof.
  intros Hr. unfold WebDAVAdapter.removeEventListener. unfold dav_listeners in Hr.
  destruct (WebDAVAdapter.eventListeners a !! event) as [ls|] eqn:L; [| reflexivity].
  simpl in Hr. rewrite (delete_unregistered ls l Hr), insert_id by exact L.
  now destruct a.
Qed.

(** Removing after adding comes to removing alone. *)
Lemma delete_add_any ls l : delete (add ls l) l = delete ls l.
Proof.
  unfold add. destruct (has ls l); [reflexivity |].
  unfold delete. rewrite List.filter_app. simpl. rewrite Nat.eqb_refl. simpl.
  apply app_nil_r.
Qed.

Lemma add_registered ls l : registered (lid l) ls <> 0 -> add ls l = ls.
Proof.
  intros H. unfold add. rewrite has_registered.
  apply Nat.eqb_neq in H. now rewrite H.
Qed.

Lemma base_remove_add_any event l a :
  BaseSyncAdapter.removeEventListener event l (BaseSyncAdapter.addEventListener event l a)
  = BaseSyncAdapter.removeEventListener event l a.
Proof.
  unfold BaseSyncAdapter.removeEventListener, BaseSyncAdapter.addEventListener. simpl.
  destruct (BaseSyncAdapter.eventListeners a !! event) as [ls|] eqn:L; simpl.
  - rewrite L, lookup_insert_eq, delete_add_any.
    destruct (Nat.eqb (length (delete ls l)) 0).
    + now rewrite delete_insert_eq.
    + now rewrite insert_insert_eq.
  - rewrite lookup_insert_eq, lookup_insert_eq.
    change (delete (add [] l) l) with (delete [l] l).
    unfold delete. simpl. rewrite Nat.eqb_refl. simpl.
    rewrite delete_insert_eq, delete_insert_id by exact L. now destruct a.
Qed.

Lemma base_add_registered event l a :
  registered (lid l) (base_listeners event a) <> 0 ->
  BaseSyncAdapter.addEventListener event l a = a.
Proof.
  unfold base_listeners, BaseSyncAdapter.addEventListener.
  destruct (BaseSyncAdapter.eventListeners a !! event) as [ls|] eqn:L; simpl.
  - intros H. rewrite L, (add_registered ls l H), insert_id by exact L. now destruct a.
  - intros H. now elim H.
Qed.

Lemma dav_add_registered event l a :
  registered (lid l) (dav_listeners event a) <> 0 ->
  WebDAVAdapter.addEventListener event l a = a.
Proof.
  unfold dav_listeners, WebDAVAdapter.addEventListener.
  destruct (WebDAVAdapter.eventListeners a !! event) as [ls|] eqn:L; simpl.
  - intros H. rewrite (add_registered ls l H), insert_id by exact L. now destruct a.
  - intros H. now elim H.
Qed.

Lemma dav_remove_add_any event l a e :
  dav_listeners e (WebDAVAdapter.removeEventListener event l
                     (WebDAVAdapter.addEventListener event l a))
  = dav_listeners e (WebDAVAdapter.removeEventListener event l a).
Proof.
  rewrite !dav_listeners_remove, !dav_listeners_add, String.eqb_refl.
  destruct (String.eqb e event); [apply delete_add_any | reflexivity].
Qed.

(** X4.  Removing a callback right after adding it comes to removing it
    alone, whether or not it was registered before.  So when the callback
    was not registered for the event, the adapter is back as it was (on
    the RemoteStorage adapter, in any state it can reach, the whole
    object; on the WebDAV adapter the callbacks of every event), and
    removing a callback that is not registered changes nothing.  When the
    callback was registered already, adding it changes nothing and the
    removal that follows unregisters it: the adapter is not as it was
    before the two calls. *)
Theorem removeEventListener_undoes_addEventListener :
  (forall ops event l,
     let a := fst (RemoteStorageRun.run ops (RemoteStorageAdapter.new, boot)) in
     registered (lid l) (base_listeners event (RemoteStorageAdapter.base a)) = 0 ->
     RemoteStorageAdapter.removeEventListener event l
       (RemoteStorageAdapter.addEventListener event l a) = a /\
     RemoteStorageAdapter.removeEventListener event l a = a) /\
  (forall event l a,
     registered (lid l) (dav_listeners event a) = 0 ->
     (forall e, dav_listeners e (WebDAVAdapter.removeEventListener event l
                                   (WebDAVAdapter.addEventListener event l a))
                = dav_listeners e a) /\
     WebDAVAdapter.removeEventListener event l a = a) /\
  (forall event l a,
     RemoteStorageAdapter.removeEventListener event l
       (RemoteStorageAdapter.addEventListener event l a)
     = RemoteStorageAdapter.removeEventListener event l a) /\
  (forall event l a e,
     dav_listeners e (WebDAVAdapter.removeEventListener event l
                        (WebDAVAdapter.addEventListener event l a))
     = dav_listeners e (WebDAVAdapter.removeEventListener event l a)) /\
  (forall event l a,
     registered (lid l) (base_listeners event (RemoteStorageAdapter.base a)) <> 0 ->
     RemoteStorageAdapter.addEventListener event l a = a /\
     registered (lid l)
       (base_listeners event
          (RemoteStorageAdapter.base
             (RemoteStorageAdapter.removeEventListener event l
                (RemoteStorageAdapter.addEventListener event l a)))) = 0 /\
     RemoteStorageAdapter.removeEventListener event l
       (RemoteStorageAdapter.addEventListener event l a) <> a) /\
  (forall event l a,
     registered (lid l) (dav_listeners event a) <> 0 ->
     WebDAVAdapter.addEventListener event l a = a /\
     registered (lid l)
       (dav_listeners event
          (WebDAVAdapter.removeEventListener event l
             (WebDAVAdapter.addEventListener event l a))) = 0 /\
     WebDAVAdapter.removeEventListener event l
       (WebDAVAdapter.addEventListener event l a) <> a).
Proof.
  split; [| split; [| split; [| split; [| split]]]].
  - intros ops event l a Hr. subst a.
    pose proof (rs_run_inhabited ops (RemoteStorageAdapter.new, boot)) as Hi.
    destruct (RemoteStorageRun.run ops (RemoteStorageAdapter.new, boot)) as [a w].
    simpl in *.
    assert (Hin : inhabited (BaseSyncAdapter.eventListeners (RemoteStorageAdapter.base a))).
    { apply Hi. intros e. rewrite lookup_empty. discriminate. }
    unfold RemoteStorageAdapter.removeEventListener, RemoteStorageAdapter.addEventListener.
    simpl. rewrite base_remove_add, base_remove_unregistered by assumption.
    split; now destruct a.
  - intros event l a Hr. split; [| now apply dav_remove_unregistered].
    intros e. rewrite dav_listeners_remove, !dav_listeners_add, String.eqb_refl.
    destruct (String.eqb e event) eqn:E; [| reflexivity].
    apply String.eqb_eq in E. subst e. now apply delete_add.
  - intros event l a.
    unfold RemoteStorageAdapter.removeEventListener, RemoteStorageAdapter.addEventListener.
    simpl. now rewrite base_remove_add_any.
  - intros event l a e. apply dav_remove_add_any.
  - intros event l a Hr.
    assert (Hadd : RemoteStorageAdapter.addEventListener event l a = a).
    { unfold RemoteStorageAdapter.addEventListener.
      rewrite (base_add_registered event l _ Hr). now destruct a. }
    assert (Hrem : registered (lid l)
                     (base_listeners event
                        (RemoteStorageAdapter.base
                           (RemoteStorageAdapter.removeEventListener event l a))) = 0).
    { unfold RemoteStorageAdapter.removeEventListener. simpl.
      rewrite base_listeners_remove, String.eqb_refl, registered_delete.
      now rewrite Nat.eqb_refl. }
    rewrite Hadd. split; [reflexivity | split; [exact Hrem |]].
    intros E. rewrite E in Hrem. contradiction.
  - intros event l a Hr.
    pose proof (dav_add_registered event l a Hr) as Hadd.
    assert (Hrem : registered (lid l)
                     (dav_listeners event (WebDAVAdapter.removeEventListener event l a)) = 0).
    { rewrite dav_listeners_remove, String.eqb_refl, registered_delete.
      now rewrite Nat.eqb_refl. }
    rewrite Hadd. split; [reflexivity | split; [exact Hrem |]].
    intros E. rewrite E in Hrem. contradiction.
Qed.

Lemma removeEventListener_undoes_addEventListener_witness :
  RemoteStorageAdapter.removeEventListener "sync-complete" (quiet 3)
    (RemoteStorageAdapter.addEventListener "sync-complete" (quiet 3)
       (fst (RemoteStorageRun.run [RemoteStorageRun.Connect account reachable]
                                  (RemoteStorageAdapter.new, boot))))
  = fst (RemoteStorageRun.run [RemoteStorageRun.Connect account reachable]
                              (RemoteStorageAdapter.new, boot)) /\
  WebDAVAdapter.removeEventListener "sync-complete" (quiet 3) WebDAVAdapter.new
  = WebDAVAdapter.new /\
  dav_listeners "sync-complete"
    (WebDAVAdapter.addEventListener "sync-complete" (quiet 3) WebDAVAdapter.new)
  = [quiet 3] /\
  WebDAVAdapter.removeEventListener "sync-complete" (quiet 3)
    (WebDAVAdapter.addEventListener "sync-complete" (quiet 3)
       (WebDAVAdapter.addEventListener "sync-complete" (quiet 3) WebDAVAdapter.new))
  <> WebDAVAdapter.addEventListener "sync-complete" (quiet 3) WebDAVAdapter.new.
Proof.
  destruct removeEventListener_undoes_addEventListener as (HR & HD & _ & _ & _ & HA).
  split; [| split; [| split]].
  - apply (HR [RemoteStorageRun.Connect account reachable] "sync-complete" (quiet 3)).
    reflexivity.
  - apply (HD "sync-complete" (quiet 3) WebDAVAdapter.new). reflexivity.
  - reflexivity.
  - apply (HA "sync-complete" (quiet 3)
              (WebDAVAdapter.addEventListener "sync-complete" (quiet 3) WebDAVAdapter.new)).
    vm_compute. discriminate.
Defined.

End ListenerRoundTrip.

Section ConnectProperties.

Import SyncAdapter Host Registry Verdict.

Lemma dav_connect_run cfg a w :
  WebDAVAdapter.connect cfg (a, w)
  = let a1 := WebDAVAdapter.set_client
                (Some {| WebDAVAdapter.client_url := WebDAVAdapter.url cfg;
                         WebDAVAdapter.client_username := WebDAVAdapter.username cfg;
                         WebDAVAdapter.client_password := WebDAVAdapter.password cfg |})
                (WebDAVAdapter.set_config (Some cfg) a) in
    match dav_objection (WebDAVAdapter.url cfg) with
    | None =>
        let a2 := WebDAVAdapter.set_syncStatus
                    (connected_status (WebDAVAdapter.syncStatus a)) a1 in
        (Normal true, (a2, log (dav_heard "connect-success" nothing a2) w))
    | Some m =>
        let a2 := WebDAVAdapter.set_syncStatus
                    (refused_status (WebDAVAdapter.syncStatus a) (JS.Error m)) a1 in
        (Normal false,
         (a2, log (dav_heard "connect-error"
                     (WebDAVAdapter.error_payload (JS.Error m) "连接失败") a2) w))
    end.
Proof.
  unfold WebDAVAdapter.connect, WebDAVAdapter.checkConnection, dav_objection.
  dav_run; reflexivity.
Qed.

(** X5.  [WebDAVAdapter.connect] never throws.  It returns true exactly
    when the URL is non-empty, starts with http:// or https:// in any
    letter case, and does not contain "error"; the status is then
    [connected] and what happens outside is one call of each
    connect-success listener.  Otherwise it returns false, the status is
    [error] with the message of the check that failed, and each
    connect-error listener is called with that error.  The configuration
    is stored either way, and progress is left as it was.  In particular
    a URL with "error" anywhere in it is refused. *)
Theorem dav_connect_outcome :
  (forall cfg a w,
     let r := WebDAVAdapter.connect cfg (a, w) in
     let a' := fst (state r) in
     WebDAVAdapter.config a' = Some cfg /\
     match dav_objection (WebDAVAdapter.url cfg) with
     | None =>
         result r = Normal true /\
         WebDAVAdapter.getSyncStatus a' = connected_status (WebDAVAdapter.getSyncStatus a) /\
         since w (snd (state r)) = dav_heard "connect-success" nothing a' /\
         forall l,
           calls "connect-success" l (since w (snd (state r)))
           = registered l (dav_listeners "connect-success" a) /\
           calls "connect-error" l (since w (snd (state r))) = 0
     | Some m =>
         result r = Normal false /\
         WebDAVAdapter.getSyncStatus a'
         = refused_status (WebDAVAdapter.getSyncStatus a) (JS.Error m) /\
         since w (snd (state r))
         = dav_heard "connect-error"
             {| pl_status := None;
                pl_error := Some {| message := m; details := JS.Error m |};
                pl_progress := None |} a' /\
         forall l,
           calls "connect-error" l (since w (snd (state r)))
           = registered l (dav_listeners "connect-error" a) /\
           calls "connect-success" l (since w (snd (state r))) = 0
     end) /\
  (forall cfg a w,
     JS.includes (WebDAVAdapter.url cfg) "error" = true ->
     result (WebDAVAdapter.connect cfg (a, w)) = Normal false).
Proof.
  split.
  - intros cfg a w r a'. subst a' r. rewrite dav_connect_run.
    destruct (dav_objection (WebDAVAdapter.url cfg)) as [m|]; cbn [state result fst snd];
      rewrite since_log.
    + split; [reflexivity |]. repeat split; try reflexivity.
      * now rewrite calls_dav_heard.
      * unfold dav_heard. now apply calls_heard_other.
    + split; [reflexivity |]. repeat split; try reflexivity.
      * now rewrite calls_dav_heard.
      * unfold dav_heard. now apply calls_heard_other.
  - intros cfg a w H. rewrite dav_connect_run. unfold dav_objection. rewrite H.
    destruct (negb (JS.truthy (JS.str (WebDAVAdapter.url cfg))));
      [reflexivity |].
    destruct (negb (JS.test_http_scheme (WebDAVAdapter.url cfg))); reflexivity.
Qed.

Lemma dav_connect_outcome_witness :
  JS.includes "https://example.com/errors" "error" = true /\
  result (WebDAVAdapter.connect (server "https://example.com/errors") (WebDAVAdapter.new, boot))
  = Normal false.
Proof.
  destruct dav_connect_outcome as [_ H].
  split; [reflexivity |].
  apply (H (server "https://example.com/errors") WebDAVAdapter.new boot). reflexivity.
Defined.

Lemma rs_connect_run cfg env a w :
  RemoteStorageAdapter.connect cfg env (a, w)
  = let st := BaseSyncAdapter.status (RemoteStorageAdapter.base a) in
    let a1 := RemoteStorageAdapter.set_config (Some cfg) a in
    let a2 := match RemoteStorageAdapter.discovery env with
              | inr info =>
                  if JS.truthy (JS.str (RemoteStorageAdapter.token cfg))
                  then RemoteStorageAdapter.set_token
                         (Some {| RemoteStorageAdapter.accessToken :=
                                    RemoteStorageAdapter.token cfg;
                                  RemoteStorageAdapter.tokenType := "Bearer" |})
                         (RemoteStorageAdapter.set_remoteInfo (Some info) a1)
                  else a1
              | inl _ => a1
              end in
    match rs_objection cfg env with
    | None =>
        let a3 := rs_with (connected_status st) a2 in
        (Normal true,
         (a3, log (base_heard "connected" nothing (RemoteStorageAdapter.base a3)) w))
    | Some t =>
        let a3 := rs_with (refused_status st t) a2 in
        (Normal false,
         (a3, log (base_heard "sync-error"
                     {| pl_status := Some (refused_status st t);
                        pl_error := Some {| message := JS.message_or t "连接失败";
                                            details := t |};
                        pl_progress := None |} (RemoteStorageAdapter.base a3)
                   ++ base_heard "connection-error"
                        (RemoteStorageAdapter.error_payload t "连接失败")
                        (RemoteStorageAdapter.base a3)) w))
    end.
Proof.
  unfold RemoteStorageAdapter.connect, rs_objection.
  rs_run; rewrite ?log_nil, ?log_log; try discriminate; reflexivity.
Qed.

(** X6.  [RemoteStorageAdapter.connect] never throws.  It returns true
    exactly when discovery succeeds, the token is non-empty and the
    connection test is answered with an ok response; the status is then
    [connected] and the listeners of "connected" are called.  Otherwise it
    returns false with status [error] and the message of what failed, and
    the failure is announced twice: to the sync-error listeners (by the
    status update) and to the connection-error listeners.  The
    configuration is stored either way. *)
Theorem rs_connect_outcome :
  forall cfg env a w,
    let r := RemoteStorageAdapter.connect cfg env (a, w) in
    let a' := fst (state r) in
    RemoteStorageAdapter.config a' = Some cfg /\
    match rs_objection cfg env with
    | None =>
        result r = Normal true /\
        RemoteStorageAdapter.getSyncStatus a'
        = connected_status (RemoteStorageAdapter.getSyncStatus a) /\
        forall l,
          calls "connected" l (since w (snd (state r)))
          = registered l (base_listeners "connected" (RemoteStorageAdapter.base a)) /\
          calls "sync-error" l (since w (snd (state r))) = 0 /\
          calls "connection-error" l (since w (snd (state r))) = 0
    | Some t =>
        result r = Normal false /\
        RemoteStorageAdapter.getSyncStatus a'
        = refused_status (RemoteStorageAdapter.getSyncStatus a) t /\
        forall l,
          calls "sync-error" l (since w (snd (state r)))
          = registered l (base_listeners "sync-error" (RemoteStorageAdapter.base a)) /\
          calls "connection-error" l (since w (snd (state r)))
          = registered l (base_listeners "connection-error" (RemoteStorageAdapter.base a)) /\
          calls "connected" l (since w (snd (state r))) = 0
    end.
Proof.
  intros cfg env a w r a'. subst a' r. rewrite rs_connect_run. cbv zeta.
  assert (Hl : forall e st,
             base_listeners e
               (RemoteStorageAdapter.base
                  (rs_with st
                     match RemoteStorageAdapter.discovery env with
                     | inl _ => RemoteStorageAdapter.set_config (Some cfg) a
                     | inr info =>
                         if JS.truthy (JS.str (RemoteStorageAdapter.token cfg))
                         then RemoteStorageAdapter.set_token
                                (Some {| RemoteStorageAdapter.accessToken :=
                                           RemoteStorageAdapter.token cfg;
                                         RemoteStorageAdapter.tokenType := "Bearer" |})
                                (RemoteStorageAdapter.set_remoteInfo (Some info)
                                   (RemoteStorageAdapter.set_config (Some cfg) a))
                         else RemoteStorageAdapter.set_config (Some cfg) a
                     end))
             = base_listeners e (RemoteStorageAdapter.base a)).
  { intros e st. destruct (RemoteStorageAdapter.discovery env); [reflexivity |].
    destruct (JS.truthy (JS.str (RemoteStorageAdapter.token cfg))); reflexivity. }
  destruct (rs_objection cfg env) as [t|]; cbn [state result fst snd]; rewrite since_log.
  - split; [| split; [reflexivity | split]].
    + destruct (RemoteStorageAdapter.discovery env); [reflexivity |].
      destruct (JS.truthy (JS.str (RemoteStorageAdapter.token cfg))); reflexivity.
    + destruct (RemoteStorageAdapter.discovery env); [reflexivity |].
      destruct (JS.truthy (JS.str (RemoteStorageAdapter.token cfg))); reflexivity.
    + intros l. rewrite !calls_app, !calls_base_heard, !Hl.
      unfold base_heard.
      rewrite !(calls_heard_other _ (base_event "connection-error" _)) by discriminate.
      rewrite !(calls_heard_other _ (base_event "sync-error" _)) by discriminate.
      repeat split; lia.
  - split; [| split; [reflexivity | split]].
    + destruct (RemoteStorageAdapter.discovery env); [reflexivity |].
      destruct (JS.truthy (JS.str (RemoteStorageAdapter.token cfg))); reflexivity.
    + destruct (RemoteStorageAdapter.discovery env); [reflexivity |].
      destruct (JS.truthy (JS.str (RemoteStorageAdapter.token cfg))); reflexivity.
    + intros l. rewrite !calls_base_heard, !Hl.
      unfold base_heard.
      rewrite !(calls_heard_other _ (base_event "connected" _)) by discriminate.
      repeat split; reflexivity.
Qed.

End ConnectProperties.

Section PassEvents.

Import SyncAdapter Host Registry RemoteStorageAdapter Announced.

Lemma calls_base_heard_at event e data b l :
  calls event l (base_heard e data b)
  = if String.eqb event e then registered l (base_listeners e b) else 0.
Proof.
  destruct (String.eqb event e) eqn:E.
  - apply String.eqb_eq in E. subst e. apply calls_base_heard.
  - apply String.eqb_neq in E. unfold base_heard. apply calls_heard_other.
    simpl. congruence.
Qed.

Lemma calls_announced event l p b :
  calls event l (base_announced p b)
  = match announces p with
    | Some e => if String.eqb event e then registered l (base_listeners e b) else 0
    | None => 0
    end.
Proof.
  unfold base_announced, announces.
  destruct (p_status p) as [[]|]; try reflexivity; apply calls_base_heard_at.
Qed.

Lemma calls_LocalPut event l ds : calls event l (map LocalPut ds) = 0.
Proof. unfold calls. induction ds; simpl; auto. Qed.

Lemma calls_RemotePut event l ds : calls event l (map RemotePut ds) = 0.
Proof. unfold calls. induction ds; simpl; auto. Qed.

Ltac by_event event :=
  destruct (String.eqb event "sync-progress") eqn:?E1;
    [apply String.eqb_eq in E1; subst event; simpl; try lia |];
  [.. | destruct (String.eqb event "sync-error") eqn:?E2;
    [apply String.eqb_eq in E2; subst event; simpl; try lia |];
    [.. | destruct (String.eqb event "sync-complete") eqn:?E3;
      [apply String.eqb_eq in E3; subst event; simpl; try lia | simpl; try lia]]].

Lemma rs_triggerSync_calls env a w d i k event l :
  localDB a = Some d -> remoteInfo a = Some i -> token_ a = Some k ->
  calls event l (since w (snd (state (triggerSync env (a, w)))))
  = pass_dispatches env event * registered l (base_listeners event (base a)).
Proof.
  intros Hd Hi Hk. unfold triggerSync, pass_dispatches, stages, pass_failure.
  unfold bind at 1, gets at 1. rs_simpl. rewrite Hd, Hi, Hk.
  unfold try_catch, bind. rewrite rs_updateStatus_run.
  erewrite rs_listRemoteDocuments_run by (rs_simpl; eassumption).
  destruct (listed env) as [t|remoteDocs].
  { rewrite rs_updateStatus_run; rs_simpl. rewrite rs_dispatchEvent_run, !log_log.
    cbn [state snd]. rewrite since_log, !calls_app, !calls_announced, calls_base_heard_at. simpl.
    unfold base_listeners; simpl.
    by_event event. }
  rewrite rs_updateStatus_run; rs_simpl.
  destruct (allDocs env) as [t|localDocs]; rs_simpl.
  { rewrite rs_updateStatus_run; rs_simpl. rewrite rs_dispatchEvent_run, !log_log.
    cbn [state snd]. rewrite since_log, !calls_app, !calls_announced, calls_base_heard_at. simpl.
    unfold base_listeners; simpl.
    by_event event. }
  rewrite rs_updateStatus_run; rs_simpl. rewrite rs_pull_run.
  destruct (pulled env localDocs remoteDocs) as [ds [t|]]; rs_simpl.
  { rewrite rs_updateStatus_run; rs_simpl. rewrite rs_dispatchEvent_run, !log_log.
    cbn [state snd]. rewrite since_log, !calls_app, !calls_announced, calls_base_heard_at, calls_LocalPut.
    simpl. unfold base_listeners; simpl.
    by_event event. }
  erewrite rs_push_run by (rs_simpl; eassumption).
  destruct (pushed env remoteDocs localDocs) as [us [t|]]; rs_simpl.
  { rewrite rs_updateStatus_run; rs_simpl. rewrite rs_dispatchEvent_run, !log_log.
    cbn [state snd]. rewrite since_log, !calls_app, !calls_announced, calls_base_heard_at, calls_LocalPut,
      calls_RemotePut.
    simpl. unfold base_listeners; simpl.
    by_event event. }
  rewrite rs_updateStatus_run; rs_simpl. rewrite rs_dispatchEvent_run, !log_log.
  cbn [state snd]. rewrite since_log, !calls_app, !calls_announced, calls_base_heard_at, calls_LocalPut,
    calls_RemotePut.
  simpl. unfold base_listeners; simpl.
  by_event event.
Qed.

End PassEvents.

Section StartSyncProperties.

Import SyncAdapter Host Registry RemoteStorageAdapter Announced.

(** A number above zero is truthy. *)
Lemma ltb_0_truthy x :
  PrimFloat.ltb 0 x = true -> PrimFloat.is_zero x || PrimFloat.is_nan x = false.
Proof.
  intros H. rewrite FloatAxioms.ltb_spec in H.
  unfold PrimFloat.is_zero, PrimFloat.is_nan. rewrite !FloatAxioms.eqb_spec.
  change (Prim2SF 0) with (S754_zero false) in *.
  change (Prim2SF PrimFloat.zero) with (S754_zero false) in *.
  destruct (Prim2SF x) as [s| s | |s m e]; simpl in *; try discriminate.
  - unfold SFltb in H. simpl in H. destruct s; [discriminate | reflexivity].
  - unfold SFltb in H. simpl in H. destruct s; simpl in *; try discriminate.
    unfold SFeqb, SFcompare. simpl. rewrite Z.compare_refl.
    replace (PosDef.Pos.compare_cont Eq m m) with Eq; [reflexivity |].
    symmetry. apply Pos.compare_refl.
Qed.

Lemma since_trace w w' os : trace w' = trace w ++ os -> since w w' = os.
Proof. intros H. unfold since. rewrite H. apply drop_app_length. Qed.

(** [startSync] on an adapter that holds its connection: the first pass,
    then the timer if the interval is above zero. *)
Lemma rs_startSync_run a w db env cfg i k :
  config a = Some cfg -> remoteInfo a = Some i -> token_ a = Some k ->
  exists os,
    List.filter is_write os = pass_writes env /\
    (forall event l,
       calls event l os = pass_dispatches env event * registered l (base_listeners event (base a))) /\
    let a1 := rs_with (pass_status env (getSyncStatus a)) (set_localDB (Some db) a) in
    startSync db env (a, w)
    = match autoSyncInterval cfg with
      | Some ms =>
          if PrimFloat.ltb 0 ms
          then (Normal tt,
                (set_autoSyncTimer (Some (fresh w)) a1,
                 snd (setInterval ms (log os w))))
          else (Normal tt, (a1, log os w))
      | None => (Normal tt, (a1, log os w))
      end.
Proof.
  intros Hc Hi Hk.
  destruct (rs_triggerSync_run env (set_localDB (Some db) a) w db i k)
    as (os & Hrun & Hw); [reflexivity | exact Hi | exact Hk |].
  exists os. split; [exact Hw |]. split.
  - intros event l.
    pose proof (rs_triggerSync_calls env (set_localDB (Some db) a) w db i k event l
                  eq_refl Hi Hk) as H.
    rewrite Hrun in H. simpl in H. now rewrite since_log in H.
  - cbv zeta. unfold startSync. unfold bind at 1, gets at 1. rs_simpl. rewrite Hc, Hi, Hk.
    unfold bind at 1, modify at 1. unfold bind at 1. rewrite Hrun.
    destruct (autoSyncInterval cfg) as [ms|]; simpl; [| reflexivity].
    destruct (PrimFloat.ltb 0 ms) eqn:Hpos.
    + rewrite (ltb_0_truthy ms Hpos). reflexivity.
    + rewrite andb_false_r. reflexivity.
Qed.

(** X7.  The events of one pass.  When [startSync] runs its pass, the
    sync-progress listeners are called once per checkpoint reached (one to
    three times); a pass without failure then calls the sync-complete
    listeners once and the sync-error listeners not at all; a failed pass
    calls the sync-error listeners twice (once from the status update,
    once from the explicit dispatch) and the sync-complete listeners not
    at all. *)
Theorem rs_pass_events :
  forall a w db env cfg i k l,
    config a = Some cfg -> remoteInfo a = Some i -> token_ a = Some k ->
    let tr := since w (snd (state (startSync db env (a, w)))) in
    1 <= stages env <= 3 /\
    calls "sync-progress" l tr
    = stages env * registered l (base_listeners "sync-progress" (base a)) /\
    match pass_failure env with
    | None =>
        calls "sync-complete" l tr = registered l (base_listeners "sync-complete" (base a)) /\
        calls "sync-error" l tr = 0
    | Some _ =>
        calls "sync-error" l tr = 2 * registered l (base_listeners "sync-error" (base a)) /\
        calls "sync-complete" l tr = 0
    end.
Proof.
  intros a w db env cfg i k l Hc Hi Hk tr. subst tr.
  destruct (rs_startSync_run a w db env cfg i k Hc Hi Hk) as (os & _ & Hcalls & Hrun).
  cbv zeta in Hrun.
  assert (Hsince : forall event,
             calls event l (since w (snd (state (startSync db env (a, w)))))
             = calls event l os).
  { intros event. rewrite Hrun.
    destruct (autoSyncInterval cfg) as [ms|]; [destruct (PrimFloat.ltb 0 ms) |];
      cbn [state snd]; rewrite ?since_log; try reflexivity.
    rewrite (since_trace w _ (os ++ [SetInterval (fresh w) ms])).
    - rewrite calls_app. unfold calls at 2. simpl. lia.
    - simpl. now rewrite app_assoc. }
  rewrite !Hsince, !Hcalls. unfold pass_dispatches.
  split; [unfold stages; destruct (listed env); [| destruct (allDocs env)]; lia |].
  split; [simpl; lia |].
  destruct (pass_failure env); simpl; lia.
Qed.

Lemma rs_pass_events_witness :
  calls "sync-error" 1
    (since boot
       (snd (state (startSync 1 Fixture.unavailable
                      (addEventListener "sync-error" (quiet 1) attached, boot))))) = 2 /\
  calls "sync-complete" 1
    (since boot
       (snd (state (startSync 1 Fixture.unavailable
                      (addEventListener "sync-error" (quiet 1) attached, boot))))) = 0.
Proof.
  destruct (rs_pass_events (addEventListener "sync-error" (quiet 1) attached) boot 1
              Fixture.unavailable account endpoint Fixture.bearer 1
              eq_refl eq_refl eq_refl) as (_ & _ & H).
  exact H.
Defined.

(** X8.  [startSync] on an adapter that holds its connection resolves
    whatever the pass meets: a failure of the listing, of the local read,
    of a put or of an upload is not thrown to the caller.  Afterwards the
    adapter holds the local store; the status is [completed] with progress
    100 (an earlier error still recorded) when nothing failed, and
    otherwise [error] with the message of what failed and the progress of
    the last checkpoint; the store calls made are those of the pass. *)
Theorem rs_startSync_outcome :
  forall a w db env cfg i k,
    config a = Some cfg -> remoteInfo a = Some i -> token_ a = Some k ->
    let r := startSync db env (a, w) in
    result r = Normal tt /\
    localDB (fst (state r)) = Some db /\
    List.filter is_write (since w (snd (state r))) = pass_writes env /\
    getSyncStatus (fst (state r))
    = match pass_failure env with
      | None => {| status := completed; progress := Some 100%float;
                   error_ := error_ (getSyncStatus a) |}
      | Some t => {| status := error; progress := Some (checkpoint env);
                     error_ := Some {| message := JS.message_or t "同步失败";
                                       details := t |} |}
      end.
Proof.
  intros a w db env cfg i k Hc Hi Hk r. subst r.
  destruct (rs_startSync_run a w db env cfg i k Hc Hi Hk) as (os & Hw & _ & Hrun).
  cbv zeta in Hrun. rewrite Hrun. unfold pass_status.
  destruct (autoSyncInterval cfg) as [ms|]; [destruct (PrimFloat.ltb 0 ms) |];
    cbn [state result fst snd]; rewrite ?since_log;
    try (rewrite (since_trace w _ (os ++ [SetInterval (fresh w) ms]))
           by (simpl; now rewrite app_assoc);
         rewrite List.filter_app; simpl; rewrite app_nil_r);
    (split; [reflexivity |]); (split; [reflexivity |]);
    (split; [exact Hw | destruct (pass_failure env); reflexivity]).
Qed.

Lemma rs_startSync_outcome_witness :
  result (startSync 1 Fixture.unavailable (attached, boot)) = Normal tt /\
  status (getSyncStatus (fst (state (startSync 1 Fixture.unavailable (attached, boot)))))
  = error.
Proof.
  destruct (rs_startSync_outcome attached boot 1 Fixture.unavailable account endpoint
              Fixture.bearer eq_refl eq_refl eq_refl) as (H1 & _ & _ & H4).
  split; [exact H1 |]. rewrite H4. reflexivity.
Defined.

(** X9.  [startSync] arms the auto-sync timer exactly when the configured
    interval is a number above zero (not when it is absent, zero, negative
    or NaN), and does so whether or not the first pass failed.  The timer
    it arms is a new one; the timers that were armed stay armed. *)
Theorem rs_startSync_timer :
  forall a w db env cfg i k,
    config a = Some cfg -> remoteInfo a = Some i -> token_ a = Some k ->
    let s' := state (startSync db env (a, w)) in
    match autoSyncInterval cfg with
    | Some ms =>
        if PrimFloat.ltb 0 ms
        then timers (snd s') = timers w ++ [fresh w] /\
             autoSyncTimer (fst s') = Some (fresh w) /\
             In (SetInterval (fresh w) ms) (since w (snd s'))
        else timers (snd s') = timers w /\ autoSyncTimer (fst s') = autoSyncTimer a
    | None => timers (snd s') = timers w /\ autoSyncTimer (fst s') = autoSyncTimer a
    end.
Proof.
  intros a w db env cfg i k Hc Hi Hk s'. subst s'.
  destruct (rs_startSync_run a w db env cfg i k Hc Hi Hk) as (os & _ & _ & Hrun).
  cbv zeta in Hrun. rewrite Hrun.
  destruct (autoSyncInterval cfg) as [ms|]; [destruct (PrimFloat.ltb 0 ms) |];
    cbn [state fst snd]; try (split; reflexivity).
  split; [reflexivity | split; [reflexivity |]].
  rewrite (since_trace w _ (os ++ [SetInterval (fresh w) ms]))
    by (simpl; now rewrite app_assoc).
  apply in_or_app. right. now left.
Qed.

Lemma rs_startSync_timer_witness :
  timers (snd (state (startSync 1 Fixture.unavailable (Fixture.timed, boot)))) = [1] /\
  timers (snd (state (startSync 1 Fixture.unavailable (attached, boot)))) = [].
Proof.
  split.
  - destruct (rs_startSync_timer Fixture.timed boot 1 Fixture.unavailable scheduled endpoint
                Fixture.bearer eq_refl eq_refl eq_refl) as (H & _).
    exact H.
  - destruct (rs_startSync_timer attached boot 1 Fixture.unavailable account endpoint
                Fixture.bearer eq_refl eq_refl eq_refl) as (H & _).
    exact H.
Defined.

End StartSyncProperties.

Section MergeDirections.

Import SyncAdapter Host Registry RemoteStorageAdapter.

Lemma nat_of_ascii_inj x y : nat_of_ascii x = nat_of_ascii y -> x = y.
Proof.
  intros H. rewrite <- (ascii_nat_embedding x), <- (ascii_nat_embedding y). now rewrite H.
Qed.

(** Two different strings are ordered one way or the other. *)
Lemma str_gt_total a b : a <> b -> JS.str_gt a b = true \/ JS.str_gt b a = true.
Proof.
  revert b. induction a as [|x a IH]; intros [|y b] Hne; simpl; auto.
  destruct (nat_of_ascii y <? nat_of_ascii x)%nat eqn:Hyx; [now left |].
  destruct (nat_of_ascii x <? nat_of_ascii y)%nat eqn:Hxy; [now right |].
  apply Nat.ltb_ge in Hyx, Hxy.
  assert (x = y) by (apply nat_of_ascii_inj; lia). subst y.
  apply IH. congruence.
Qed.

Lemma str_gt_trans a b c :
  JS.str_gt a b = true -> JS.str_gt b c = true -> JS.str_gt a c = true.
Proof.
  revert b c. induction a as [|x a IH]; intros [|y b] [|z c]; simpl; try discriminate; auto.
  destruct (nat_of_ascii y <? nat_of_ascii x)%nat eqn:Hyx;
    destruct (nat_of_ascii z <? nat_of_ascii y)%nat eqn:Hzy;
    destruct (nat_of_ascii x <? nat_of_ascii y)%nat eqn:Hxy;
    destruct (nat_of_ascii y <? nat_of_ascii z)%nat eqn:Hyz;
    destruct (nat_of_ascii z <? nat_of_ascii x)%nat eqn:Hzx;
    destruct (nat_of_ascii x <? nat_of_ascii z)%nat eqn:Hxz;
    try discriminate; try reflexivity;
    repeat match goal with
           | H : (_ <? _)%nat = true |- _ => apply Nat.ltb_lt in H
           | H : (_ <? _)%nat = false |- _ => apply Nat.ltb_ge in H
           end; try lia.
  apply IH.
Qed.

Lemma str_gt_nonempty a b : JS.str_gt a b = true -> JS.truthy_str (Some a) = true.
Proof. destruct a; [discriminate | reflexivity]. Qed.

Lemma find_row_none localDocs k row :
  find_row localDocs k = None -> In row localDocs -> id row <> k.
Proof.
  unfold find_row. intros H Hin E.
  apply (find_none _ _ H) in Hin. apply String.eqb_neq in Hin. contradiction.
Qed.

Lemma find_doc_none remoteDocs k d :
  find_doc remoteDocs k = None -> In d remoteDocs -> _id d <> k.
Proof.
  unfold find_doc. intros H Hin E.
  apply (find_none _ _ H) in Hin. apply String.eqb_neq in Hin. contradiction.
Qed.

(** A step that ends without a failure has reached every document. *)
Lemma pulled_complete env localDocs remoteDocs x :
  snd (pulled env localDocs remoteDocs) = None ->
  In x remoteDocs -> remote_wins localDocs x = true ->
  In x (fst (pulled env localDocs remoteDocs)).
Proof.
  induction remoteDocs as [|d rest IH]; simpl; [tauto |].
  destruct (remote_wins localDocs d) eqn:Hwin.
  - destruct (put env d); [discriminate |].
    destruct (pulled env localDocs rest) as [ds r]; simpl in *.
    intros Hr [->|Hin] Hx; auto.
  - intros Hr [->|Hin] Hx; [congruence | auto].
Qed.

Lemma pushed_complete env remoteDocs localDocs row x :
  snd (pushed env remoteDocs localDocs) = None ->
  In row localDocs -> local_wins remoteDocs row = Some x ->
  In x (fst (pushed env remoteDocs localDocs)).
Proof.
  induction localDocs as [|r0 rest IH]; simpl; [tauto |].
  destruct (local_wins remoteDocs r0) as [d|] eqn:Hwin.
  - destruct (uploaded env d); [discriminate |].
    destruct (pushed env remoteDocs rest) as [ds r]; simpl in *.
    intros Hr [->|Hin] Hx; [left; congruence | auto].
  - intros Hr [->|Hin] Hx; [congruence | auto].
Qed.

(** The store calls of a pass that completes. *)
Lemma pass_complete_writes env :
  pass_failure env = None ->
  (forall x, In x (fetched env) -> remote_wins (rows env) x = true ->
             In (LocalPut x) (pass_writes env)) /\
  (forall row x, In row (rows env) -> local_wins (fetched env) row = Some x ->
                 In (RemotePut x) (pass_writes env)).
Proof.
  unfold pass_failure, pass_writes, fetched, rows.
  destruct (listed env) as [t|remoteDocs]; [discriminate |].
  destruct (allDocs env) as [t|localDocs]; [discriminate |].
  pose proof (pulled_complete env localDocs remoteDocs) as Hpull.
  pose proof (pushed_complete env remoteDocs localDocs) as Hpush.
  destruct (pulled env localDocs remoteDocs) as [ds [t|]]; [discriminate |].
  simpl in *. intros Hf. split.
  - intros x Hin Hwin. apply in_or_app. left. apply in_map. now apply Hpull.
  - intros row x Hin Hwin. apply in_or_app. right. apply in_map. now apply (Hpush row).
Qed.

(** The store calls seen in the trace of a pass of a connected adapter are
    those of [pass_writes]. *)
Lemma pass_observed_all env a w d i k o :
  localDB a = Some d -> remoteInfo a = Some i -> token_ a = Some k ->
  In o (pass_writes env) -> In o (since w (snd (state (triggerSync env (a, w))))).
Proof.
  intros Hd Hi Hk Hin.
  destruct (rs_triggerSync_run env a w d i k Hd Hi Hk) as (os & -> & Hw); simpl.
  rewrite since_log. rewrite <- Hw in Hin. now apply filter_In in Hin.
Qed.

(** Who wins between a remote document and the local row of the same
    name, both carrying a marker. *)
Lemma remote_wins_pair env d l ld rv lv :
  Spec.consistent env -> In d (fetched env) -> In l (rows env) ->
  id l = _id d -> doc l = Some ld -> _rev d = Some rv -> _rev ld = Some lv ->
  remote_wins (rows env) d = negb (JS.truthy_str (Some lv)) || JS.str_gt rv lv.
Proof.
  intros (HndR & HndL & Hwf) Hd Hl Hid Hdoc Hrd Hrl.
  unfold remote_wins. now rewrite <- Hid, (find_row_unique _ _ HndL Hl), Hdoc, Hrd, Hrl.
Qed.

Lemma local_wins_pair env d l ld rv lv :
  Spec.consistent env -> In d (fetched env) -> In l (rows env) ->
  id l = _id d -> doc l = Some ld -> _rev d = Some rv -> _rev ld = Some lv ->
  local_wins (fetched env) l
  = if negb (JS.truthy_str (Some lv)) then None
    else if JS.str_gt lv rv then Some ld else None.
Proof.
  intros (HndR & HndL & Hwf) Hd Hl Hid Hdoc Hrd Hrl.
  unfold local_wins. rewrite Hdoc, Hrl, Hid, (find_doc_unique _ _ HndR Hd), Hrd. reflexivity.
Qed.

(** A store call under the name of [d] is a call with [d] itself (local
    side) or with the document of the row of that name (remote side). *)
Lemma local_put_is env x d :
  Spec.consistent env -> In d (fetched env) ->
  In (LocalPut x) (pass_writes env) -> _id x = _id d ->
  x = d /\ remote_wins (rows env) d = true.
Proof.
  intros (HndR & HndL & Hwf) Hd Hin Hx.
  apply pass_writes_local in Hin as [HxR Hwin].
  assert (x = d) as ->; [| auto].
  pose proof (find_doc_unique _ _ HndR HxR) as H1.
  pose proof (find_doc_unique _ _ HndR Hd) as H2. rewrite Hx in H1. congruence.
Qed.

Lemma remote_put_is env x l :
  Spec.consistent env -> In l (rows env) ->
  In (RemotePut x) (pass_writes env) -> _id x = id l ->
  doc l = Some x /\ local_wins (fetched env) l = Some x.
Proof.
  intros (HndR & HndL & Hwf) Hl Hin Hx.
  apply pass_writes_remote in Hin as (row & Hrow & Hwin).
  pose proof (local_wins_doc _ _ _ Hwin) as Hrowdoc.
  assert (row = l) as ->; [| auto].
  pose proof (find_row_unique _ _ HndL Hrow) as H1.
  pose proof (find_row_unique _ _ HndL Hl) as H2.
  rewrite <- (Hwf _ _ Hrow Hrowdoc), Hx in H1. congruence.
Qed.

End MergeDirections.

Section MergeOutcomes.

Import SyncAdapter Host Registry RemoteStorageAdapter.

(** X10.  The mirror of the remote-wins rule, for markers of ASCII
    characters, on which the order of [str_gt] is the order of the
    program's [>]: in a pass of a connected adapter that completes, with
    each identifier listed once on each side, a local document whose
    marker sorts above the marker of the remote document with the same
    identifier is sent to the remote store, and nothing is put into the
    local store under that identifier. *)
Theorem reconcile_local_newer_wins :
  forall env a w db i k d l ld rv lv,
    localDB a = Some db -> remoteInfo a = Some i -> token_ a = Some k ->
    pass_failure env = None ->
    Spec.consistent env ->
    In d (fetched env) -> In l (rows env) ->
    id l = _id d -> doc l = Some ld ->
    _rev d = Some rv -> _rev ld = Some lv ->
    JS.ascii_only rv = true -> JS.ascii_only lv = true ->
    JS.str_gt lv rv = true ->
    In (RemotePut ld) (since w (snd (state (triggerSync env (a, w))))) /\
    forall x, In (LocalPut x) (since w (snd (state (triggerSync env (a, w))))) ->
              _id x <> _id d.
Proof.
  intros env a w db i k d l ld rv lv Hdb Hi Hk Hok Hcons Hd Hl Hid Hdoc Hrd Hrl _ _ Hgt.
  pose proof (local_wins_pair env d l ld rv lv Hcons Hd Hl Hid Hdoc Hrd Hrl) as Hlw.
  pose proof (remote_wins_pair env d l ld rv lv Hcons Hd Hl Hid Hdoc Hrd Hrl) as Hrw.
  rewrite (str_gt_nonempty _ _ Hgt), Hgt in Hlw. simpl in Hlw.
  rewrite (str_gt_nonempty _ _ Hgt), (str_gt_asym _ _ Hgt) in Hrw. simpl in Hrw.
  split.
  - apply (pass_observed_all env a w db i k); try assumption.
    now apply (proj2 (pass_complete_writes env Hok) l).
  - intros x Hx Hidx.
    pose proof (pass_observed env a w _ Hx eq_refl) as Hin.
    destruct (local_put_is env x d Hcons Hd Hin Hidx) as [_ Hwin]. congruence.
Qed.

Lemma reconcile_local_newer_wins_witness :
  JS.str_gt "3" "2" = true /\
  In (RemotePut (note "a" "3" "local"))
     (since boot
        (snd (state (triggerSync (pass [note "a" "2" "remote"] [note "a" "3" "local"])
                       (attached, boot))))).
Proof.
  split; [reflexivity |].
  apply (reconcile_local_newer_wins
           (pass [note "a" "2" "remote"] [note "a" "3" "local"]) attached boot
           1 endpoint Fixture.bearer
           (note "a" "2" "remote") (filed (note "a" "3" "local")) (note "a" "3" "local")
           "2" "3").
  - reflexivity.
  - reflexivity.
  - reflexivity.
  - reflexivity.
  - split; [| split].
    + repeat constructor. intros [].
    + repeat constructor. intros [].
    + intros row d [<-|[]] [= <-]. reflexivity.
  - left. reflexivity.
  - left. reflexivity.
  - reflexivity.
  - reflexivity.
  - reflexivity.
  - reflexivity.
  - reflexivity.
  - reflexivity.
  - reflexivity.
Defined.

(** X11.  Documents that exist on one side only.  In a pass that
    completes, a remote document with no local row of its identifier is
    put into the local store and not sent back; a local document that
    carries a marker and has no remote counterpart is sent to the remote
    store and not overwritten locally; a local document without a marker
    is never sent, and a remote document of the same identifier replaces
    it. *)
Theorem reconcile_one_sided :
  forall env a w db i k,
    localDB a = Some db -> remoteInfo a = Some i -> token_ a = Some k ->
    pass_failure env = None ->
    Spec.consistent env ->
    let tr := since w (snd (state (triggerSync env (a, w)))) in
    (forall d, In d (fetched env) -> find_row (rows env) (_id d) = None ->
               In (LocalPut d) tr /\ forall x, In (RemotePut x) tr -> _id x <> _id d) /\
    (forall l ld, In l (rows env) -> doc l = Some ld ->
                  JS.truthy_str (_rev ld) = true ->
                  find_doc (fetched env) (id l) = None ->
                  In (RemotePut ld) tr /\ forall x, In (LocalPut x) tr -> _id x <> id l) /\
    (forall l ld, In l (rows env) -> doc l = Some ld ->
                  JS.truthy_str (_rev ld) = false ->
                  (forall x, In (RemotePut x) tr -> _id x <> id l) /\
                  (forall d, In d (fetched env) -> _id d = id l -> In (LocalPut d) tr)).
Proof.
  intros env a w db i k Hdb Hi Hk Hok Hcons tr. subst tr.
  destruct (pass_complete_writes env Hok) as [Hpull Hpush].
  pose proof Hcons as (HndR & HndL & Hwf).
  split; [| split].
  - intros d Hd Hnone. split.
    + apply (pass_observed_all env a w db i k); try assumption.
      apply Hpull; [assumption |]. unfold remote_wins. now rewrite Hnone.
    + intros x Hx Hidx.
      pose proof (pass_observed env a w _ Hx eq_refl) as Hin.
      apply pass_writes_remote in Hin as (row & Hrow & Hwin).
      pose proof (local_wins_doc _ _ _ Hwin) as Hrowdoc.
      apply (find_row_none _ _ row Hnone Hrow).
      now rewrite <- (Hwf _ _ Hrow Hrowdoc).
  - intros l ld Hl Hdoc Hrev Hnone. split.
    + apply (pass_observed_all env a w db i k); try assumption.
      apply (Hpush l); [assumption |]. unfold local_wins. now rewrite Hdoc, Hrev, Hnone.
    + intros x Hx Hidx.
      pose proof (pass_observed env a w _ Hx eq_refl) as Hin.
      apply pass_writes_local in Hin as [HxR _].
      now apply (find_doc_none _ _ x Hnone HxR).
  - intros l ld Hl Hdoc Hrev. split.
    + intros x Hx Hidx.
      pose proof (pass_observed env a w _ Hx eq_refl) as Hin.
      destruct (remote_put_is env x l Hcons Hl Hin Hidx) as [_ Hwin].
      unfold local_wins in Hwin. rewrite Hdoc, Hrev in Hwin. discriminate.
    + intros d Hd Hid.
      apply (pass_observed_all env a w db i k); try assumption.
      apply Hpull; [assumption |]. unfold remote_wins.
      rewrite Hid, (find_row_unique _ _ HndL Hl), Hdoc, Hrev. reflexivity.
Qed.

Lemma reconcile_one_sided_witness :
  In (LocalPut (note "r" "1" "remote"))
     (since boot
        (snd (state (triggerSync (pass [note "r" "1" "remote"] [note "l" "1" "local"])
                       (attached, boot))))) /\
  In (RemotePut (note "l" "1" "local"))
     (since boot
        (snd (state (triggerSync (pass [note "r" "1" "remote"] [note "l" "1" "local"])
                       (attached, boot))))).
Proof.
  destruct (reconcile_one_sided
              (pass [note "r" "1" "remote"] [note "l" "1" "local"]) attached boot
              1 endpoint Fixture.bearer eq_refl eq_refl eq_refl eq_refl)
    as (H1 & H2 & _).
  - split; [| split].
    + repeat constructor. intros [].
    + repeat constructor. intros [].
    + intros row d [<-|[]] [= <-]. reflexivity.
  - split.
    + apply (H1 (note "r" "1" "remote")); [left; reflexivity | reflexivity].
    + apply (H2 (filed (note "l" "1" "local")) (note "l" "1" "local"));
        [left; reflexivity | reflexivity | reflexivity | reflexivity].
Defined.

(** X12.  A pass never writes one identifier in both directions: whatever
    state the adapter is in and whichever store calls fail, a document put
    into the local store and a document sent to the remote store in the
    same pass have different identifiers. *)
Theorem reconcile_never_both_ways :
  forall env a w x y,
    Spec.consistent env ->
    In (LocalPut x) (since w (snd (state (triggerSync env (a, w))))) ->
    In (RemotePut y) (since w (snd (state (triggerSync env (a, w))))) ->
    _id x <> _id y.
Proof.
  intros env a w x y Hcons Hx Hy Hid.
  pose proof Hcons as (HndR & HndL & Hwf).
  apply (pass_observed env a w _) in Hx; [| reflexivity].
  apply (pass_observed env a w _) in Hy; [| reflexivity].
  pose proof Hx as Hx'. apply pass_writes_local in Hx' as [HxR Hrw].
  pose proof Hy as Hy'. apply pass_writes_remote in Hy' as (row & Hrow & Hlw).
  pose proof (local_wins_doc _ _ _ Hlw) as Hrowdoc.
  pose proof (Hwf _ _ Hrow Hrowdoc) as Hrowid.
  unfold remote_wins in Hrw.
  rewrite Hid, Hrowid, (find_row_unique _ _ HndL Hrow), Hrowdoc in Hrw.
  unfold local_wins in Hlw. rewrite Hrowdoc in Hlw.
  destruct (JS.truthy_str (_rev y)); simpl in *; [| discriminate].
  rewrite <- Hrowid, <- Hid, (find_doc_unique _ _ HndR HxR) in Hlw.
  destruct (_rev x) as [rx|], (_rev y) as [ry|]; simpl in *; try discriminate.
  rewrite (str_gt_asym _ _ Hrw) in Hlw. discriminate.
Qed.

Lemma reconcile_never_both_ways_witness :
  In (LocalPut (note "a" "2" "remote"))
     (since boot
        (snd (state (triggerSync (pass [note "a" "2" "remote"; note "b" "1" "remote"]
                                       [note "a" "1" "local"; note "b" "2" "local"])
                       (attached, boot))))) /\
  In (RemotePut (note "b" "2" "local"))
     (since boot
        (snd (state (triggerSync (pass [note "a" "2" "remote"; note "b" "1" "remote"]
                                       [note "a" "1" "local"; note "b" "2" "local"])
                       (attached, boot))))) /\
  _id (note "a" "2" "remote") <> _id (note "b" "2" "local").
Proof.
  assert (H1 : In (LocalPut (note "a" "2" "remote"))
                 (since boot
                    (snd (state (triggerSync
                                   (pass [note "a" "2" "remote"; note "b" "1" "remote"]
                                         [note "a" "1" "local"; note "b" "2" "local"])
                                   (attached, boot))))))
    by (vm_compute; auto 10).
  assert (H2 : In (RemotePut (note "b" "2" "local"))
                 (since boot
                    (snd (state (triggerSync
                                   (pass [note "a" "2" "remote"; note "b" "1" "remote"]
                                         [note "a" "1" "local"; note "b" "2" "local"])
                                   (attached, boot))))))
    by (vm_compute; auto 10).
  split; [exact H1 | split; [exact H2 |]].
  apply (reconcile_never_both_ways
           (pass [note "a" "2" "remote"; note "b" "1" "remote"]
                 [note "a" "1" "local"; note "b" "2" "local"]) attached boot
           (note "a" "2" "remote") (note "b" "2" "local")).
  - split; [| split].
    + repeat constructor; simpl; intuition discriminate.
    + repeat constructor; simpl; intuition discriminate.
    + intros row d [<-|[<-|[]]] [= <-]; reflexivity.
  - exact H1.
  - exact H2.
Defined.

End MergeOutcomes.

Section MergeCompleteness.

Import SyncAdapter Host Registry RemoteStorageAdapter.

(** A remote document without a marker neither replaces a local document
    that has one nor is replaced by it. *)
Lemma unmarked_remote_pair env d l ld lv :
  Spec.consistent env -> In d (fetched env) -> In l (rows env) ->
  id l = _id d -> doc l = Some ld -> _rev d = None -> _rev ld = Some lv -> lv <> "" ->
  remote_wins (rows env) d = false /\ local_wins (fetched env) l = None.
Proof.
  intros (HndR & HndL & Hwf) Hd Hl Hid Hdoc Hrd Hrl Hne.
  apply String.eqb_neq in Hne. split.
  - unfold remote_wins. rewrite <- Hid, (find_row_unique _ _ HndL Hl), Hdoc, Hrd, Hrl.
    simpl. now rewrite Hne.
  - unfold local_wins. rewrite Hdoc, Hrl, Hid, (find_doc_unique _ _ HndR Hd), Hrd.
    simpl. now rewrite Hne.
Qed.

(** X13.  A remote and a local document of one identifier, in a pass of a
    connected adapter that completes, with each identifier listed once on
    each side.  When both carry a marker and the two markers are different
    strings of ASCII characters (on which the order of [str_gt] is the
    order of the program's [>]), exactly one of the two documents is
    written over the other: the remote one is put into the local store
    when the local marker is empty or the remote marker sorts above it;
    otherwise the local one is sent to the remote store.  When the remote
    document carries no marker and the local one a marker that is not
    empty, the two are left as they are: nothing is written under the
    identifier in either direction, in this pass and in any other. *)
Theorem reconcile_differing_markers :
  (forall env a w db i k d l ld rv lv,
     localDB a = Some db -> remoteInfo a = Some i -> token_ a = Some k ->
     pass_failure env = None ->
     Spec.consistent env ->
     In d (fetched env) -> In l (rows env) ->
     id l = _id d -> doc l = Some ld ->
     _rev d = Some rv -> _rev ld = Some lv ->
     JS.ascii_only rv = true -> JS.ascii_only lv = true ->
     rv <> lv ->
     let tr := since w (snd (state (triggerSync env (a, w)))) in
     if String.eqb lv "" || JS.str_gt rv lv
     then In (LocalPut d) tr /\ forall x, In (RemotePut x) tr -> _id x <> _id d
     else In (RemotePut ld) tr /\ forall x, In (LocalPut x) tr -> _id x <> _id d) /\
  (forall env a w d l ld lv,
     Spec.consistent env ->
     In d (fetched env) -> In l (rows env) ->
     id l = _id d -> doc l = Some ld ->
     _rev d = None -> _rev ld = Some lv -> lv <> "" ->
     let tr := since w (snd (state (triggerSync env (a, w)))) in
     (forall x, In (LocalPut x) tr -> _id x <> _id d) /\
     (forall x, In (RemotePut x) tr -> _id x <> _id d)).
Proof.
  split.
  - intros env a w db i k d l ld rv lv Hdb Hi Hk Hok Hcons Hd Hl Hid Hdoc Hrd Hrl _ _ Hne tr.
    subst tr.
    pose proof (local_wins_pair env d l ld rv lv Hcons Hd Hl Hid Hdoc Hrd Hrl) as Hlw.
    pose proof (remote_wins_pair env d l ld rv lv Hcons Hd Hl Hid Hdoc Hrd Hrl) as Hrw.
    destruct (pass_complete_writes env Hok) as [Hpull Hpush].
    simpl in Hlw, Hrw. rewrite negb_involutive in Hlw, Hrw.
    assert (Hside : local_wins (fetched env) l
                    = if String.eqb lv "" || JS.str_gt rv lv then None else Some ld).
    { rewrite Hlw. destruct (String.eqb lv "") eqn:E; [reflexivity |]. simpl.
      destruct (JS.str_gt rv lv) eqn:G.
      - now rewrite (str_gt_asym _ _ G).
      - destruct (str_gt_total rv lv Hne) as [H|H]; [congruence | now rewrite H]. }
    destruct (String.eqb lv "" || JS.str_gt rv lv) eqn:E.
    + split.
      * apply (pass_observed_all env a w db i k); try assumption. now apply Hpull.
      * intros x Hx Hidx.
        pose proof (pass_observed env a w _ Hx eq_refl) as Hin.
        assert (Hxl : _id x = id l) by congruence.
        destruct (remote_put_is env x l Hcons Hl Hin Hxl) as [_ Hwin]. congruence.
    + split.
      * apply (pass_observed_all env a w db i k); try assumption. now apply (Hpush l).
      * intros x Hx Hidx.
        pose proof (pass_observed env a w _ Hx eq_refl) as Hin.
        destruct (local_put_is env x d Hcons Hd Hin Hidx) as [_ Hwin]. congruence.
  - intros env a w d l ld lv Hcons Hd Hl Hid Hdoc Hrd Hrl Hne tr. subst tr.
    destruct (unmarked_remote_pair env d l ld lv Hcons Hd Hl Hid Hdoc Hrd Hrl Hne)
      as [Hrw Hlw].
    split.
    + intros x Hx Hidx.
      pose proof (pass_observed env a w _ Hx eq_refl) as Hin.
      destruct (local_put_is env x d Hcons Hd Hin Hidx) as [_ Hwin]. congruence.
    + intros x Hx Hidx.
      pose proof (pass_observed env a w _ Hx eq_refl) as Hin.
      assert (Hxl : _id x = id l) by congruence.
      destruct (remote_put_is env x l Hcons Hl Hin Hxl) as [_ Hwin]. congruence.
Qed.

Lemma reconcile_differing_markers_witness :
  In (RemotePut (note "a" "9" "local"))
     (since boot
        (snd (state (triggerSync (pass [note "a" "10" "remote"] [note "a" "9" "local"])
                       (attached, boot))))) /\
  Forall (fun o => forall x, o = LocalPut x -> _id x <> "a")
     (since boot
        (snd (state (triggerSync (pass [note "a" "10" "remote"] [note "a" "9" "local"])
                       (attached, boot))))) /\
  Forall (fun o => forall x, o = LocalPut x \/ o = RemotePut x -> _id x <> "a")
     (since boot
        (snd (state (triggerSync
                       (pass [Fixture.unmarked "a" "remote"] [note "a" "1" "local"])
                       (attached, boot))))).
Proof.
  destruct reconcile_differing_markers as [Hboth Hnone].
  pose proof (Hboth
                (pass [note "a" "10" "remote"] [note "a" "9" "local"]) attached boot
                1 endpoint Fixture.bearer
                (note "a" "10" "remote") (filed (note "a" "9" "local")) (note "a" "9" "local")
                "10" "9" eq_refl eq_refl eq_refl eq_refl) as H.
  cbv zeta in H.
  change (String.eqb "9" "" || JS.str_gt "10" "9") with false in H.
  destruct H as [H1 H2].
  - split; [| split].
    + repeat constructor. intros [].
    + repeat constructor. intros [].
    + intros row d [<-|[]] [= <-]. reflexivity.
  - left. reflexivity.
  - left. reflexivity.
  - reflexivity.
  - reflexivity.
  - reflexivity.
  - reflexivity.
  - reflexivity.
  - reflexivity.
  - discriminate.
  - destruct (Hnone
                (pass [Fixture.unmarked "a" "remote"] [note "a" "1" "local"]) attached boot
                (Fixture.unmarked "a" "remote") (filed (note "a" "1" "local"))
                (note "a" "1" "local") "1") as [H3 H4].
    + split; [| split].
      * repeat constructor. intros [].
      * repeat constructor. intros [].
      * intros row d [<-|[]] [= <-]. reflexivity.
    + left. reflexivity.
    + left. reflexivity.
    + reflexivity.
    + reflexivity.
    + reflexivity.
    + reflexivity.
    + discriminate.
    + split; [exact H1 | split].
      * apply List.Forall_forall. intros o Ho x ->. now apply H2.
      * apply List.Forall_forall. intros o Ho x [-> | ->]; [now apply H3 | now apply H4].
Defined.

(** What ends a step early ends it with a failure. *)
Lemma pulled_rejected env localDocs remoteDocs d t :
  In d remoteDocs -> remote_wins localDocs d = true -> put env d = Some t ->
  snd (pulled env localDocs remoteDocs) <> None.
Proof.
  induction remoteDocs as [|x rest IH]; simpl; [tauto |].
  intros [->|Hin] Hwin Hput.
  - now rewrite Hwin, Hput.
  - destruct (remote_wins localDocs x).
    + destruct (put env x); [discriminate |].
      specialize (IH Hin Hwin Hput).
      destruct (pulled env localDocs rest) as [ds r]; exact IH.
    + now apply IH.
Qed.

(** X14.  A failure ends the pass where it happens.  When the remote
    listing or the local read fails, the pass makes no store call at all;
    when the local store rejects a remote document that wins, nothing is
    sent to the remote store in that pass. *)
Theorem pass_aborts_on_failure :
  forall env a w,
    let tr := since w (snd (state (triggerSync env (a, w)))) in
    (forall t, listed env = inl t \/ allDocs env = inl t ->
               forall o, In o tr -> is_write o = false) /\
    (forall d t, In d (fetched env) -> remote_wins (rows env) d = true ->
                 put env d = Some t ->
                 forall x, ~ In (RemotePut x) tr).
Proof.
  intros env a w tr. subst tr. split.
  - intros t Hfail o Ho. destruct (is_write o) eqn:Hw; [| reflexivity].
    apply (pass_observed env a w o Ho) in Hw. revert Hw. unfold pass_writes.
    destruct Hfail as [-> | Hfail]; [intros [] |].
    rewrite Hfail. destruct (listed env); intros [].
  - intros d t Hd Hwin Hput x Hx.
    apply (pass_observed env a w _) in Hx; [| reflexivity].
    revert Hx. unfold pass_writes. unfold fetched in Hd. unfold rows in Hwin.
    destruct (listed env) as [e|remoteDocs]; [intros [] |].
    destruct (allDocs env) as [e|localDocs]; [intros [] |].
    pose proof (pulled_rejected env localDocs remoteDocs d t Hd Hwin Hput) as Hrej.
    destruct (pulled env localDocs remoteDocs) as [ds [e|]]; [| now elim Hrej].
    rewrite app_nil_r. intros Hin. apply in_map_iff in Hin as (y & Hy & _). discriminate.
Qed.

Lemma pass_aborts_on_failure_witness :
  Forall (fun o => is_write o = false)
    (since boot (snd (state (triggerSync Fixture.unavailable (attached, boot))))) /\
  Forall (fun o => forall x, o <> RemotePut x)
    (since boot
       (snd (state (triggerSync
                      (Fixture.readonly [note "a" "2" "remote"] [note "b" "1" "local"])
                      (attached, boot))))).
Proof.
  destruct (pass_aborts_on_failure Fixture.unavailable attached boot) as [H1 _].
  destruct (pass_aborts_on_failure
              (Fixture.readonly [note "a" "2" "remote"] [note "b" "1" "local"])
              attached boot) as [_ H2].
  split.
  - apply List.Forall_forall. intros o Ho.
    apply (H1 (JS.Error "获取远程文档列表失败: 500 Internal Server Error")).
    + left. reflexivity.
    + exact Ho.
  - apply List.Forall_forall. intros o Ho x ->.
    apply (H2 (note "a" "2" "remote") (JS.Error "conflict")) with (x := x).
    + left. reflexivity.
    + reflexivity.
    + reflexivity.
    + exact Ho.
Defined.

End MergeCompleteness.

Section WebDAVTimers.

Import SyncAdapter Host Registry WebDAVAdapter WebDAVRun Timers.

Lemma filter_self_out t :
  List.filter (fun x => negb (Nat.eqb x t)) [t] = [].
Proof. simpl. now rewrite Nat.eqb_refl. Qed.

Lemma dav_step_holds op s : dav_holds s -> dav_holds (step op s).
Proof.
  destruct s as [a w]. unfold dav_holds. cbn [fst snd]. intros H.
  destruct op;
    unfold step, connect, checkConnection, startSync, setupAutoSync,
      stopSync, tick, triggerSync, on_change, on_paused, on_active, on_denied,
      on_complete, on_error, addEventListener, removeEventListener;
    dav_run;
    repeat match goal with
           | E : autoSyncTimer _ = _ |- _ => rewrite E in H
           end;
    cbn [timers log emit clearInterval fst snd] in *;
    rewrite ?H, ?filter_self_out; try reflexivity; try assumption.
Qed.

Lemma dav_run_holds ops s : dav_holds s -> dav_holds (run ops s).
Proof.
  revert s. induction ops as [|op ops IH]; intros s H; simpl; [exact H |].
  apply IH. now apply dav_step_holds.
Qed.

(** X15.  The WebDAV adapter never has more than one interval timer
    armed, and the armed one is the one it holds: setting up auto-sync
    clears the previous timer first.  After [stopSync] none is armed. *)
Theorem dav_single_timer :
  forall ops,
    let s := run ops (WebDAVAdapter.new, boot) in
    dav_holds s /\
    length (timers (snd s)) <= 1 /\
    timers (snd (state (stopSync s))) = [].
Proof.
  intros ops s.
  assert (H : dav_holds s) by (apply dav_run_holds; reflexivity).
  split; [exact H |]. split.
  - rewrite H. destruct (autoSyncTimer (fst s)); simpl; lia.
  - pose proof (dav_step_holds StopSync s H) as H'.
    unfold step in H'. rewrite H'.
    destruct s as [a w]. rewrite dav_stopSync_run. reflexivity.
Qed.

End WebDAVTimers.

Section EventNames.

Import SyncAdapter Host Registry Vocabulary Verdict Announced.

Lemma calls_dav_heard_at event e data a l :
  calls event l (dav_heard e data a)
  = if String.eqb event e then registered l (dav_listeners e a) else 0.
Proof.
  destruct (String.eqb event e) eqn:E.
  - apply String.eqb_eq in E. subst e. apply calls_dav_heard.
  - apply String.eqb_neq in E. unfold dav_heard. apply calls_heard_other.
    simpl. congruence.
Qed.

Lemma calls_nil event l : calls event l [] = 0.
Proof. reflexivity. Qed.

Lemma calls_quiet event l o tr :
  (forall n ev, o <> ListenerCalled n ev) ->
  calls event l (o :: tr) = calls event l tr.
Proof.
  intros Ho. unfold calls. destruct o; try reflexivity. exfalso. eapply Ho. reflexivity.
Qed.

Ltac unnamed H :=
  unfold named in H; simpl in H;
  repeat match type of H with
         | (_ || _)%bool = false => apply orb_false_elim in H as [? H]
         end.

Ltac hush :=
  cbn [trace log emit clearInterval setInterval fst snd];
  repeat first
    [ rewrite calls_app
    | rewrite calls_dav_heard_at
    | rewrite calls_base_heard_at
    | rewrite calls_quiet by discriminate
    | rewrite calls_nil ];
  repeat match goal with
         | E : String.eqb _ _ = false |- _ => rewrite E
         end;
  try lia.

Lemma dav_step_unnamed op s event l :
  named dav_events event = false ->
  calls event l (trace (snd (WebDAVRun.step op s))) = calls event l (trace (snd s)).
Proof.
  intros H. unnamed H. destruct s as [a w].
  destruct op;
    unfold WebDAVRun.step, WebDAVAdapter.connect, WebDAVAdapter.checkConnection,
      WebDAVAdapter.startSync, WebDAVAdapter.setupAutoSync,
      WebDAVAdapter.stopSync, WebDAVAdapter.tick, WebDAVAdapter.triggerSync,
      WebDAVAdapter.on_change, WebDAVAdapter.on_paused, WebDAVAdapter.on_active,
      WebDAVAdapter.on_denied, WebDAVAdapter.on_complete, WebDAVAdapter.on_error;
    try reflexivity; dav_run; hush.
Qed.

Lemma rs_triggerSync_refuses env a w :
  RemoteStorageAdapter.localDB a = None \/
  RemoteStorageAdapter.remoteInfo a = None \/
  RemoteStorageAdapter.token_ a = None ->
  RemoteStorageAdapter.triggerSync env (a, w)
  = (Throw (JS.Error "未连接到RemoteStorage服务器"), (a, w)).
Proof.
  unfold RemoteStorageAdapter.triggerSync, bind, gets; simpl.
  intros [H|[H|H]]; rewrite H;
    destruct (RemoteStorageAdapter.localDB a); try reflexivity;
    destruct (RemoteStorageAdapter.remoteInfo a); reflexivity.
Qed.

Lemma rs_triggerSync_unnamed env a w event l :
  named rs_events event = false ->
  calls event l (trace (snd (state (RemoteStorageAdapter.triggerSync env (a, w)))))
  = calls event l (trace w).
Proof.
  intros H. unnamed H.
  destruct (RemoteStorageAdapter.localDB a) as [d|] eqn:Hd;
    [destruct (RemoteStorageAdapter.remoteInfo a) as [i|] eqn:Hi;
     [destruct (RemoteStorageAdapter.token_ a) as [k|] eqn:Hk |] |].
  2-4: rewrite rs_triggerSync_refuses by auto; reflexivity.
  pose proof (rs_triggerSync_calls env a w d i k event l Hd Hi Hk) as Hc.
  destruct (rs_triggerSync_run env a w d i k Hd Hi Hk) as (os & Hrun & _).
  rewrite Hrun in *. cbn [state snd] in *. rewrite since_log in Hc.
  rewrite calls_log, Hc. unfold pass_dispatches.
  repeat match goal with
         | E : String.eqb _ _ = false |- _ => rewrite E
         end.
  lia.
Qed.

Lemma rs_step_unnamed op s event l :
  named rs_events event = false ->
  calls event l (trace (snd (RemoteStorageRun.step op s))) = calls event l (trace (snd s)).
Proof.
  intros H. pose proof H as H'. unnamed H. destruct s as [a w].
  destruct op; unfold RemoteStorageRun.step.
  - rewrite rs_connect_run. cbv zeta.
    destruct (rs_objection cfg env); cbn [state snd]; hush.
  - unfold RemoteStorageAdapter.startSync. unfold bind at 1, gets at 1. rs_simpl.
    destruct (RemoteStorageAdapter.config a) as [c|]; [| reflexivity].
    destruct (RemoteStorageAdapter.remoteInfo a) as [i|] eqn:Hi; [| reflexivity].
    destruct (RemoteStorageAdapter.token_ a) as [k|] eqn:Hk; [| reflexivity].
    unfold bind at 1, modify at 1. unfold bind at 1.
    pose proof (rs_triggerSync_unnamed env (RemoteStorageAdapter.set_localDB (Some db) a)
                  w event l H') as Hc.
    destruct (rs_triggerSync_run env (RemoteStorageAdapter.set_localDB (Some db) a) w
                db i k eq_refl Hi Hk) as (os & Hrun & _).
    rewrite Hrun in *. cbn [state snd] in Hc.
    unfold when. destruct (_ && _); cbn [state snd modify ret]; [| exact Hc].
    hush. cbn [trace log] in Hc. rewrite calls_app in Hc. lia.
  - rewrite rs_stopSync_run. unfold rs_released. destruct (rs_armed a); cbn [state snd]; hush.
  - rs_simpl. destruct (timers w); rs_simpl; [reflexivity |].
    unfold RemoteStorageAdapter.tick, try_catch.
    pose proof (rs_triggerSync_unnamed env a w event l H') as Hc.
    destruct (RemoteStorageAdapter.triggerSync env (a, w)) as [[[]|t] [a' w']];
      cbn [state snd] in Hc; [exact Hc |].
    rs_run. cbn [state snd]. rewrite calls_log, calls_announced. simpl.
    rewrite calls_app. unfold calls at 2. simpl.
    repeat match goal with
           | E : String.eqb _ _ = false |- _ => rewrite E
           end.
    lia.
  - reflexivity.
  - reflexivity.
Qed.

(** X16.  Each adapter calls listeners under its own event names only:
    the RemoteStorage adapter under connected, connection-error,
    sync-progress, sync-complete, sync-error and sync-stopped, the WebDAV
    adapter under the nine names its constructor registers.  A listener
    registered under any other name is never called; so a listener
    registered on a RemoteStorage adapter under the WebDAV names
    connect-success or connect-error never hears of a connection. *)
Theorem listeners_called_by_name :
  (forall ops event l,
     named rs_events event = false ->
     calls event l (trace (snd (RemoteStorageRun.run ops (RemoteStorageAdapter.new, boot))))
     = 0) /\
  (forall ops event l,
     named dav_events event = false ->
     calls event l (trace (snd (WebDAVRun.run ops (WebDAVAdapter.new, boot)))) = 0) /\
  named rs_events "connect-success" = false /\
  named rs_events "connect-error" = false /\
  named dav_events "connected" = false.
Proof.
  split; [| split; [| repeat split]].
  - intros ops event l H.
    assert (G : forall s,
               calls event l (trace (snd (RemoteStorageRun.run ops s)))
               = calls event l (trace (snd s))).
    { induction ops as [|op ops IH]; intros s; simpl; [reflexivity |].
      rewrite IH. now apply rs_step_unnamed. }
    now rewrite G.
  - intros ops event l H.
    assert (G : forall s,
               calls event l (trace (snd (WebDAVRun.run ops s)))
               = calls event l (trace (snd s))).
    { induction ops as [|op ops IH]; intros s; simpl; [reflexivity |].
      rewrite IH. now apply dav_step_unnamed. }
    now rewrite G.
Qed.

Lemma listeners_called_by_name_witness :
  calls "connect-success" 1
    (trace (snd (RemoteStorageRun.run
                   [RemoteStorageRun.AddEventListener "connect-success" (quiet 1);
                    RemoteStorageRun.Connect account reachable]
                   (RemoteStorageAdapter.new, boot)))) = 0 /\
  calls "connected" 1
    (trace (snd (WebDAVRun.run
                   [WebDAVRun.AddEventListener "connected" (quiet 1);
                    WebDAVRun.Connect (server "https://example.com/dav")]
                   (WebDAVAdapter.new, boot)))) = 0.
Proof.
  destruct listeners_called_by_name as (HR & HD & _).
  split.
  - apply (HR [RemoteStorageRun.AddEventListener "connect-success" (quiet 1);
               RemoteStorageRun.Connect account reachable] "connect-success" 1).
    reflexivity.
  - apply (HD [WebDAVRun.AddEventListener "connected" (quiet 1);
               WebDAVRun.Connect (server "https://example.com/dav")] "connected" 1).
    reflexivity.
Defined.

End EventNames.

Section WebDAVStart.

Import SyncAdapter Host Registry WebDAVAdapter Replication.

Lemma strip_slash_slash s : strip_slash (String.append s "/") = s.
Proof.
  induction s as [|c s IH]; [reflexivity |].
  destruct s as [|c' s']; [reflexivity |].
  simpl in *. now rewrite IH.
Qed.

Lemma strip_slash_cons c c' s :
  strip_slash (String c (String c' s)) = String c (strip_slash (String c' s)).
Proof. reflexivity. Qed.

Lemma strip_slash_cases s :
  strip_slash s = s \/ s = String.append (strip_slash s) "/".
Proof.
  induction s as [|c s IH]; [now left |].
  destruct s as [|c' s'].
  - simpl. destruct (Ascii.eqb c "/") eqn:F; [| now left].
    apply Ascii.eqb_eq in F. subst c. now right.
  - rewrite strip_slash_cons. destruct IH as [IH|IH].
    + left. now rewrite IH.
    + right. change (String.append (String c (strip_slash (String c' s'))) "/")
        with (String c (String.append (strip_slash (String c' s')) "/")).
      now rewrite <- IH.
Qed.

(** X17.  [startSync] of a configured WebDAV adapter.  If opening the
    remote database or starting the replication throws, the same value is
    rethrown to the caller after the status has become [error] with its
    message and progress 0 and the sync-error listeners have been called;
    no timer is armed.  Otherwise it resolves with status [syncing] and
    progress 0, having opened the remote database at the configured URL
    without its trailing slash followed by the database path (/sync/db
    when none is configured) and started one replication.  A URL with and
    without the trailing slash opens the same database. *)
Theorem dav_startSync_outcome :
  (forall a w db env cfg,
     config a = Some cfg ->
     let r := startSync db env (a, w) in
     localDB (fst (state r)) = Some db /\
     match obstacle env with
     | Some t =>
         result r = Throw t /\
         getSyncStatus (fst (state r))
         = {| status := error; progress := Some 0%float;
              error_ := Some {| message := JS.message_or t "同步失败"; details := t |} |} /\
         timers (snd (state r)) = timers w /\
         forall l, calls "sync-error" l (since w (snd (state r)))
                   = registered l (dav_listeners "sync-error" a)
     | None =>
         result r = Normal tt /\
         getSyncStatus (fst (state r))
         = {| status := syncing; progress := Some 0%float;
              error_ := error_ (getSyncStatus a) |} /\
         remoteDB (fst (state r)) = Some (fresh w) /\
         syncHandler (fst (state r)) = Some (S (fresh w)) /\
         In (DatabaseOpened (fresh w) (remote_url cfg)) (since w (snd (state r))) /\
         In (ReplicationStarted (S (fresh w))) (since w (snd (state r)))
     end) /\
  (forall address cfg,
     strip_slash address = address ->
     remote_url (readdressed (String.append address "/") cfg)
     = remote_url (readdressed address cfg)).
Proof.
  split.
  - intros a w db env cfg Hc r. subst r. unfold obstacle.
    unfold startSync, setupAutoSync, remote_url.
    dav_run; cbn [state result fst snd];
      (split; [reflexivity |]); repeat split;
      try (rewrite since_log; apply calls_dav_heard);
      try (unfold since; cbn [trace log emit clearInterval setInterval];
           rewrite ?drop_app_length; simpl; auto 6; fail).
    all: unfold since; cbn [trace log emit clearInterval setInterval];
      rewrite <- ?app_assoc, drop_app_length; simpl; auto 6.
    all: intros l; rewrite ?calls_quiet by discriminate; rewrite calls_dav_heard;
      reflexivity.
  - intros address cfg E.
    unfold remote_url, readdressed; simpl.
    now rewrite strip_slash_slash, E.
Qed.

Lemma dav_startSync_outcome_witness :
  In (DatabaseOpened 1 "https://example.com/dav/sync/db")
     (since boot
        (snd (state (startSync 7 engine
                       (fst (state (connect (server "https://example.com/dav/")
                                      (WebDAVAdapter.new, boot))), boot))))) /\
  remote_url (readdressed "https://example.com/dav/" (server ""))
  = remote_url (readdressed "https://example.com/dav" (server "")).
Proof.
  destruct dav_startSync_outcome as [H1 H2]. split.
  - destruct (H1 (fst (state (connect (server "https://example.com/dav/")
                                (WebDAVAdapter.new, boot))))
                 boot 7 engine (server "https://example.com/dav/") eq_refl)
      as (_ & _ & _ & _ & _ & H & _).
    exact H.
  - apply (H2 "https://example.com/dav" (server "")). reflexivity.
Defined.

End WebDAVStart.

(* ================================================================= *)
(** * The factory and the discovery *)

Section FactoryFacts.

Import SyncAdapterFactory.

Lemma Map_get_set m k v k' :
  Map_get (Map_set m k v) k' = if String.eqb k k' then Some v else Map_get m k'.
Proof.
  unfold Map_get. induction m as [|[k0 v0] m IH]; simpl.
  - destruct (String.eqb k k'); reflexivity.
  - destruct (String.eqb k0 k) eqn:E; simpl.
    + apply String.eqb_eq in E. subst k0.
      destruct (String.eqb k k'); reflexivity.
    + destruct (String.eqb k0 k') eqn:F; simpl.
      * apply String.eqb_eq in F. subst k0. rewrite String.eqb_sym, E. reflexivity.
      * exact IH.
Qed.

Lemma Map_has_get m k : Map_has m k = match Map_get m k with Some _ => true | None => false end.
Proof.
  unfold Map_has, Map_get. induction m as [|[k0 v0] m IH]; simpl; [reflexivity |].
  destruct (String.eqb k0 k); simpl; [reflexivity | exact IH].
Qed.

Lemma Map_keys_set m k v :
  Map_keys (Map_set m k v) = if Map_has m k then Map_keys m else Map_keys m ++ [k].
Proof.
  unfold Map_keys, Map_has. induction m as [|[k0 v0] m IH]; simpl; [reflexivity |].
  destruct (String.eqb k0 k) eqn:E; simpl.
  - apply String.eqb_eq in E. now subst k0.
  - rewrite IH.
    match goal with |- context [if ?b then _ else _] => destruct b end; reflexivity.
Qed.

Lemma Map_get_delete m k k' :
  Map_get (snd (Map_delete m k)) k' = if String.eqb k k' then None else Map_get m k'.
Proof.
  unfold Map_get, Map_delete. simpl. induction m as [|[k0 v0] m IH]; simpl.
  - destruct (String.eqb k k'); reflexivity.
  - destruct (String.eqb k0 k) eqn:E; simpl.
    + apply String.eqb_eq in E. subst k0. rewrite IH.
      destruct (String.eqb k k'); reflexivity.
    + destruct (String.eqb k0 k') eqn:F; simpl.
      * apply String.eqb_eq in F. subst k0. rewrite String.eqb_sym, E. reflexivity.
      * exact IH.
Qed.




End FactoryFacts.

Section FactoryProperties.

Import SyncAdapterFactory.

Lemma unregisterAdapter_run type f :
  unregisterAdapter type f
  = (hasAdapter type f,
     {| adapterConstructors := snd (Map_delete (adapterConstructors f) type) |}).
Proof. reflexivity. Qed.

(** X18.  The factory's registry.  After [registerAdapter type c] the
    factory creates an instance of [c] for that type, whatever was
    registered for it before; the type keeps its place in the list of
    registered types if it was there and is added at the end otherwise;
    the other types are untouched.  [unregisterAdapter] reports whether the
    type was registered, and afterwards [createAdapter] throws for it;
    [createAdapter] returns exactly for the types [hasAdapter] reports. *)
Theorem factory_registry_round_trip :
  (forall f type constructor,
     let f' := registerAdapter type constructor f in
     createAdapter type f' = Normal (construct constructor) /\
     getAdapterConstructor type f' = Some constructor /\
     hasAdapter type f' = true /\
     getRegisteredAdapterTypes f'
     = (if hasAdapter type f then getRegisteredAdapterTypes f
        else getRegisteredAdapterTypes f ++ [type]) /\
     forall other, other <> type ->
                   getAdapterConstructor other f' = getAdapterConstructor other f /\
                   createAdapter other f' = createAdapter other f) /\
  (forall f type,
     let f' := snd (unregisterAdapter type f) in
     fst (unregisterAdapter type f) = hasAdapter type f /\
     hasAdapter type f' = false /\
     createAdapter type f' = Throw (JS.Error ("未注册的适配器类型: " ++ type)) /\
     forall other, other <> type ->
                   getAdapterConstructor other f' = getAdapterConstructor other f /\
                   createAdapter other f' = createAdapter other f) /\
  (forall f type, returns (createAdapter type f) = hasAdapter type f).
Proof.
  split; [| split].
  - intros f type constructor f'. subst f'.
    unfold createAdapter, getAdapterConstructor, hasAdapter, getRegisteredAdapterTypes,
      registerAdapter; simpl.
    rewrite Map_has_get, !Map_get_set, String.eqb_refl.
    repeat split; try reflexivity.
    + apply Map_keys_set.
    + rewrite Map_get_set. apply String.eqb_neq in H.
      rewrite String.eqb_sym in H. now rewrite H.
    + rewrite Map_get_set. apply String.eqb_neq in H.
      rewrite String.eqb_sym in H. now rewrite H.
  - intros f type f'. subst f'. rewrite unregisterAdapter_run.
    unfold createAdapter, getAdapterConstructor, hasAdapter.
    cbn [fst snd adapterConstructors].
    rewrite !Map_has_get, !Map_get_delete, String.eqb_refl.
    repeat split; try reflexivity.
    + rewrite Map_get_delete. apply String.eqb_neq in H.
      rewrite String.eqb_sym in H. now rewrite H.
    + rewrite Map_get_delete. apply String.eqb_neq in H.
      rewrite String.eqb_sym in H. now rewrite H.
  - intros f type. unfold createAdapter, hasAdapter. rewrite Map_has_get.
    destruct (Map_get (adapterConstructors f) type); reflexivity.
Qed.

Lemma factory_registry_round_trip_witness :
  createAdapter DROPBOX (registerAdapter WEBDAV (custom 1) new) = createAdapter DROPBOX new /\
  fst (unregisterAdapter DROPBOX new) = true.
Proof.
  destruct factory_registry_round_trip as (H1 & H2 & _). split.
  - destruct (H1 new WEBDAV (custom 1)) as (_ & _ & _ & _ & H).
    apply (H DROPBOX). discriminate.
  - destruct (H2 new DROPBOX) as (H & _). exact H.
Defined.



End FactoryProperties.

Section DiscoveryFacts.

Import SyncAdapter Discovery.

Lemma includes_at c s :
  JS.includes (String c s) "@" = Ascii.eqb "@" c || JS.includes s "@".
Proof.
  change (JS.includes (String c s) "@")
    with ((Ascii.eqb "@" c && JS.prefix "" s) || JS.includes s "@").
  replace (JS.prefix "" s) with true by now destruct s.
  now rewrite andb_true_r.
Qed.

Lemma split_cons c s :
  split "@" (String c s)
  = if Ascii.eqb c "@" then EmptyString :: split "@" s
    else match split "@" s with
         | part :: parts => String c part :: parts
         | [] => [String c EmptyString]
         end.
Proof. reflexivity. Qed.

Lemma split_free s : JS.includes s "@" = false -> split "@" s = [s].
Proof.
  induction s as [|c s IH]; [reflexivity |].
  rewrite includes_at. intros H. apply orb_false_elim in H as [Hc Hs].
  rewrite split_cons, Ascii.eqb_sym, Hc, (IH Hs). reflexivity.
Qed.

Lemma split_at user rest :
  JS.includes user "@" = false ->
  split "@" (String.append user (String "@" rest)) = user :: split "@" rest.
Proof.
  induction user as [|c s IH].
  - intros _. reflexivity.
  - rewrite includes_at. intros H. apply orb_false_elim in H as [Hc Hs].
    change (String.append (String c s) (String "@" rest))
      with (String c (String.append s (String "@" rest))).
    rewrite split_cons, Ascii.eqb_sym, Hc, (IH Hs). reflexivity.
Qed.

Lemma append_empty s : String.append s EmptyString = s.
Proof.
  induction s as [|c s IH]; [reflexivity |].
  change (String c (String.append s EmptyString) = String c s). now rewrite IH.
Qed.

Lemma truthy_str_Some s : JS.truthy_str (Some s) = negb (String.eqb s "").
Proof. reflexivity. Qed.

End DiscoveryFacts.

(** Run the function on what the network answers. *)
Ltac disc_simpl :=
  cbn [bind try_catch when ret throw gets modify Discovery.fetch Discovery.await
       state result fst snd negb default from_option id] in *.

Ltac disc_split :=
  match goal with
  | |- context [match ?x with _ => _ end] =>
      lazymatch x with
      | context [match _ with _ => _ end] => fail
      | _ => destruct x eqn:?
      end
  end.

Ltac disc_run :=
  repeat first
    [ progress disc_simpl
    | progress unfold bind, try_catch, when, ret, throw, modify,
        Discovery.fetch, Discovery.await
    | disc_split ].

Section DiscoveryProperties.

Import SyncAdapter Discovery.

Variable String_ : JS.value -> string.

(** An address without "@" is rejected before anything is asked. *)
Lemma discoverRemoteStorage_unaddressed net seen address :
  JS.includes address "@" = false ->
  discoverRemoteStorage String_ address net seen
  = (Throw (JS.Error invalid_address), seen).
Proof.
  intros H. unfold discoverRemoteStorage. rewrite (split_free address H).
  simpl. rewrite orb_true_r. reflexivity.
Qed.

(** X20.  [discoverRemoteStorage] validates the address before it asks
    the network anything.  An address without "@", with nothing before the
    first "@", or with nothing between the first "@" and the next one (or
    the end) is rejected with the address-format error and no request is
    made.  For an address user@domain, whatever follows a second "@", the
    first request goes to the WebFinger address of that domain for the
    whole address, and the address-format error is not what comes back. *)
Theorem discoverRemoteStorage_address :
  forall net seen,
    (forall address,
       JS.includes address "@" = false ->
       discoverRemoteStorage String_ address net seen
       = (Throw (JS.Error invalid_address), seen)) /\
    (forall user rest,
       JS.includes user "@" = false ->
       user = "" \/ rest = "" \/ (exists x, rest = String "@" x) ->
       discoverRemoteStorage String_ (String.append user (String "@" rest)) net seen
       = (Throw (JS.Error invalid_address), seen)) /\
    (forall user domain tail,
       JS.includes user "@" = false -> JS.includes domain "@" = false ->
       user <> "" -> domain <> "" ->
       tail = "" \/ (exists x, tail = String "@" x) ->
       let address := String.append user (String "@" (String.append domain tail)) in
       let r := discoverRemoteStorage String_ address net seen in
       (exists more, state r = seen ++ Requested (webfinger_url domain address) :: more) /\
       result r <> Throw (JS.Error invalid_address)).
Proof.
  intros net seen. split; [| split].
  - intros address H. now apply discoverRemoteStorage_unaddressed.
  - intros user rest Hu H. unfold discoverRemoteStorage. rewrite (split_at user rest Hu).
    cbn [nth_error]. destruct H as [->|[->|(x & ->)]]; try reflexivity.
    + simpl. rewrite orb_true_r. reflexivity.
    + simpl. rewrite orb_true_r. reflexivity.
  - intros user domain tail Hu Hd Hune Hdne Htail address r. subst r address.
    unfold discoverRemoteStorage. rewrite (split_at user _ Hu).
    assert (Hparts : exists parts, split "@" (String.append domain tail) = domain :: parts).
    { destruct Htail as [->|(x & ->)].
      - exists []. rewrite append_empty. now apply split_free.
      - eexists. now apply split_at. }
    destruct Hparts as (parts & ->). cbn [nth_error].
    rewrite !truthy_str_Some.
    apply String.eqb_neq in Hune, Hdne. rewrite Hune, Hdne. cbn [negb orb default].
    disc_run;
      (split; [rewrite <- ?app_assoc; eexists; reflexivity | discriminate]).
Qed.

End DiscoveryProperties.

Section DiscoveryOutcome.

Import SyncAdapter Discovery Verdict.

Variable String_ : JS.value -> string.

Lemma discoverRemoteStorage_address_witness :
  discoverRemoteStorage Lookup.unread "example.com" Lookup.offline []
  = (Throw (JS.Error invalid_address), []) /\
  discoverRemoteStorage Lookup.unread "user@" Lookup.offline []
  = (Throw (JS.Error invalid_address), []) /\
  (exists more,
     state (discoverRemoteStorage Lookup.unread "user@example.com@x" Lookup.offline [])
     = [] ++ Requested (webfinger_url "example.com" "user@example.com@x") :: more).
Proof.
  destruct (discoverRemoteStorage_address Lookup.unread Lookup.offline []) as (H1 & H2 & H3).
  split; [| split].
  - apply (H1 "example.com"). reflexivity.
  - apply (H2 "user" ""); [reflexivity | right; left; reflexivity].
  - apply (H3 "user" "example.com" "@x");
      [reflexivity | reflexivity | discriminate | discriminate |].
    right. exists "x". reflexivity.
Defined.

(** On the sample networks nothing but an [Error] is thrown, so the result
    does not depend on what stands for [String]. *)
Lemma offline_unread f g address seen :
  discoverRemoteStorage f address Lookup.offline seen
  = discoverRemoteStorage g address Lookup.offline seen.
Proof.
  unfold discoverRemoteStorage.
  destruct (negb (JS.truthy_str (nth_error (split "@" address) 0))
            || negb (JS.truthy_str (nth_error (split "@" address) 1)));
    reflexivity.
Qed.

Lemma online_unread f g address seen :
  discoverRemoteStorage f address Lookup.online seen
  = discoverRemoteStorage g address Lookup.online seen.
Proof.
  unfold discoverRemoteStorage.
  destruct (negb (JS.truthy_str (nth_error (split "@" address) 0))
            || negb (JS.truthy_str (nth_error (split "@" address) 1)));
    [reflexivity |].
  repeat (progress unfold try_catch, bind, fetch, modify, when, await, ret, throw).
  cbv beta iota zeta. unfold Lookup.online at 1 3. cbn [webfinger].
  destruct (String.eqb _ _); [| reflexivity].
  cbv beta iota zeta. cbn [Lookup.answered ok json links negb List.find is_remotestorage
                           rel href String.eqb Ascii.eqb Bool.eqb].
  cbv beta iota zeta. unfold Lookup.online. cbn [description].
  reflexivity.
Qed.

(** The first element of a list that passes a test. *)
Lemma find_first {A} (f : A -> bool) l x :
  List.find f l = Some x ->
  exists before after,
    l = before ++ x :: after /\ f x = true /\ forall y, In y before -> f y = false.
Proof.
  induction l as [|y l IH]; simpl; [discriminate |].
  destruct (f y) eqn:E.
  - intros [= ->]. exists [], l. repeat split; [exact E | intros ? []].
  - intros H. destruct (IH H) as (before & after & -> & Hx & Hb).
    exists (y :: before), after. repeat split; [exact Hx |].
    intros z [<-|Hz]; [exact E | now apply Hb].
Qed.

Lemma find_first_is {A} (f : A -> bool) before x after :
  f x = true -> (forall y, In y before -> f y = false) ->
  List.find f (before ++ x :: after) = Some x.
Proof.
  intros Hx. induction before as [|y before IH]; simpl; intros Hb.
  - now rewrite Hx.
  - rewrite (Hb y) by now left. apply IH. intros z Hz. apply Hb. now right.
Qed.

Lemma truthy_str_inv o : JS.truthy_str o = true -> exists s, o = Some s /\ s <> "".
Proof.
  destruct o as [s|]; simpl; [| discriminate].
  intros H. exists s. split; [reflexivity |].
  apply negb_true_iff in H. now apply String.eqb_neq.
Qed.

(** When the address has a user and a domain, the domain answers the
    WebFinger query with a document whose first remotestorage link leads
    to a description, the function resolves. *)
Lemma discoverRemoteStorage_resolves net seen address user domain response document
    before link after infoResponse service :
  nth_error (split "@" address) 0 = Some user -> user <> "" ->
  nth_error (split "@" address) 1 = Some domain -> domain <> "" ->
  webfinger net (webfinger_url domain address) = inr response ->
  ok response = true -> json response = inr document ->
  links document = Some (before ++ link :: after) ->
  is_remotestorage link = true ->
  (forall x, In x before -> is_remotestorage x = false) ->
  description net (href link) = inr infoResponse ->
  ok infoResponse = true -> json infoResponse = inr service ->
  discoverRemoteStorage String_ address net seen
  = (Normal {| RemoteStorageAdapter.server := d_server service;
               RemoteStorageAdapter.webdavPath :=
                 if JS.truthy_str (d_webdavPath service)
                 then default "" (d_webdavPath service) else "/";
               RemoteStorageAdapter.authEndpoint := d_authEndpoint service;
               RemoteStorageAdapter.storageTypes := default [] (d_storageTypes service) |},
     seen ++ [Requested (webfinger_url domain address); Requested (href link)]).
Proof.
  intros Hu Hune Hd Hdne Hw Hok Hj Hl Hlink Hb Hi Hiok Hij.
  unfold discoverRemoteStorage. rewrite Hu, Hd.
  apply String.eqb_neq in Hune, Hdne.
  cbn [JS.truthy_str]. rewrite Hune, Hdne. cbn [negb orb default].
  repeat (progress unfold try_catch, bind, fetch, modify, when, await, ret, throw).
  cbn [default from_option]. unfold id.
  cbv beta iota zeta. rewrite Hw. cbv beta iota zeta. rewrite Hok. cbv beta iota zeta.
  cbn [negb]. cbv beta iota zeta.
  rewrite Hj. cbv beta iota zeta. rewrite Hl, (find_first_is _ _ _ _ Hlink Hb).
  cbv beta iota zeta. rewrite Hi. cbv beta iota zeta. rewrite Hiok. cbn [negb].
  cbv beta iota zeta. rewrite Hij. cbv beta iota zeta.
  rewrite <- app_assoc. reflexivity.
Qed.

(** And that is the only way in which it resolves. *)
Lemma discoverRemoteStorage_resolved net seen address info seen' :
  discoverRemoteStorage String_ address net seen = (Normal info, seen') ->
  exists user domain response document before link after infoResponse service,
    nth_error (split "@" address) 0 = Some user /\ user <> "" /\
    nth_error (split "@" address) 1 = Some domain /\ domain <> "" /\
    webfinger net (webfinger_url domain address) = inr response /\
    ok response = true /\ json response = inr document /\
    links document = Some (before ++ link :: after) /\
    is_remotestorage link = true /\
    (forall x, In x before -> is_remotestorage x = false) /\
    description net (href link) = inr infoResponse /\
    ok infoResponse = true /\ json infoResponse = inr service /\
    info = {| RemoteStorageAdapter.server := d_server service;
              RemoteStorageAdapter.webdavPath :=
                if JS.truthy_str (d_webdavPath service)
                then default "" (d_webdavPath service) else "/";
              RemoteStorageAdapter.authEndpoint := d_authEndpoint service;
              RemoteStorageAdapter.storageTypes := default [] (d_storageTypes service) |} /\
    seen' = seen ++ [Requested (webfinger_url domain address); Requested (href link)].
Proof.
  unfold discoverRemoteStorage.
  destruct (JS.truthy_str (nth_error (split "@" address) 0)) eqn:Hu;
    [| discriminate].
  destruct (JS.truthy_str (nth_error (split "@" address) 1)) eqn:Hd;
    [| discriminate].
  apply truthy_str_inv in Hu as (user & Hu & Hune).
  apply truthy_str_inv in Hd as (domain & Hd & Hdne).
  rewrite Hd. cbn [negb orb default from_option id].
  repeat (progress unfold try_catch, bind, fetch, modify, when, await, ret, throw).
  cbn [default from_option]. unfold id.
  cbv beta iota zeta.
  destruct (webfinger net (webfinger_url domain address)) as [t|response] eqn:Hw;
    cbv beta iota zeta; [discriminate |].
  destruct (ok response) eqn:Hok; cbn [negb]; cbv beta iota zeta; [| discriminate].
  destruct (json response) as [t|document] eqn:Hj; cbv beta iota zeta; [discriminate |].
  destruct (links document) as [ls|] eqn:Hl; cbv beta iota zeta; [| discriminate].
  destruct (List.find is_remotestorage ls) as [link|] eqn:Hf; cbv beta iota zeta;
    [| discriminate].
  destruct (description net (href link)) as [t|infoResponse] eqn:Hi; cbv beta iota zeta;
    [discriminate |].
  destruct (ok infoResponse) eqn:Hiok; cbn [negb]; cbv beta iota zeta; [| discriminate].
  destruct (json infoResponse) as [t|service] eqn:Hij; cbv beta iota zeta;
    [discriminate |].
  intros [= <- <-].
  apply find_first in Hf as (before & after & -> & Hlink & Hb).
  exists user, domain, response, document, before, link, after, infoResponse, service.
  rewrite <- app_assoc. repeat split; assumption || reflexivity.
Qed.

(** How it rejects. *)
Lemma discoverRemoteStorage_rejected net seen address t seen' :
  discoverRemoteStorage String_ address net seen = (Throw t, seen') ->
  (t = JS.Error invalid_address /\ seen' = seen) \/
  exists error before,
    t = JS.Error (String.append "无法发现RemoteStorage端点: " (text_of String_ error)) /\
    seen' = before ++ [Logged "RemoteStorage发现失败:" error].
Proof.
  unfold discoverRemoteStorage.
  destruct (negb (JS.truthy_str (nth_error (split "@" address) 0))
            || negb (JS.truthy_str (nth_error (split "@" address) 1))).
  { intros [= <- <-]. left. split; reflexivity. }
  disc_run; intros [= <- <-]; right; eexists; eexists; (split; [| reflexivity]); reflexivity.
Qed.

(** X21.  What [discoverRemoteStorage] settles to.  It resolves exactly
    when the address has a user and a domain (what stands before the first
    "@" and between the first and the second), the WebFinger query for the
    whole address at that domain is answered with a document, the document
    has a link whose rel is "remotestorage", and the address of the first
    such link is answered with a service description.  It has then asked
    for these two addresses and nothing else, in this order, and what it
    returns is read from that description: server and authEndpoint as
    they are, the WebDAV path or "/" when none is named, so that the path
    is never empty, and the storage types or none.  When it rejects, the
    error is either the address-format error, with nothing asked or
    logged, or the failure met on the way wrapped in a "cannot discover"
    error, after that failure was logged on the console. *)
Theorem discoverRemoteStorage_outcome :
  forall net seen address,
    let r := discoverRemoteStorage String_ address net seen in
    (match result r with
     | Normal info =>
         RemoteStorageAdapter.webdavPath info <> "" /\
         exists user domain response document before link after infoResponse service,
           nth_error (split "@" address) 0 = Some user /\ user <> "" /\
           nth_error (split "@" address) 1 = Some domain /\ domain <> "" /\
           webfinger net (webfinger_url domain address) = inr response /\
           ok response = true /\ json response = inr document /\
           links document = Some (before ++ link :: after) /\
           is_remotestorage link = true /\
           (forall x, In x before -> is_remotestorage x = false) /\
           description net (href link) = inr infoResponse /\
           ok infoResponse = true /\ json infoResponse = inr service /\
           info = {| RemoteStorageAdapter.server := d_server service;
                     RemoteStorageAdapter.webdavPath :=
                       if JS.truthy_str (d_webdavPath service)
                       then default "" (d_webdavPath service) else "/";
                     RemoteStorageAdapter.authEndpoint := d_authEndpoint service;
                     RemoteStorageAdapter.storageTypes :=
                       default [] (d_storageTypes service) |} /\
           state r = seen ++ [Requested (webfinger_url domain address);
                              Requested (href link)]
     | Throw t =>
         (t = JS.Error invalid_address /\ state r = seen) \/
         exists error before,
           t = JS.Error (String.append "无法发现RemoteStorage端点: " (text_of String_ error)) /\
           state r = before ++ [Logged "RemoteStorage发现失败:" error]
     end) /\
    (forall user domain response document before link after infoResponse service,
       nth_error (split "@" address) 0 = Some user -> user <> "" ->
       nth_error (split "@" address) 1 = Some domain -> domain <> "" ->
       webfinger net (webfinger_url domain address) = inr response ->
       ok response = true -> json response = inr document ->
       links document = Some (before ++ link :: after) ->
       is_remotestorage link = true ->
       (forall x, In x before -> is_remotestorage x = false) ->
       description net (href link) = inr infoResponse ->
       ok infoResponse = true -> json infoResponse = inr service ->
       r = (Normal {| RemoteStorageAdapter.server := d_server service;
                      RemoteStorageAdapter.webdavPath :=
                        if JS.truthy_str (d_webdavPath service)
                        then default "" (d_webdavPath service) else "/";
                      RemoteStorageAdapter.authEndpoint := d_authEndpoint service;
                      RemoteStorageAdapter.storageTypes :=
                        default [] (d_storageTypes service) |},
            seen ++ [Requested (webfinger_url domain address); Requested (href link)])).
Proof.
  intros net seen address r. subst r. split.
  - destruct (discoverRemoteStorage String_ address net seen) as [[info|t] seen'] eqn:E;
      cbn [result state fst snd].
    + apply discoverRemoteStorage_resolved in E
        as (user & domain & response & document & before & link & after
            & infoResponse & service & H).
      split.
      * destruct H as (_ & _ & _ & _ & _ & _ & _ & _ & _ & _ & _ & _ & _ & -> & _).
        simpl. destruct (d_webdavPath service) as [[|c s]|]; simpl; discriminate.
      * exists user, domain, response, document, before, link, after, infoResponse, service.
        exact H.
    + now apply discoverRemoteStorage_rejected in E.
  - intros user domain response document before link after infoResponse service.
    apply discoverRemoteStorage_resolves.
Qed.

End DiscoveryOutcome.

Section DiscoveryAndConnect.

Import SyncAdapter Host Registry Discovery Verdict.

Lemma discoverRemoteStorage_outcome_witness :
  discoverRemoteStorage Lookup.unread "user@example.com" Lookup.online []
  = (Normal {| RemoteStorageAdapter.server := "https://storage.example.com";
               RemoteStorageAdapter.webdavPath := "/";
               RemoteStorageAdapter.authEndpoint := "https://storage.example.com/oauth";
               RemoteStorageAdapter.storageTypes := [] |},
     [Requested "https://example.com/.well-known/webfinger?resource=acct:user@example.com";
      Requested "https://storage.example.com/info"]).
Proof.
  destruct (discoverRemoteStorage_outcome Lookup.unread Lookup.online []
              "user@example.com") as [_ H].
  apply (H "user" "example.com"
           (Lookup.answered
              {| links :=
                   Some [ {| rel := Some "self"; href := "https://example.com/user" |};
                          {| rel := Some "remotestorage";
                             href := "https://storage.example.com/info" |};
                          {| rel := Some "remotestorage";
                             href := "https://other.example.com/info" |} ] |})
           {| links :=
                Some [ {| rel := Some "self"; href := "https://example.com/user" |};
                       {| rel := Some "remotestorage";
                          href := "https://storage.example.com/info" |};
                       {| rel := Some "remotestorage";
                          href := "https://other.example.com/info" |} ] |}
           [ {| rel := Some "self"; href := "https://example.com/user" |} ]
           {| rel := Some "remotestorage"; href := "https://storage.example.com/info" |}
           [ {| rel := Some "remotestorage"; href := "https://other.example.com/info" |} ]
           (Lookup.answered
              {| d_server := "https://storage.example.com";
                 d_webdavPath := None;
                 d_authEndpoint := "https://storage.example.com/oauth";
                 d_storageTypes := None |})
           {| d_server := "https://storage.example.com";
              d_webdavPath := None;
              d_authEndpoint := "https://storage.example.com/oauth";
              d_storageTypes := None |}).
  - reflexivity.
  - discriminate.
  - reflexivity.
  - discriminate.
  - reflexivity.
  - reflexivity.
  - reflexivity.
  - reflexivity.
  - reflexivity.
  - intros x [<-|[]]. reflexivity.
  - reflexivity.
  - reflexivity.
  - reflexivity.
Defined.

(** X22.  [connect] with an address that has no "@" in it: discovery
    rejects the address before any request, [connect] returns false, the
    status is [error] with the address-format message, and no endpoint or
    token is stored, so that on an adapter that held none [startSync] is
    then refused. *)
Theorem connect_rejects_malformed_address :
  forall String_ net cfg tst a w db penv,
    JS.includes (RemoteStorageAdapter.userAddress cfg) "@" = false ->
    let lookup := discoverRemoteStorage String_ (RemoteStorageAdapter.userAddress cfg) net [] in
    let env := {| RemoteStorageAdapter.discovery := settled lookup;
                  RemoteStorageAdapter.test := tst |} in
    let r := RemoteStorageAdapter.connect cfg env (a, w) in
    state lookup = [] /\
    result r = Normal false /\
    RemoteStorageAdapter.getSyncStatus (fst (state r))
    = refused_status (RemoteStorageAdapter.getSyncStatus a) (JS.Error invalid_address) /\
    RemoteStorageAdapter.remoteInfo (fst (state r)) = RemoteStorageAdapter.remoteInfo a /\
    RemoteStorageAdapter.token_ (fst (state r)) = RemoteStorageAdapter.token_ a /\
    (RemoteStorageAdapter.remoteInfo a = None ->
     result (RemoteStorageAdapter.startSync db penv (state r))
     = Throw (JS.Error "请先连接到RemoteStorage服务器")).
Proof.
  intros String_ net cfg tst a w db penv H lookup env r. subst r env lookup.
  rewrite (discoverRemoteStorage_unaddressed String_ net [] _ H).
  rewrite rs_connect_run. unfold rs_objection, settled.
  cbn [fst snd state result RemoteStorageAdapter.discovery].
  repeat split.
  intros Hnone. rewrite rs_startSync_guard; [reflexivity |]. right. left. exact Hnone.
Qed.

Lemma connect_rejects_malformed_address_witness :
  result (RemoteStorageAdapter.connect (Lookup.addressed "example.com")
            {| RemoteStorageAdapter.discovery :=
                 settled (discoverRemoteStorage Lookup.unread "example.com" Lookup.offline []);
               RemoteStorageAdapter.test := inr (reply 207 "Multi-Status" []) |}
            (RemoteStorageAdapter.new, boot))
  = Normal false.
Proof.
  destruct (connect_rejects_malformed_address Lookup.unread Lookup.offline
              (Lookup.addressed "example.com") (inr (reply 207 "Multi-Status" []))
              RemoteStorageAdapter.new boot 1 (pass [] []) eq_refl) as (_ & H & _).
  exact H.
Defined.

End DiscoveryAndConnect.

Section TimerCallbacks.

Import SyncAdapter Host Registry Replication.

(** X23.  The callbacks handed to [setInterval] never throw.  On the
    RemoteStorage adapter the callback is one pass; if the adapter does
    not hold its connection, the refusal is logged on the console and
    recorded in the status.  On the WebDAV adapter the callback does
    nothing while the status is [syncing]; since [startSync] leaves the
    status at [syncing], a timer that fires before the replication has
    reported anything changes nothing. *)
Theorem timer_callbacks_never_throw :
  (forall env a w, result (RemoteStorageAdapter.tick env (a, w)) = Normal tt) /\
  (forall env a w,
     RemoteStorageAdapter.localDB a = None \/
     RemoteStorageAdapter.remoteInfo a = None \/
     RemoteStorageAdapter.token_ a = None ->
     let r := RemoteStorageAdapter.tick env (a, w) in
     RemoteStorageAdapter.getSyncStatus (fst (state r))
     = {| status := error; progress := progress (RemoteStorageAdapter.getSyncStatus a);
          error_ := Some {| message := "未连接到RemoteStorage服务器";
                            details := JS.Error "未连接到RemoteStorage服务器" |} |} /\
     In (ConsoleError "自动同步失败:" (JS.Error "未连接到RemoteStorage服务器"))
        (since w (snd (state r)))) /\
  (forall once a w, result (WebDAVAdapter.tick once (a, w)) = Normal tt) /\
  (forall once a w,
     status (WebDAVAdapter.getSyncStatus a) = syncing ->
     WebDAVAdapter.tick once (a, w) = (Normal tt, (a, w))) /\
  (forall once a w db env cfg,
     WebDAVAdapter.config a = Some cfg -> obstacle env = None ->
     let s := state (WebDAVAdapter.startSync db env (a, w)) in
     WebDAVAdapter.tick once s = (Normal tt, s)).
Proof.
  split; [| split; [| split; [| split]]].
  - intros env a w. unfold RemoteStorageAdapter.tick, try_catch.
    destruct (rs_triggerSync_cases env a w) as [[-> _]|(os & -> & _)]; [| reflexivity].
    rs_run. reflexivity.
  - intros env a w H r. subst r. unfold RemoteStorageAdapter.tick, try_catch.
    rewrite rs_triggerSync_refuses by exact H.
    rs_run. cbn [state fst snd]. split; [reflexivity |].
    unfold since. cbn [trace log emit]. rewrite <- app_assoc, drop_app_length.
    now left.
  - intros once a w. unfold WebDAVAdapter.tick, WebDAVAdapter.triggerSync.
    dav_run; reflexivity.
  - intros once a w H. unfold WebDAVAdapter.tick. unfold bind, gets. cbn [fst].
    unfold WebDAVAdapter.getSyncStatus in H. now rewrite H.
  - intros once a w db env cfg Hc Ho s. subst s. unfold obstacle in Ho.
    unfold WebDAVAdapter.startSync, WebDAVAdapter.setupAutoSync.
    dav_run; try discriminate; reflexivity.
Qed.

Lemma timer_callbacks_never_throw_witness :
  In (ConsoleError "自动同步失败:" (JS.Error "未连接到RemoteStorage服务器"))
     (since boot (snd (state (RemoteStorageAdapter.tick (pass [] [])
                                (RemoteStorageAdapter.new, boot))))) /\
  WebDAVAdapter.tick None
    (state (WebDAVAdapter.startSync 1 engine
              (fst (state (WebDAVAdapter.connect (server "https://example.com/dav")
                             (WebDAVAdapter.new, boot))), boot)))
  = (Normal tt,
     state (WebDAVAdapter.startSync 1 engine
              (fst (state (WebDAVAdapter.connect (server "https://example.com/dav")
                             (WebDAVAdapter.new, boot))), boot))).
Proof.
  destruct timer_callbacks_never_throw as (_ & H2 & _ & _ & H5). split.
  - apply (H2 (pass [] []) RemoteStorageAdapter.new boot). left. reflexivity.
  - apply (H5 None (fst (state (WebDAVAdapter.connect (server "https://example.com/dav")
                                  (WebDAVAdapter.new, boot))))
              boot 1 engine (server "https://example.com/dav")); reflexivity.
Defined.

End TimerCallbacks.
